(** * Access-log transfer script (scripts/logs.js): embedding and properties

    The script reads an access log with one JSON record per line, runs every
    record through a chain of validators, splits the lines into accepted
    entries and failed entries, reports the failures to a webhook and inserts
    the accepted entries into the [logs] table in chunks.

    Layout of this file:
    - [JS]: the parts of the JavaScript language the script relies on
      (strings as UTF-16 code units, [trim], [slice], [Number] on strings
      with binary64 rounding, [decodeURI]);
    - the data model (JSON values, records, results, the calls made to the
      outside and the actions that make them);
    - [Sample]: small stand-ins for the platform, to run the script;
    - [Section Logs]: the functions of [logs.js], in source order; what comes
      from npm packages or from the platform (JSON.parse, isIP, Date
      parsing, isbot, ua-parser-js, the file system, the webhook and the
      connection pool) is a [Variable] of the section; then the notions used
      to state the properties, and the properties;
    - runs of the script on the sample platform. *)

From Stdlib Require Import List NArith ZArith Bool Lia String Ascii Arith.
From Equations Require Import Equations.
Import ListNotations.

Set Warnings "-abstract-large-number".

(* ===================================================================== *)
(** ** JavaScript strings                                                *)
(* ===================================================================== *)

Module JS.

(** A JavaScript string is a sequence of UTF-16 code units. *)
Definition jsstring := list N.

(** [js "GET"] is the string literal ['GET'] (ASCII literals only). *)
Definition js (s : string) : jsstring :=
  map N_of_ascii (list_ascii_of_string s).
Arguments js s%_string.

Fixpoint str_eqb (a b : jsstring) : bool :=
  match a, b with
  | [], [] => true
  | x :: a', y :: b' => N.eqb x y && str_eqb a' b'
  | _, _ => false
  end.

(** [Array.prototype.includes] on an array of strings. *)
Definition includes (l : list jsstring) (s : jsstring) : bool :=
  existsb (str_eqb s) l.

(** [s.slice(0, n)] for a string and [a.slice(start, end)] for an array, with
    [0 <= start <= end]: the elements at positions [start .. end-1] that
    exist. *)
Definition slice {A} (start end_ : nat) (l : list A) : list A :=
  firstn (end_ - start) (skipn start l).

(** WhiteSpace and LineTerminator code points (ECMA-262, 12.2 and 12.3):
    TAB, LF, VT, FF, CR, SP, NBSP, U+1680, U+2000..U+200A, LS, PS, U+202F,
    U+205F, U+3000 and ZWNBSP. These are the characters removed by [trim] and
    skipped around a numeric literal by [Number]. *)
Definition isWhiteSpace (c : N) : bool :=
  ((9 <=? c) && (c <=? 13) || (c =? 32) || (c =? 160) || (c =? 5760)
   || (8192 <=? c) && (c <=? 8202) || (c =? 8232) || (c =? 8233)
   || (c =? 8239) || (c =? 8287) || (c =? 12288) || (c =? 65279))%N.

Fixpoint trimStart (s : jsstring) : jsstring :=
  match s with
  | c :: s' => if isWhiteSpace c then trimStart s' else s
  | [] => []
  end.

Definition trimEnd (s : jsstring) : jsstring := rev (trimStart (rev s)).

(** [String.prototype.trim]. *)
Definition trim (s : jsstring) : jsstring := trimEnd (trimStart s).

(** ASCII part of [String.prototype.toUpperCase]. *)
Definition asciiUpper (c : N) : N :=
  if ((97 <=? c) && (c <=? 122))%N then (c - 32)%N else c.

Definition isAscii (s : jsstring) : bool := forallb (fun c => (c <? 128)%N) s.

(** Decimal digits of a natural number, as in [`${n}`] for a small
    non-negative integer. *)
Fixpoint uint_units (d : Decimal.uint) : jsstring :=
  match d with
  | Decimal.Nil => []
  | Decimal.D0 d => 48%N :: uint_units d
  | Decimal.D1 d => 49%N :: uint_units d
  | Decimal.D2 d => 50%N :: uint_units d
  | Decimal.D3 d => 51%N :: uint_units d
  | Decimal.D4 d => 52%N :: uint_units d
  | Decimal.D5 d => 53%N :: uint_units d
  | Decimal.D6 d => 54%N :: uint_units d
  | Decimal.D7 d => 55%N :: uint_units d
  | Decimal.D8 d => 56%N :: uint_units d
  | Decimal.D9 d => 57%N :: uint_units d
  end.

Definition natToString (n : nat) : jsstring := uint_units (Nat.to_uint n).

(* --------------------------------------------------------------------- *)
(** *** Numbers                                                          *)
(* --------------------------------------------------------------------- *)

(** A Number is an IEEE 754 binary64 value: NaN, an infinity, or
    [(-1)^neg * m * 2^e]. Finite values are kept canonical: [m] is odd, or
    [m = 0] and [e = 0] (the two zeros differ by [neg]). *)
Inductive number :=
| NaN
| Inf (neg : bool)
| Fin (neg : bool) (m : Z) (e : Z).

Definition isNaN (x : number) : bool :=
  match x with NaN => true | _ => false end.

(** Strip the trailing zero bits of a positive mantissa. *)
Fixpoint strip (m : positive) (e : Z) : Z * Z :=
  match m with
  | xO m' => strip m' (e + 1)
  | _ => (Zpos m, e)
  end.

Definition canon (neg : bool) (m e : Z) : number :=
  match m with
  | Zpos p => let '(m', e') := strip p e in Fin neg m' e'
  | _ => Fin neg 0 0
  end.

(** Round the non-negative rational [p / q] ([q > 0]) to the nearest
    binary64 value, ties to even, overflowing to infinity. *)
Definition roundRatio (neg : bool) (p q : Z) : number :=
  if (p <=? 0)%Z then Fin neg 0 0 else
  let e0 := (Z.log2 p - Z.log2 q - 53)%Z in
  let scaled (e : Z) : Z * Z :=
    if (0 <=? e)%Z then (p, q * 2 ^ e)%Z else (p * 2 ^ (- e), q)%Z in
  let e1 :=
    let '(num, den) := scaled e0 in
    if (2 ^ 53 <=? num / den)%Z then (e0 + 1)%Z else e0 in
  let e := Z.max e1 (-1074) in
  let '(num, den) := scaled e in
  let n := (num / den)%Z in
  let r := (num mod den)%Z in
  let up := ((den <? 2 * r) || ((den =? 2 * r) && Z.odd n))%Z in
  let n' := if up then (n + 1)%Z else n in
  if (n' =? 0)%Z then Fin neg 0 0
  else if (1024 <=? Z.log2 n' + e)%Z then Inf neg
  else canon neg n' e.

Definition numOfZ (z : Z) : number := roundRatio (z <? 0)%Z (Z.abs z) 1.

(** SameValueZero on numbers, the comparison of [Array.prototype.includes]. *)
Definition sameValueZero (x y : number) : bool :=
  match x, y with
  | NaN, NaN => true
  | Inf a, Inf b => Bool.eqb a b
  | Fin a m e, Fin b m' e' =>
      ((m =? 0) && (m' =? 0) || Bool.eqb a b && (m =? m') && (e =? e'))%Z
  | _, _ => false
  end.

Definition digitVal (c : N) : option Z :=
  if ((48 <=? c) && (c <=? 57))%N then Some (Z.of_N (c - 48)) else None.

Definition hexVal (c : N) : option Z :=
  if ((48 <=? c) && (c <=? 57))%N then Some (Z.of_N (c - 48))
  else if ((65 <=? c) && (c <=? 70))%N then Some (Z.of_N (c - 55))
  else if ((97 <=? c) && (c <=? 102))%N then Some (Z.of_N (c - 87))
  else None.

Definition isHexDigit (c : N) : bool :=
  match hexVal c with Some _ => true | None => false end.

(** Longest prefix of digits in the given base: its value, its length and the
    rest of the string. *)
Fixpoint digits (val : N -> option Z) (base : Z) (acc : Z) (n : nat)
    (s : jsstring) : Z * nat * jsstring :=
  match s with
  | c :: s' =>
      match val c with
      | Some d => digits val base (acc * base + d)%Z (S n) s'
      | None => (acc, n, s)
      end
  | [] => (acc, n, [])
  end.

(** ExponentPart_opt at the end of a decimal literal: [Some 0] when absent,
    [None] when malformed or followed by anything. *)
Definition exponentPart (s : jsstring) : option Z :=
  match s with
  | [] => Some 0%Z
  | c :: s1 =>
      if ((c =? 101) || (c =? 69))%N then
        let '(neg, s2) :=
          match s1 with
          | 43%N :: t => (false, t)
          | 45%N :: t => (true, t)
          | _ => (false, s1)
          end in
        match digits digitVal 10 0 0 s2 with
        | (v, S _, []) => Some (if neg then (- v)%Z else v)
        | _ => None
        end
      else None
  end.

(** StrUnsignedDecimalLiteral. *)
Definition unsignedDecimal (neg : bool) (s : jsstring) : number :=
  if str_eqb s (js "Infinity") then Inf neg else
  let '(ip, ni, s1) := digits digitVal 10 0 0 s in
  let '(fp, nf, s2) :=
    match s1 with
    | 46%N :: t => digits digitVal 10 ip 0 t
    | _ => (ip, 0, s1)
    end in
  match ni, nf with
  | O, O => NaN
  | _, _ =>
      match exponentPart s2 with
      | Some ex =>
          let e10 := (ex - Z.of_nat nf)%Z in
          if (0 <=? e10)%Z then roundRatio neg (fp * 10 ^ e10) 1
          else roundRatio neg fp (10 ^ (- e10))
      | None => NaN
      end
  end.

(** NonDecimalIntegerLiteral: [0x], [0o] or [0b] followed by digits only. *)
Definition nonDecimal (s : jsstring) : option number :=
  match s with
  | 48%N :: p :: t =>
      let lit (val : N -> option Z) (base : Z) :=
        match digits val base 0 0 t with
        | (v, S _, []) => Some (roundRatio false v 1)
        | _ => Some NaN
        end in
      if ((p =? 120) || (p =? 88))%N then lit hexVal 16%Z
      else if ((p =? 111) || (p =? 79))%N then
        lit (fun c => if (c <? 56)%N then digitVal c else None) 8%Z
      else if ((p =? 98) || (p =? 66))%N then
        lit (fun c => if (c <? 50)%N then digitVal c else None) 2%Z
      else None
  | _ => None
  end.

(** StringToNumber (ECMA-262, 7.1.4.1.1): the conversion [Number(s)] of a
    string. White space around the literal is ignored, and a string with
    nothing else is [+0]. *)
Definition StringToNumber (s : jsstring) : number :=
  match trim s with
  | [] => Fin false 0 0
  | 43%N :: t => unsignedDecimal false t
  | 45%N :: t => unsignedDecimal true t
  | t =>
      match nonDecimal t with
      | Some x => x
      | None => unsignedDecimal false t
      end
  end.

(* --------------------------------------------------------------------- *)
(** *** decodeURI                                                        *)
(* --------------------------------------------------------------------- *)

(** The percent-escapes of a string: [%] must be followed by two hexadecimal
    digits, anything else is taken literally. [None] is a URIError. *)
Inductive token :=
| Lit (c : N)
| Esc (h1 h2 : N) (byte : Z).

Fixpoint tokens (s : jsstring) : option (list token) :=
  match s with
  | [] => Some []
  | c :: tl =>
      if (c =? 37)%N then
        match tl with
        | h1 :: h2 :: rest =>
            match hexVal h1, hexVal h2 with
            | Some a, Some b =>
                option_map (cons (Esc h1 h2 (16 * a + b))) (tokens rest)
            | _, _ => None
            end
        | _ => None
        end
      else option_map (cons (Lit c)) (tokens tl)
  end.

(** The characters whose escapes [decodeURI] leaves in place:
    [; / ? : @ & = + $ , #]. *)
Definition reservedURI (b : Z) : bool :=
  existsb (Z.eqb b) [59; 47; 63; 58; 64; 38; 61; 43; 36; 44; 35]%Z.

Definition isCont (b : Z) : bool := ((128 <=? b) && (b <=? 191))%Z.

(** UTF16EncodeCodePoint, after the checks that make the octets a valid
    UTF-8 encoding: shortest form, no surrogate, at most U+10FFFF. *)
Definition encodeCodePoint (lo cp : Z) : option jsstring :=
  if ((cp <? lo) || (55296 <=? cp) && (cp <=? 57343) || (1114111 <? cp))%Z
  then None
  else if (cp <? 65536)%Z then Some [Z.to_N cp]
  else Some [Z.to_N (55296 + (cp - 65536) / 1024);
             Z.to_N (56320 + (cp - 65536) mod 1024)]%Z.

Definition prepend (a : option jsstring) (b : option jsstring)
    : option jsstring :=
  match a, b with
  | Some x, Some y => Some (x ++ y)
  | _, _ => None
  end.

Fixpoint decodeTokens (ts : list token) : option jsstring :=
  match ts with
  | [] => Some []
  | Lit c :: r => prepend (Some [c]) (decodeTokens r)
  | Esc h1 h2 b :: r =>
      if (b <? 128)%Z then
        prepend (Some (if reservedURI b then [37%N; h1; h2] else [Z.to_N b]))
                (decodeTokens r)
      else if ((192 <=? b) && (b <? 224))%Z then
        match r with
        | Esc _ _ b2 :: r' =>
            if isCont b2 then
              prepend (encodeCodePoint 128 ((b - 192) * 64 + (b2 - 128)))
                      (decodeTokens r')
            else None
        | _ => None
        end
      else if ((224 <=? b) && (b <? 240))%Z then
        match r with
        | Esc _ _ b2 :: Esc _ _ b3 :: r' =>
            if isCont b2 && isCont b3 then
              prepend (encodeCodePoint 2048
                         ((b - 224) * 4096 + (b2 - 128) * 64 + (b3 - 128)))
                      (decodeTokens r')
            else None
        | _ => None
        end
      else if ((240 <=? b) && (b <? 248))%Z then
        match r with
        | Esc _ _ b2 :: Esc _ _ b3 :: Esc _ _ b4 :: r' =>
            if isCont b2 && isCont b3 && isCont b4 then
              prepend (encodeCodePoint 65536
                         ((b - 240) * 262144 + (b2 - 128) * 4096
                          + (b3 - 128) * 64 + (b4 - 128)))
                      (decodeTokens r')
            else None
        | _ => None
        end
      else None
  end.

(** [decodeURI(s)]; [None] when it throws URIError. *)
Definition decodeURI (s : jsstring) : option jsstring :=
  match tokens s with
  | Some ts => decodeTokens ts
  | None => None
  end.

End JS.
Import JS.

(* ===================================================================== *)
(** ** Data model                                                        *)
(* ===================================================================== *)

(** What [JSON.parse] returns. The fields of an object are listed in the
    order of [Object.entries]. *)
#[local] Unset Elimination Schemes.
Inductive json :=
| JNull
| JBool (b : bool)
| JNum (x : number)
| JStr (s : jsstring)
| JArr (items : list json)
| JObj (fields : list (jsstring * json)).
#[local] Set Elimination Schemes.

(** The values held by the fields of a record on its way through the
    validators: strings from the log line, then [null], numbers, booleans and
    [Date] objects (by their time value) as the validators normalize them.
    [VUndefined] is what reading a missing field gives. *)
Inductive value :=
| VUndefined
| VNull
| VBool (b : bool)
| VNum (x : number)
| VStr (s : jsstring)
| VDate (t : Z).

(** A record, as the list of its own properties in property order. *)
Definition jsobject := list (jsstring * value).

(** [object.key]. *)
Fixpoint Get (o : jsobject) (key : jsstring) : value :=
  match o with
  | [] => VUndefined
  | (k, v) :: o' => if str_eqb k key then v else Get o' key
  end.

(** [{...object, key: v}]: an existing property keeps its place, a new one
    goes last. *)
Fixpoint set (key : jsstring) (v : value) (o : jsobject) : jsobject :=
  match o with
  | [] => [(key, v)]
  | (k, w) :: o' =>
      if str_eqb k key then (key, v) :: o' else (k, w) :: set key v o'
  end.

(** [v === 'literal']. *)
Definition strictEqStr (v : value) (s : jsstring) : bool :=
  match v with
  | VStr t => str_eqb t s
  | _ => false
  end.

(** ToBoolean. *)
Definition truthy (v : value) : bool :=
  match v with
  | VUndefined | VNull => false
  | VBool b => b
  | VNum NaN => false
  | VNum (Fin _ m _) => negb (m =? 0)%Z
  | VNum (Inf _) => true
  | VStr s => negb (str_eqb s [])
  | VDate _ => true
  end.

(** ToNumber, which is what [Number(v)] computes. *)
Definition ToNumber (v : value) : number :=
  match v with
  | VUndefined => NaN
  | VNull => Fin false 0 0
  | VBool b => if b then Fin false 1 0 else Fin false 0 0
  | VNum x => x
  | VStr s => StringToNumber s
  | VDate t => numOfZ t
  end.

(** TimeClip: the time value of a Date built from a number; [None] is the
    NaN time value of an invalid Date. *)
Definition TimeClip (x : number) : option Z :=
  match x with
  | Fin neg m e =>
      let a := if (0 <=? e)%Z then (m * 2 ^ e)%Z else (m / 2 ^ (- e))%Z in
      if (8640000000000000 <? a)%Z then None
      else Some (if neg then (- a)%Z else a)
  | _ => None
  end.

(** The outcome of an async function: the value it resolves to, or the
    message of the error it throws. *)
Inductive result (A : Type) :=
| Ok (a : A)
| Throw (message : jsstring).
Arguments Ok {A} a.
Arguments Throw {A} message.

(** [p.then(f)]. *)
Definition andThen {A B} (p : result A) (f : A -> result B) : result B :=
  match p with
  | Ok a => f a
  | Throw m => Throw m
  end.
Notation "p '.then' f" := (andThen p f) (at level 50, left associativity).

(** What ua-parser-js reports; [None] is [undefined]. *)
Record ua_result := {
  browser_name : option jsstring;
  os_name : option jsstring;
  os_version : option jsstring;
  device_type : option jsstring
}.

(** A rejected line: the message of the error and the line as read. *)
Record failedEntry := { error : jsstring; line : jsstring }.

(** The loaded configuration: [{backup, db, discord, path}]. *)
Record config := {
  backup : jsstring;
  db : json;
  discord : json;
  path : jsstring
}.

(** The calls the script makes to the outside, in the order it makes them.
    The timestamps of the console lines are left out. *)
Inductive event :=
| ConsoleInfo (message : jsstring)
| ConsoleErrorWebhook (err : jsstring)
| ConsoleErrorFull (err : jsstring)
| ConsoleDebug (entries : list failedEntry)
| WebhookSend (webhook : json) (content : jsstring)
| WebhookDestroy (webhook : json)
| CopyFile (src dest : jsstring)
| OpenStream (file : jsstring)
| EndOfStream (file : jsstring)
| Truncate (file : jsstring)
| CreatePool (conf : json)
| PoolQuery (sql : jsstring) (rows : list (list value))
| PoolEnd
| ProcessExit (code : Z).

(** An action of the script: from the calls made so far to its outcome and
    the calls made so far with its own added. *)
Definition M (A : Type) := list event -> result A * list event.

Definition ret {A} (a : A) : M A := fun h => (Ok a, h).

Definition bind {A B} (m : M A) (f : A -> M B) : M B :=
  fun h =>
    match m h with
    | (Ok a, h') => f a h'
    | (Throw e, h') => (Throw e, h')
    end.

Notation "x <- m ;; k" := (bind m (fun x => k))
  (at level 61, m at next level, right associativity).
Notation "m ;; k" := (bind m (fun _ => k))
  (at level 61, right associativity).

(** A call that cannot fail. *)
Definition emit (ev : event) : M unit := fun h => (Ok tt, h ++ [ev]).

(** [try { body } catch (error) { handler(error.message) }]. *)
Definition tryCatch {A} (body : M A) (handler : jsstring -> M A) : M A :=
  fun h =>
    match body h with
    | (Ok a, h') => (Ok a, h')
    | (Throw e, h') => handler e h'
    end.

(** [when c m]: [if (c) { await m; }]. *)
Definition when (c : bool) (m : M unit) : M unit :=
  if c then m else ret tt.

(* ===================================================================== *)
(** ** The script                                                        *)
(* ===================================================================== *)

Definition VALID_HTTP_METHODS : list jsstring :=
  [js "GET"; js "HEAD"; js "POST"; js "PUT"; js "DELETE"; js "CONNECT";
   js "OPTIONS"; js "TRACE"; js "PATCH";
   (* Apache's way of telling us "no method". *)
   js "-"].

(* 444, 497, 498, 499 are Nginx-specific *)
Definition VALID_HTTP_STATUSES : list Z :=
  [100; 101; 102; 103; 200; 201; 202; 203; 204; 206; 207; 208; 226; 300; 301;
   302; 303; 304; 307; 308; 400; 401; 402; 403; 404; 405; 406; 407; 408; 409;
   410; 411; 412; 413; 414; 415; 416; 417; 418; 421; 422; 423; 424; 425; 426;
   428; 429; 431; 444; 450; 451; 497; 498; 499; 500; 501; 502; 503; 504; 505;
   506; 507; 508; 510; 511]%Z.

Definition MAX_PATH_QUERY_LENGTH : nat := 255.
Definition MAX_COUNTRY_LENGTH : nat := 8.

Definition QUERY : jsstring := js "
INSERT INTO logs (host, user, time, method, path, query, status, response_size,
process_time, referer, user_agent, is_bot, browser, device_type, os, country)
VALUES ?
".

Definition CHUNK_SIZE : nat := 20000.

(** Messages of the errors the engine itself throws (V8 wording). *)
Definition URIError_message : jsstring := js "URI malformed".

Definition TypeError_entries : jsstring :=
  js "Cannot convert undefined or null to object".

(** Calling [expr.name(...)] where [expr] evaluates to [v], not a string. *)
Definition TypeError_call (v : value) (expr name : jsstring) : jsstring :=
  match v with
  | VUndefined =>
      js "Cannot read properties of undefined (reading '" ++ name ++ js "')"
  | VNull => js "Cannot read properties of null (reading '" ++ name ++ js "')"
  | _ => expr ++ js "." ++ name ++ js " is not a function"
  end.

(* ===================================================================== *)
(** ** A sample platform                                                 *)
(* ===================================================================== *)

(** Small stand-ins for the platform and the packages, used to run the
    script on concrete log lines. Each agrees with the real function on the
    inputs named in its comment. *)
Module Sample.

(** The text of a JSON string that has no escape, up to its closing quote,
    and what follows it. *)
Fixpoint plainString (s : jsstring) : option (jsstring * jsstring) :=
  match s with
  | [] => None
  | c :: t =>
      if (c =? 34)%N then Some ([], t)
      else if (c =? 92)%N then None
      else
        match plainString t with
        | Some (x, r) => Some (c :: x, r)
        | None => None
        end
  end.

(** The fields of a flat object written without spaces, after its opening
    brace: quoted names and quoted values, up to the closing brace. *)
Fixpoint flatFields (fuel : nat) (s : jsstring)
    : option (list (jsstring * json)) :=
  match fuel, s with
  | S fuel', 34%N :: s1 =>
      match plainString s1 with
      | Some (k, 58%N :: 34%N :: s2) =>
          match plainString s2 with
          | Some (v, [125%N]) => Some [(k, JStr v)]
          | Some (v, 44%N :: s3) =>
              option_map (cons (k, JStr v)) (flatFields fuel' s3)
          | _ => None
          end
      | _ => None
      end
  | _, _ => None
  end.

(** [JSON.parse] on [{}] and on flat objects of plain strings with distinct
    names. *)
Definition JSON_parse (s : jsstring) : option json :=
  match s with
  | [123%N; 125%N] => Some (JObj [])
  | 123%N :: t => option_map JObj (flatFields (List.length t) t)
  | _ => None
  end.

(** [JSON.parse] on [null], on two arrays and on the objects above. *)
Definition JSON_parse_values (s : jsstring) : option json :=
  if str_eqb s (js "null") then Some JNull
  else if str_eqb s (js "[]") then Some (JArr [])
  else if str_eqb s (js "[1]") then Some (JArr [JNum (Fin false 1 0)])
  else JSON_parse s.

(** [isIP] on dotted-decimal IPv4 addresses (four numbers up to 255 with no
    leading zero); 0 on anything else. *)
Fixpoint octets (fuel : nat) (s : jsstring) : list (Z * nat * jsstring) :=
  match fuel with
  | O => []
  | S fuel' =>
      let '(v, n, r) := digits digitVal 10 0 0 s in
      match r with
      | 46%N :: r' => (v, n, r) :: octets fuel' r'
      | _ => [(v, n, r)]
      end
  end.

Definition isIP (s : jsstring) : N :=
  let os := octets 5 s in
  if (List.length os =? 4)%nat
     && forallb (fun o => let '(v, n, _) := o in
                          (1 <=? n)%nat && (n <=? 3)%nat && (v <=? 255)%Z
                          && ((n =? 1)%nat || (10 ^ Z.of_nat (n - 1) <=? v)%Z))
                os
     && match last os (0%Z, 0, []) with (_, _, []) => true | _ => false end
  then 4%N else 0%N.

(** [Date.parse] on two ISO timestamps. *)
Definition Date_parse (s : jsstring) : option Z :=
  if str_eqb s (js "1970-01-01T00:00:00.000Z") then Some 0%Z
  else if str_eqb s (js "2024-01-01T00:00:00.000Z") then Some 1704067200000%Z
  else None.

Definition unicodeUpper (s : jsstring) : jsstring := s.

(** [`${x}`] for NaN, the infinities and the integers. *)
Definition NumberToString (x : number) : jsstring :=
  match x with
  | NaN => js "NaN"
  | Inf neg => if neg then js "-Infinity" else js "Infinity"
  | Fin neg m e =>
      (if neg && negb (m =? 0)%Z then js "-" else [])
      ++ natToString (Z.to_nat (m * 2 ^ e))
  end.

Definition DateToString (t : Z) : jsstring := js "Invalid Date".

(** Whether [p] occurs in [s]. *)
Fixpoint startsWith (p s : jsstring) : bool :=
  match p, s with
  | [], _ => true
  | x :: p', y :: s' => (x =? y)%N && startsWith p' s'
  | _, [] => false
  end.

Fixpoint contains (p s : jsstring) : bool :=
  startsWith p s || match s with [] => false | _ :: s' => contains p s' end.

(** Crawlers that name themselves [...bot]. *)
Definition isbot (ua : jsstring) : bool :=
  contains (js "bot") ua || contains (js "Bot") ua.

(** iPhones, and nothing else. *)
Definition UAParser (ua : jsstring) : ua_result :=
  if contains (js "iPhone") ua then
    {| browser_name := Some (js "Mobile Safari");
       os_name := Some (js "iOS");
       os_version := None;
       device_type := Some (js "mobile") |}
  else
    {| browser_name := None; os_name := None; os_version := None;
       device_type := None |}.

(** Nothing fails. *)
Definition noFailure (h : list event) (ev : event) : option jsstring := None.

(** Every bulk insert is refused. *)
Definition queryFails (h : list event) (ev : event) : option jsstring :=
  match ev with
  | PoolQuery _ _ => Some (js "Connection lost")
  | _ => None
  end.

(** The webhook refuses every message. *)
Definition webhookFails (h : list event) (ev : event) : option jsstring :=
  match ev with
  | WebhookSend _ _ => Some (js "Unauthorized")
  | _ => None
  end.

(** The pool cannot be closed. *)
Definition poolEndFails (h : list event) (ev : event) : option jsstring :=
  match ev with
  | PoolEnd => Some (js "Pool is closed.")
  | _ => None
  end.

(** A file with the given lines, read to its end. *)
Definition fileWith (lines : list jsstring) (h : list event)
    (file : jsstring) : list jsstring * option jsstring := (lines, None).

(** A file that cannot be read. *)
Definition unreadable (h : list event) (file : jsstring)
    : list jsstring * option jsstring :=
  ([], Some (js "ENOENT: no such file or directory")).

(** The text of a flat JSON object with the given fields. *)
Definition quoted (s : string) : jsstring := [34%N] ++ js s ++ [34%N].

Fixpoint fieldsText (fields : list (string * string)) : jsstring :=
  match fields with
  | [] => []
  | [(k, v)] => quoted k ++ js ":" ++ quoted v
  | (k, v) :: rest => quoted k ++ js ":" ++ quoted v ++ js "," ++ fieldsText rest
  end.

Definition objectText (fields : list (string * string)) : jsstring :=
  js "{" ++ fieldsText fields ++ js "}".

(** A log line with the twelve fields. *)
Definition logLine (host method path query status size time ua : string)
    : jsstring :=
  objectText
    [("host", host); ("user", "-"); ("time", "2024-01-01T00:00:00.000Z");
     ("method", method); ("path", path); ("query", query);
     ("status", status); ("responseSize", size); ("processTime", time);
     ("referer", "-"); ("userAgent", ua); ("country", "us")]%string.

End Sample.

Section Logs.

(** *** The platform and the packages *)

(** [JSON.parse]; [None] when it throws. *)
Variable JSON_parse : jsstring -> option json.
(** [isIP] of node:net on a string: 0, 4 or 6. *)
Variable isIP : jsstring -> N.
(** [Date.parse]: the time value of a date string, [None] for NaN. *)
Variable Date_parse : jsstring -> option Z.
(** [toUpperCase] on a string that has a code unit outside ASCII. *)
Variable unicodeUpper : jsstring -> jsstring.
(** [`${x}`] for a number and for a Date. *)
Variable NumberToString : number -> jsstring.
Variable DateToString : Z -> jsstring.
(** The packages isbot and ua-parser-js. *)
Variable isbot : jsstring -> bool.
Variable UAParser : jsstring -> ua_result.
(** Whether a call to the file system, the webhook or the pool fails, given
    the calls made before it: [Some message] is the error it rejects with. *)
Variable fails : list event -> event -> option jsstring.
(** The lines a read stream delivers, given the calls made before it was
    opened, and the error that interrupts it, if any. *)
Variable stream : list event -> jsstring -> list jsstring * option jsstring.

(** A call that may fail. *)
Definition call (ev : event) : M unit :=
  fun h =>
    match fails h ev with
    | None => (Ok tt, h ++ [ev])
    | Some e => (Throw e, h ++ [ev])
    end.

(** [String.prototype.toUpperCase]. *)
Definition toUpperCase (s : jsstring) : jsstring :=
  if isAscii s then map asciiUpper s else unicodeUpper s.

(** [`${v}`]. *)
Definition ToString (v : value) : jsstring :=
  match v with
  | VUndefined => js "undefined"
  | VNull => js "null"
  | VBool b => if b then js "true" else js "false"
  | VNum x => NumberToString x
  | VStr s => s
  | VDate t => DateToString t
  end.

(** [new Date(v)], by its time value. *)
Definition newDate (v : value) : option Z :=
  match v with
  | VStr s => Date_parse s
  | VDate t => Some t
  | _ => TimeClip (ToNumber v)
  end.

(** *** The validators *)

(** [line.replaceAll(/\\x([0-9a-fA-F]{2})/g, '%$1')]: every backslash, [x] and
    two hexadecimal digits, found from left to right, becomes [%] and the two
    digits. *)
Fixpoint replaceHexEscapes (line : jsstring) : jsstring :=
  match line with
  | [] => []
  | c :: tl =>
      match tl with
      | x :: a :: b :: rest =>
          if ((c =? 92) && (x =? 120))%N
             && isHexDigit a && isHexDigit b
          then 37%N :: a :: b :: replaceHexEscapes rest
          else c :: replaceHexEscapes tl
      | _ => c :: replaceHexEscapes tl
      end
  end.

Definition fixEscaping (line : jsstring) : result jsstring :=
  Ok (replaceHexEscapes line).

Definition gracefulParse (text : jsstring) : result json :=
  match JSON_parse text with
  | Some j => Ok j
  | None => Throw (js "Invalid JSON.")
  end.

(** [Object.entries(object)] for a parsed JSON value: the fields of an
    object, the items of an array and the characters of a string under their
    indices, nothing for a number or a boolean, a TypeError for [null]. *)
Definition indexed {A} (l : list A) : list (jsstring * A) :=
  combine (map natToString (seq 0 (List.length l))) l.

Definition Object_entries (j : json) : result (list (jsstring * json)) :=
  match j with
  | JNull => Throw TypeError_entries
  | JBool _ | JNum _ => Ok []
  | JStr s => Ok (indexed (map (fun c => JStr [c]) s))
  | JArr items => Ok (indexed items)
  | JObj fields => Ok fields
  end.

(** The loop of [checkFieldsAreStrings]. It returns the object it was given;
    here that object is kept as the list of its properties, which are all
    strings when the loop ends without throwing. *)
Fixpoint fieldsAreStrings (entries : list (jsstring * json)) : result jsobject :=
  match entries with
  | [] => Ok []
  | (key, JStr s) :: rest =>
      match fieldsAreStrings rest with
      | Ok o => Ok ((key, VStr s) :: o)
      | Throw m => Throw m
      end
  | (key, _) :: _ => Throw (js "Field '" ++ key ++ js "' is not a string.")
  end.

Definition checkFieldsAreStrings (j : json) : result jsobject :=
  (Object_entries j) .then fieldsAreStrings.

Definition checkValidIP (object : jsobject) : result jsobject :=
  if (isIP (ToString (Get object (js "host"))) =? 0)%N then
    Throw (js "Invalid IP address: " ++ ToString (Get object (js "host")))
  else Ok object.

Definition checkValidTime (object : jsobject) : result jsobject :=
  match newDate (Get object (js "time")) with
  | None => Throw (js "Invalid time: " ++ ToString (Get object (js "time")))
  | Some time => Ok (set (js "time") (VDate time) object)
  end.

Definition checkValidMethod (object : jsobject) : result jsobject :=
  match Get object (js "method") with
  | VStr s =>
      let method := toUpperCase s in
      if negb (includes VALID_HTTP_METHODS method) then
        Throw (js "Invalid HTTP method: " ++ method)
      else
        Ok (set (js "method")
                (if str_eqb method (js "-") then VNull else VStr method)
                object)
  | v => Throw (TypeError_call v (js "object.method") (js "toUpperCase"))
  end.

(** [decodeURI(v).slice(0, MAX_PATH_QUERY_LENGTH)]. *)
Definition decodeAndTrim (v : value) : result jsstring :=
  match decodeURI (ToString v) with
  | Some s => Ok (slice 0 MAX_PATH_QUERY_LENGTH s)
  | None => Throw URIError_message
  end.

Definition checkPathQuery (object : jsobject) : result jsobject :=
  (decodeAndTrim (Get object (js "path"))) .then (fun path =>
  (decodeAndTrim (Get object (js "query"))) .then (fun query =>
  Ok (set (js "query") (if str_eqb query [] then VNull else VStr query)
     (set (js "path") (if str_eqb path (js "-") then VNull else VStr path)
        object)))).

Definition checkStatus (object : jsobject) : result jsobject :=
  let status := ToNumber (Get object (js "status")) in
  if negb (existsb (fun k => sameValueZero (numOfZ k) status)
                   VALID_HTTP_STATUSES) then
    Throw (js "Invalid HTTP status: " ++ ToString (Get object (js "status")))
  else Ok (set (js "status") (VNum status) object).

Definition checkResponseSize (object : jsobject) : result jsobject :=
  let responseSize := ToNumber (Get object (js "responseSize")) in
  if isNaN responseSize then
    Throw (js "Invalid response size: "
           ++ ToString (Get object (js "responseSize")))
  else Ok (set (js "responseSize") (VNum responseSize) object).

Definition checkProcessTime (object : jsobject) : result jsobject :=
  let processTime := ToNumber (Get object (js "processTime")) in
  if isNaN processTime then
    Throw (js "Invalid response size: "
           ++ ToString (Get object (js "processTime")))
  else Ok (set (js "processTime") (VNum processTime) object).

Definition trimReferer (object : jsobject) : result jsobject :=
  match Get object (js "referer") with
  | VStr s =>
      let referer := slice 0 MAX_PATH_QUERY_LENGTH s in
      Ok (set (js "referer") (VStr referer) object)
  | v => Throw (TypeError_call v (js "object.referer") (js "slice"))
  end.

Definition trimUser (object : jsobject) : result jsobject :=
  match Get object (js "user") with
  | VStr s =>
      let user := slice 0 MAX_PATH_QUERY_LENGTH s in
      Ok (set (js "user")
              (if str_eqb user (js "-") then VNull else VStr user) object)
  | v => Throw (TypeError_call v (js "object.user") (js "slice"))
  end.

Definition checkCountry (object : jsobject) : result jsobject :=
  match Get object (js "country") with
  | VStr s =>
      Ok (set (js "country")
              (if str_eqb s (js "-") then VNull
               else VStr (toUpperCase (slice 0 MAX_COUNTRY_LENGTH s)))
              object)
  | v => Throw (TypeError_call v (js "object.country") (js "slice"))
  end.

(** [x || fallback] for a string that may be undefined. *)
Definition orElse (x : option jsstring) (fallback : value) : value :=
  match x with
  | Some s => if str_eqb s [] then fallback else VStr s
  | None => fallback
  end.

Definition decomposeUserAgent (object : jsobject) : result jsobject :=
  let ua := Get object (js "userAgent") in
  if strictEqStr ua (js "-") || negb (truthy ua) then
    Ok (set (js "userAgent") VNull
       (set (js "os") VNull
       (set (js "deviceType") (VStr (js "unknown"))
       (set (js "browser") VNull
       (set (js "bot") (VBool false) object)))))
  else
    match ua with
    | VStr s =>
        let bot := isbot s in
        let userAgent := UAParser s in
        let browser := orElse (browser_name userAgent) VNull in
        let os :=
          match orElse (os_name userAgent) VNull with
          | VStr name =>
              match orElse (os_version userAgent) VNull with
              | VStr version => VStr (name ++ js " " ++ version)
              | _ => VStr name
              end
          | _ => VNull
          end in
        let deviceType :=
          if bot then VStr (js "unknown")
          else orElse (device_type userAgent) (VStr (js "other")) in
        Ok (set (js "userAgent") (VStr (slice 0 MAX_PATH_QUERY_LENGTH s))
           (set (js "os") os
           (set (js "deviceType") deviceType
           (set (js "browser") browser
           (set (js "bot") (VBool bot) object)))))
    | v => Throw (TypeError_call v (js "object.userAgent") (js "slice"))
    end.

(** *** Loading the entries *)

(** The chain of validators applied to one line. *)
Definition validate (line : jsstring) : result jsobject :=
  (fixEscaping line)
    .then gracefulParse
    .then checkFieldsAreStrings
    .then checkValidIP
    .then checkValidTime
    .then checkValidMethod
    .then checkPathQuery
    .then checkStatus
    .then checkResponseSize
    .then checkProcessTime
    .then trimReferer
    .then trimUser
    .then checkCountry
    .then decomposeUserAgent.

(** [error && error.message || 'Unknown error.']. *)
Definition messageOf (message : jsstring) : jsstring :=
  if str_eqb message [] then js "Unknown error." else message.

(** One turn of the loop over the lines, on the two arrays
    [(successful, failed)]. *)
Definition loadStep (acc : list jsobject * list failedEntry)
    (line : jsstring) : list jsobject * list failedEntry :=
  let '(successful, failed) := acc in
  if str_eqb (trim line) [] then
    (* Skip empty lines. *)
    acc
  else
    match validate line with
    | Ok entry => (successful ++ [entry], failed)
    | Throw e =>
        (successful, failed ++ [{| error := messageOf e; line := line |}])
    end.

Definition loadLoop (lines : list jsstring)
    : list jsobject * list failedEntry :=
  fold_left loadStep lines ([], []).

(** [loadEntries(path)]: the stream is opened, the lines it delivers go
    through the loop, and the two arrays are returned when it ends; an error
    of the stream is thrown out of the loop and the arrays are lost. *)
Definition loadEntries (path : jsstring)
    : M (list jsobject * list failedEntry) :=
  fun h =>
    let h1 := h ++ [OpenStream path] in
    match stream h path with
    | (lines, None) => (Ok (loadLoop lines), h1 ++ [EndOfStream path])
    | (_, Some e) => (Throw e, h1)
    end.

(** *** Reporting *)

Definition report (webhook : json) (message : jsstring) : M unit :=
  emit (ConsoleInfo message) ;;
  tryCatch (call (WebhookSend webhook (slice 0 2000 message)))
           (fun error =>
              (* I guess there's nothing to be done here. *)
              emit (ConsoleErrorWebhook error)).

Definition newline : jsstring := [10%N].

(** The text of one failed entry in the report; [index] counts from 0. *)
Definition formatEntry (index : nat) (entry : failedEntry) : jsstring :=
  natToString (index + 1) ++ js ". Error: " ++ error entry ++ js ", line:"
  ++ newline ++ js "```json" ++ newline ++ line entry ++ js "```".

(** [a.map((x, index) => f(index, x))]. *)
Definition mapi {A B} (f : nat -> A -> B) (a : list A) : list B :=
  map (fun p => f (fst p) (snd p)) (combine (seq 0 (List.length a)) a).

Definition failureMessage (entries : list failedEntry) : jsstring :=
  let formattedEntries := List.concat (mapi formatEntry (slice 0 5 entries)) in
  natToString (List.length entries)
  ++ js " entries failed, first 5 are displayed:" ++ newline
  ++ formattedEntries.

Definition reportFailedEntries (webhook : json)
    (entries : list failedEntry) : M unit :=
  if (List.length entries =? 0)%nat then ret tt
  else
    report webhook (failureMessage entries) ;;
    when (5 <? List.length entries)%nat (emit (ConsoleDebug entries)).

(** *** Inserting *)

(** The row of an entry, in the column order of [QUERY]. *)
Definition rowOf (e : jsobject) : list value :=
  map (Get e)
    [js "host"; js "user"; js "time"; js "method"; js "path"; js "query";
     js "status"; js "responseSize"; js "processTime"; js "referer";
     js "userAgent"; js "bot"; js "browser"; js "deviceType"; js "os";
     js "country"].

(** The [for] loop of [insertEntries], from [start] on. *)
Equations? insertLoop (entries : list jsobject) (start : nat) : M unit
    by wf (List.length entries - start) lt :=
  insertLoop entries start with lt_dec start (List.length entries) => {
    | left _ =>
        let batch := slice start (start + CHUNK_SIZE) entries in
        call (PoolQuery QUERY (map rowOf batch)) ;;
        insertLoop entries (start + CHUNK_SIZE)
    | right _ => ret tt }.
Proof.
  assert (0 < CHUNK_SIZE) by (apply Nat.ltb_lt; vm_compute; reflexivity).
  lia.
Qed.

Definition insertEntries (db : json) (entries : list jsobject) : M unit :=
  emit (CreatePool db) ;;
  insertLoop entries 0 ;;
  call PoolEnd.

(** *** The run *)

(** The [try] block of [main]. *)
Definition transfer (argv : list jsstring) (cfg : config) : M unit :=
  let webhook := discord cfg in
  let doTruncate := negb (includes argv (js "--no-truncate")) in
  let doInsert := negb (includes argv (js "--no-insert")) in
  report webhook (js "Log transfer started.") ;;
  (* Backup access log in case something goes wrong. *)
  when doTruncate (call (CopyFile (path cfg) (backup cfg))) ;;
  (* Parse all entries. *)
  loaded <- loadEntries (path cfg) ;;
  let '(entries, failedEntries) := loaded in
  (* Truncate the file, so we fetch unparsed entries next time. *)
  when doTruncate (call (Truncate (path cfg))) ;;
  (* If any entries failed, report them. *)
  reportFailedEntries webhook failedEntries ;;
  (* Insert entries into the database. *)
  when doInsert (insertEntries (db cfg) entries) ;;
  (* Report success. *)
  report webhook (natToString (List.length entries)
                  ++ js " entries successfully transferred.").

(** [main], once the configuration is loaded: the [try] block, then either
    the [catch] block, which ends the process, or [webhook.destroy()]. *)
Definition main (argv : list jsstring) (cfg : config) : M unit :=
  let webhook := discord cfg in
  fun h =>
    match transfer argv cfg h with
    | (Ok _, h') => emit (WebhookDestroy webhook) h'
    | (Throw e, h') =>
        ((* Report error and exit. *)
         report webhook (js "Log transfer failed: " ++ e) ;;
         emit (ConsoleErrorFull e) ;;
         emit (ProcessExit 1)) h'
    end.

(** [main()] from its first statement. Two statements stand before the
    [try]: [await loadConfig()], from whose result the four properties are
    taken, and [new WebhookClient(discord)]. [loaded] is what they give: the
    configuration, or the error that one of them throws (a [config.json]
    that cannot be read or is not JSON, a webhook that cannot be built).
    That error is not caught, and [main()] is called without a [catch]: it
    is the rejection of [main()], and by then none of the calls recorded
    here has been made (console, webhook, log file, pool, [process.exit]). *)
Definition main_entry (loaded : result config) (argv : list jsstring)
    : M unit :=
  fun h =>
    match loaded with
    | Ok cfg => main argv cfg h
    | Throw e => (Throw e, h)
    end.

(** *** Notions used to state the properties *)

(** The lines that are not blank, in order. *)
Definition nonBlank (lines : list jsstring) : list jsstring :=
  filter (fun l => negb (forallb isWhiteSpace l)) lines.

(** What one line adds to the accepted entries and to the failed ones. *)
Definition acceptedOf (l : jsstring) : list jsobject :=
  match validate l with
  | Ok entry => [entry]
  | Throw _ => []
  end.

Definition rejectedOf (l : jsstring) : list failedEntry :=
  match validate l with
  | Ok _ => []
  | Throw e => [{| error := messageOf e; line := l |}]
  end.

Definition isRejected (l : jsstring) : bool :=
  match validate l with
  | Ok _ => false
  | Throw _ => true
  end.

(** [ceil(n / c)]. *)
Definition divUp (n c : nat) : nat := (n + c - 1) / c.

(** The consecutive chunks of [CHUNK_SIZE] entries, the last one shorter
    when the length is not a multiple of [CHUNK_SIZE]. *)
Definition chunksFrom (entries : list jsobject) (i k : nat)
    : list (list jsobject) :=
  map (fun j => slice (j * CHUNK_SIZE) (j * CHUNK_SIZE + CHUNK_SIZE) entries)
      (seq i k).

Definition chunks (entries : list jsobject) : list (list jsobject) :=
  chunksFrom entries 0 (divUp (List.length entries) CHUNK_SIZE).

(** The bulk insert of one chunk. *)
Definition queryOf (batch : list jsobject) : event :=
  PoolQuery QUERY (map rowOf batch).

(** The bulk inserts of the given chunks, one after the other, up to the
    first that fails. *)
Fixpoint issue (batches : list (list jsobject)) (h : list event)
    : result unit * list event :=
  match batches with
  | [] => (Ok tt, h)
  | b :: rest =>
      match fails h (queryOf b) with
      | None => issue rest (h ++ [queryOf b])
      | Some e => (Throw e, h ++ [queryOf b])
      end
  end.

(** The [n]-th bulk insert is accepted when it comes after the first [n]. *)
Definition accepted (h : list event) (batches : list (list jsobject))
    (n : nat) : Prop :=
  fails (h ++ map queryOf (firstn n batches)) (queryOf (nth n batches []))
  = None.

(** The calls that touch the log file or its backup. *)
Definition fileEvent (ev : event) : bool :=
  match ev with
  | CopyFile _ _ | OpenStream _ | EndOfStream _ | Truncate _ => true
  | _ => false
  end.

Definition quiet (calls : list event) : Prop :=
  Forall (fun ev => fileEvent ev = false) calls.

(** The calls of a run that touch the files, given the calls [h] made before
    the first of them: the backup when truncation is on, the stream, and the
    truncation when the backup was made and the stream reached its end. *)
Definition fileCalls (argv : list jsstring) (cfg : config) (h : list event)
    : list event :=
  if includes argv (js "--no-truncate") then
    OpenStream (path cfg)
    :: match snd (stream h (path cfg)) with
       | None => [EndOfStream (path cfg)]
       | Some _ => []
       end
  else
    CopyFile (path cfg) (backup cfg)
    :: match fails h (CopyFile (path cfg) (backup cfg)) with
       | Some _ => []
       | None =>
           OpenStream (path cfg)
           :: match snd (stream (h ++ [CopyFile (path cfg) (backup cfg)])
                                (path cfg)) with
              | None => [EndOfStream (path cfg); Truncate (path cfg)]
              | Some _ => []
              end
       end.

(** Whether a string starts with [x] and two hexadecimal digits, which after
    a backslash is what [fixEscaping] rewrites. *)
Definition startsEscape (s : jsstring) : bool :=
  match s with
  | x :: a :: b :: _ => (x =? 120)%N && isHexDigit a && isHexDigit b
  | _ => false
  end.

(** Whether a JSON value is a string, and the value a string field has in
    the record. *)
Definition isJStr (j : json) : bool :=
  match j with
  | JStr _ => true
  | _ => false
  end.

Definition fieldValue (j : json) : value :=
  match j with
  | JStr s => VStr s
  | _ => VUndefined
  end.

(** Whether a character is a decimal digit. *)
Definition isDigit (c : N) : bool := (48 <=? c)%N && (c <=? 57)%N.

(** The methods of the [method] column of the [logs] table. *)
Definition METHOD_ENUM : list jsstring :=
  [js "GET"; js "HEAD"; js "POST"; js "PUT"; js "DELETE"; js "CONNECT";
   js "OPTIONS"; js "TRACE"; js "PATCH"].

(** Whether an object has a field of the given name. *)
Definition hasField (fields : list (jsstring * json)) (key : jsstring)
    : bool :=
  existsb (fun kv => str_eqb (fst kv) key) fields.

(** The calls of [report], the calls to the pool, and the calls that end a
    run. *)
Definition reportEvent (ev : event) : bool :=
  match ev with
  | ConsoleInfo _ | WebhookSend _ _ | ConsoleErrorWebhook _ => true
  | _ => false
  end.

Definition poolEvent (ev : event) : bool :=
  match ev with
  | CreatePool _ | PoolQuery _ _ | PoolEnd => true
  | _ => false
  end.

Definition endingEvent (ev : event) : bool :=
  match ev with
  | WebhookDestroy _ | ProcessExit _ | ConsoleErrorFull _ => true
  | _ => false
  end.

Definition backupEvent (ev : event) : bool :=
  match ev with
  | CopyFile _ _ | Truncate _ => true
  | _ => false
  end.

(** An action that makes only calls of a given kind, whatever came before. *)
Definition only {A} (P : event -> bool) (m : M A) : Prop :=
  forall h, exists r calls, m h = (r, h ++ calls) /\ forallb P calls = true.

(** The calls of [reportFailedEntries] when the webhook accepts the
    message. *)
Definition failureReport (webhook : json) (failed : list failedEntry)
    : list event :=
  if (List.length failed =? 0)%nat then []
  else
    [ConsoleInfo (failureMessage failed);
     WebhookSend webhook (firstn 2000 (failureMessage failed))]
    ++ if (5 <? List.length failed)%nat then [ConsoleDebug failed] else [].

(** The calls of [report] when the webhook accepts the message. *)
Definition said (webhook : json) (message : jsstring) : list event :=
  [ConsoleInfo message; WebhookSend webhook (firstn 2000 message)].

(** The calls to the files of a run that gets past the truncation step. *)
Definition wholeFileCalls (argv : list jsstring) (cfg : config)
    : list event :=
  if includes argv (js "--no-truncate") then
    [OpenStream (path cfg); EndOfStream (path cfg)]
  else
    [CopyFile (path cfg) (backup cfg); OpenStream (path cfg);
     EndOfStream (path cfg); Truncate (path cfg)].

(** The calls to the files have all returned without an error: the backup
    and the truncation when truncation is on, and the stream, read to its
    end; [h] holds the calls made before the first of them. *)
Definition filesDone (argv : list jsstring) (cfg : config) (h : list event)
    : Prop :=
  if includes argv (js "--no-truncate") then
    snd (stream h (path cfg)) = None
  else
    fails h (CopyFile (path cfg) (backup cfg)) = None
    /\ snd (stream (h ++ [CopyFile (path cfg) (backup cfg)]) (path cfg))
       = None
    /\ fails (h ++ [CopyFile (path cfg) (backup cfg); OpenStream (path cfg);
                    EndOfStream (path cfg)])
             (Truncate (path cfg)) = None.

(** The checks that the chain makes on a record of strings, in the order in
    which it makes them: whether the check fails, and the message of its
    error. *)
Definition failures
    (host time method path query status responseSize processTime : jsstring)
    : list (bool * jsstring) :=
  [((isIP host =? 0)%N, js "Invalid IP address: " ++ host);
   (match Date_parse time with None => true | Some _ => false end,
    js "Invalid time: " ++ time);
   (negb (includes VALID_HTTP_METHODS (toUpperCase method)),
    js "Invalid HTTP method: " ++ toUpperCase method);
   (match decodeURI path with None => true | Some _ => false end,
    URIError_message);
   (match decodeURI query with None => true | Some _ => false end,
    URIError_message);
   (negb (existsb (fun k => sameValueZero (numOfZ k) (StringToNumber status))
                  VALID_HTTP_STATUSES),
    js "Invalid HTTP status: " ++ status);
   (isNaN (StringToNumber responseSize),
    js "Invalid response size: " ++ responseSize);
   (isNaN (StringToNumber processTime),
    js "Invalid response size: " ++ processTime)].

(* ===================================================================== *)
(** ** Properties                                                        *)
(* ===================================================================== *)

(** *** Strings and records *)

Lemma str_eqb_eq (a b : jsstring) : str_eqb a b = true <-> a = b.
Proof.
  revert b; induction a as [|x a IH]; intros [|y b]; simpl;
    try (split; [discriminate | congruence]); try tauto.
  rewrite andb_true_iff, N.eqb_eq, IH. split.
  - intros [-> ->]; reflexivity.
  - intros E; injection E; auto.
Qed.

Lemma str_eqb_refl (a : jsstring) : str_eqb a a = true.
Proof. apply str_eqb_eq; reflexivity. Qed.

Lemma str_eqb_neq (a b : jsstring) : str_eqb a b = false <-> a <> b.
Proof.
  rewrite <- str_eqb_eq. destruct (str_eqb a b); split; congruence.
Qed.

Lemma Get_set (key key' : jsstring) (v : value) (o : jsobject) :
  Get (set key v o) key' = if str_eqb key key' then v else Get o key'.
Proof.
  induction o as [|[k w] o IH]; simpl.
  - reflexivity.
  - destruct (str_eqb k key) eqn:E; simpl.
    + apply str_eqb_eq in E; subst k.
      destruct (str_eqb key key'); reflexivity.
    + destruct (str_eqb k key') eqn:E'; [|exact IH].
      apply str_eqb_eq in E'; subst k. apply str_eqb_neq in E.
      destruct (str_eqb key key') eqn:E2; [|reflexivity].
      apply str_eqb_eq in E2. congruence.
Qed.

(** Decide the comparisons of field names left in the goal. *)
Ltac names :=
  repeat match goal with
  | |- context [str_eqb (js ?a) (js ?b)] =>
      let r := eval vm_compute in (str_eqb (js a) (js b)) in
      change (str_eqb (js a) (js b)) with r
  end.

Ltac get_set := rewrite ?Get_set; names; cbv iota.

Lemma trimStart_blank (s : jsstring) :
  forallb isWhiteSpace s = true -> trimStart s = [].
Proof.
  induction s as [|c s IH]; simpl; [reflexivity|].
  rewrite andb_true_iff; intros [-> H]; auto.
Qed.

Lemma trimStart_nil_blank (s : jsstring) :
  trimStart s = [] -> forallb isWhiteSpace s = true.
Proof.
  induction s as [|c s IH]; simpl; [reflexivity|].
  destruct (isWhiteSpace c); [auto | discriminate].
Qed.

Lemma trimStart_head (s : jsstring) :
  match trimStart s with
  | c :: _ => isWhiteSpace c = false
  | [] => True
  end.
Proof.
  induction s as [|c s IH]; simpl; [exact I|].
  destruct (isWhiteSpace c) eqn:E; [exact IH | exact E].
Qed.

(** [trim] leaves nothing exactly of the strings made of white space. *)
Lemma trim_nil_iff (s : jsstring) :
  trim s = [] <-> forallb isWhiteSpace s = true.
Proof.
  unfold trim, trimEnd. split.
  - intros H. apply trimStart_nil_blank.
    pose proof (trimStart_head s) as Hh.
    destruct (trimStart s) as [|c t] eqn:E; [reflexivity|].
    apply (f_equal (@List.rev N)) in H. rewrite rev_involutive in H.
    simpl in H. apply trimStart_nil_blank in H.
    rewrite forallb_app in H. simpl in H.
    rewrite Hh in H. rewrite andb_false_r in H. discriminate.
  - intros H. rewrite (trimStart_blank _ H). reflexivity.
Qed.

Lemma andThen_Ok {A B} (p : result A) (f : A -> result B) (b : B) :
  p .then f = Ok b -> exists a, p = Ok a /\ f a = Ok b.
Proof. destruct p as [a|m]; simpl; [eauto | discriminate]. Qed.

(** What [checkFieldsAreStrings] lets through holds strings only. *)
Lemma fieldsAreStrings_Get (entries : list (jsstring * json)) (o : jsobject)
    (key : jsstring) :
  fieldsAreStrings entries = Ok o ->
  Get o key = VUndefined \/ exists s, Get o key = VStr s.
Proof.
  revert o; induction entries as [|[k j] entries IH]; simpl; intros o H.
  - injection H as <-. left; reflexivity.
  - destruct j; try discriminate.
    destruct (fieldsAreStrings entries) as [o'|] eqn:E; [|discriminate].
    injection H as <-. simpl.
    destruct (str_eqb k key); [right; eauto | apply IH; reflexivity].
Qed.

(** *** The numeric checks *)

(** C10. A [responseSize] or [processTime] that is empty or made of white
    space only is not rejected: [Number] maps it to [+0], and the check
    stores the number 0 in the field. *)
Theorem blank_numeric_field_is_zero (object : jsobject) (s : jsstring) :
  forallb isWhiteSpace s = true ->
  StringToNumber s = Fin false 0 0
  /\ (Get object (js "responseSize") = VStr s ->
      checkResponseSize object
      = Ok (set (js "responseSize") (VNum (Fin false 0 0)) object))
  /\ (Get object (js "processTime") = VStr s ->
      checkProcessTime object
      = Ok (set (js "processTime") (VNum (Fin false 0 0)) object)).
Proof.
  intros Hs.
  assert (Hn : StringToNumber s = Fin false 0 0).
  { unfold StringToNumber. apply trim_nil_iff in Hs. rewrite Hs. reflexivity. }
  split; [exact Hn|]. split; intros Hg.
  - unfold checkResponseSize. rewrite Hg. simpl. rewrite Hn. reflexivity.
  - unfold checkProcessTime. rewrite Hg. simpl. rewrite Hn. reflexivity.
Qed.

(** C4. When [processTime] is a string that [Number] turns into NaN, the
    error thrown by [checkProcessTime] reads [Invalid response size: ...]:
    it carries the value, under the name of the response-size field, and is
    word for word the error of [checkResponseSize] on the same value. *)
Theorem checkProcessTime_message (object : jsobject) (s : jsstring) :
  Get object (js "processTime") = VStr s ->
  isNaN (StringToNumber s) = true ->
  checkProcessTime object = Throw (js "Invalid response size: " ++ s)
  /\ checkResponseSize (set (js "responseSize") (VStr s) object)
     = Throw (js "Invalid response size: " ++ s).
Proof.
  intros Hg Hn. split.
  - unfold checkProcessTime. rewrite Hg. simpl. rewrite Hn. reflexivity.
  - unfold checkResponseSize. get_set. simpl. rewrite Hn. reflexivity.
Qed.

(** *** The method check *)

(** C9, as the code has it. The method is compared in upper case. A record
    whose method, in upper case, is in [VALID_HTTP_METHODS] (the nine
    methods and [-]) passes the check, and the stored method is the
    upper-case form, except that [-] is stored as [null]; a record with a
    string method is rejected exactly when its upper-case form is outside
    the list; [get] becomes [GET]. *)
Theorem checkValidMethod_upper_case (object : jsobject) (m : jsstring) :
  Get object (js "method") = VStr m ->
  (includes VALID_HTTP_METHODS (toUpperCase m) = true ->
   checkValidMethod object
   = Ok (set (js "method")
             (if str_eqb (toUpperCase m) (js "-") then VNull
              else VStr (toUpperCase m))
             object))
  /\ (includes VALID_HTTP_METHODS (toUpperCase m) = false ->
      checkValidMethod object
      = Throw (js "Invalid HTTP method: " ++ toUpperCase m))
  /\ ((exists e, checkValidMethod object = Throw e)
      <-> includes VALID_HTTP_METHODS (toUpperCase m) = false)
  /\ toUpperCase (js "get") = js "GET".
Proof.
  intros Hg. unfold checkValidMethod. rewrite Hg.
  destruct (includes VALID_HTTP_METHODS (toUpperCase m)) eqn:E; simpl.
  - repeat split; try discriminate; try reflexivity.
    intros [e He]; discriminate.
  - repeat split; try discriminate; try reflexivity. eauto.
Qed.

(** *** The user agent *)

(** C8. For a user agent that is a string other than the empty string and
    [-]: [bot] is what isbot says; when it says yes, [deviceType] is
    [unknown] whatever device the parser reports; when it says no,
    [deviceType] is the device type the parser reports, or [other] when it
    reports none. *)
Theorem decomposeUserAgent_deviceType (object : jsobject) (s : jsstring) :
  Get object (js "userAgent") = VStr s ->
  s <> [] -> s <> js "-" ->
  exists entry,
    decomposeUserAgent object = Ok entry
    /\ Get entry (js "bot") = VBool (isbot s)
    /\ (isbot s = true -> Get entry (js "deviceType") = VStr (js "unknown"))
    /\ (isbot s = false ->
        Get entry (js "deviceType")
        = match device_type (UAParser s) with
          | Some (c :: t) => VStr (c :: t)
          | _ => VStr (js "other")
          end).
Proof.
  intros Hg Hne Hdash. unfold decomposeUserAgent. rewrite Hg. simpl.
  apply str_eqb_neq in Hdash. rewrite Hdash.
  apply str_eqb_neq in Hne. rewrite Hne. simpl.
  eexists. split; [reflexivity|]. get_set.
  split; [reflexivity|]. split; intros Hb; rewrite Hb; [reflexivity|].
  unfold orElse. destruct (device_type (UAParser s)) as [[|c t]|]; reflexivity.
Qed.

(** *** Sentinels *)

(** Take apart [H : stage o = Ok o'] after the stage is unfolded. *)
Ltac invert_stage H :=
  repeat match type of H with
  | match ?x with _ => _ end = Ok _ => destruct x eqn:?; try discriminate
  end;
  try (injection H as <-).

Ltac names_in H :=
  repeat match type of H with
  | context [str_eqb (js ?a) (js ?b)] =>
      let r := eval vm_compute in (str_eqb (js a) (js b)) in
      change (str_eqb (js a) (js b)) with r in H
  end.

Ltac get_set_in H := rewrite ?Get_set in H; names_in H; cbv iota in H.

(** C7, as the code has it. A record that reaches one of these checks with
    the sentinel leaves it with [null] in the field: method [-], user [-],
    path [-], country [-], and the empty query; [decomposeUserAgent] does
    the same for a user agent of [-] or the empty string. For a line whose
    record holds strings only and which passes the whole chain, these six
    fields are [null] in the entry, and host, time, status, responseSize,
    processTime and referer are never [null]. *)
Theorem sentinels_become_null :
  (forall object,
     Get object (js "method") = VStr (js "-") ->
     checkValidMethod object = Ok (set (js "method") VNull object))
  /\ (forall object,
        Get object (js "user") = VStr (js "-") ->
        trimUser object = Ok (set (js "user") VNull object))
  /\ (forall object entry,
        Get object (js "path") = VStr (js "-") ->
        checkPathQuery object = Ok entry -> Get entry (js "path") = VNull)
  /\ (forall object,
        Get object (js "country") = VStr (js "-") ->
        checkCountry object = Ok (set (js "country") VNull object))
  /\ (forall object entry,
        Get object (js "query") = VStr [] ->
        checkPathQuery object = Ok entry -> Get entry (js "query") = VNull)
  /\ (forall object,
        Get object (js "userAgent") = VStr (js "-")
        \/ Get object (js "userAgent") = VStr [] ->
        exists entry,
          decomposeUserAgent object = Ok entry
          /\ Get entry (js "userAgent") = VNull)
  /\ (forall line raw entry,
        (fixEscaping line) .then gracefulParse .then checkFieldsAreStrings
        = Ok raw ->
        validate line = Ok entry ->
        (Get raw (js "method") = VStr (js "-") ->
         Get entry (js "method") = VNull)
        /\ (Get raw (js "user") = VStr (js "-") ->
            Get entry (js "user") = VNull)
        /\ (Get raw (js "path") = VStr (js "-") ->
            Get entry (js "path") = VNull)
        /\ (Get raw (js "country") = VStr (js "-") ->
            Get entry (js "country") = VNull)
        /\ (Get raw (js "query") = VStr [] -> Get entry (js "query") = VNull)
        /\ (Get raw (js "userAgent") = VStr (js "-")
            \/ Get raw (js "userAgent") = VStr [] ->
            Get entry (js "userAgent") = VNull)
        /\ (forall key,
              In key [js "host"; js "time"; js "status"; js "responseSize";
                      js "processTime"; js "referer"] ->
              Get entry key <> VNull)).
Proof.
  split.
  { intros object Hg. unfold checkValidMethod. rewrite Hg. reflexivity. }
  split.
  { intros object Hg. unfold trimUser. rewrite Hg. reflexivity. }
  split.
  { intros object entry Hg H.
    unfold checkPathQuery, decodeAndTrim, andThen in H. rewrite Hg in H.
    change (decodeURI (ToString (VStr (js "-")))) with (Some (js "-")) in H.
    cbv iota in H. invert_stage H. get_set. reflexivity. }
  split.
  { intros object Hg. unfold checkCountry. rewrite Hg. reflexivity. }
  split.
  { intros object entry Hg H.
    unfold checkPathQuery, decodeAndTrim, andThen in H. rewrite Hg in H.
    change (decodeURI (ToString (VStr []))) with (Some (@nil N)) in H.
    invert_stage H. get_set. reflexivity. }
  split.
  { intros object [Hg|Hg]; unfold decomposeUserAgent; rewrite Hg;
      (eexists; split; [reflexivity|]); get_set; reflexivity. }
  intros line raw entry Hraw H. unfold validate in H. rewrite Hraw in H.
  assert (Hstr : forall key,
             Get raw key = VUndefined \/ exists s, Get raw key = VStr s).
  { intros key. apply andThen_Ok in Hraw as (j & _ & Hj).
    unfold checkFieldsAreStrings in Hj.
    apply andThen_Ok in Hj as (es & _ & Hes).
    eapply fieldsAreStrings_Get; eassumption. }
  apply andThen_Ok in H as (o12 & H & H13).
  apply andThen_Ok in H as (o11 & H & H12).
  apply andThen_Ok in H as (o10 & H & H11).
  apply andThen_Ok in H as (o9 & H & H10).
  apply andThen_Ok in H as (o8 & H & H9).
  apply andThen_Ok in H as (o7 & H & H8).
  apply andThen_Ok in H as (o6 & H & H7).
  apply andThen_Ok in H as (o5 & H & H6).
  apply andThen_Ok in H as (o4 & H & H5).
  apply andThen_Ok in H as (o3 & H & H4).
  simpl in H.
  unfold checkValidIP in H; invert_stage H.
  unfold checkValidTime in H4; invert_stage H4.
  unfold checkValidMethod in H5; invert_stage H5.
  unfold checkPathQuery, decodeAndTrim, andThen in H6; invert_stage H6.
  unfold checkStatus in H7; invert_stage H7.
  unfold checkResponseSize in H8; invert_stage H8.
  unfold checkProcessTime in H9; invert_stage H9.
  unfold trimReferer in H10; invert_stage H10.
  unfold trimUser in H11; invert_stage H11.
  unfold checkCountry in H12; invert_stage H12.
  unfold decomposeUserAgent in H13; invert_stage H13.
  all: repeat match goal with
       | E : Get _ _ = _ |- _ => progress get_set_in E
       | E : context [Get _ _] |- _ => progress get_set_in E
       end.
  all: get_set.
  all: split;
    [intros Hm; rewrite Hm in Heqv; injection Heqv as <-; reflexivity|].
  all: split;
    [intros Hu; rewrite Hu in Heqv1; injection Heqv1 as <-; reflexivity|].
  all: split;
    [intros Hp; rewrite Hp in Heqr; vm_compute in Heqr;
     injection Heqr as <-; reflexivity|].
  all: split;
    [intros Hc; rewrite Hc in Heqv2; injection Heqv2 as <-; reflexivity|].
  all: split;
    [intros Hq; rewrite Hq in Heqr0; vm_compute in Heqr0;
     injection Heqr0 as <-; reflexivity|].
  all: split;
    [intros [Hu|Hu]; try reflexivity;
     match goal with
     | E : Get _ (js "userAgent") = VStr ?x |- _ =>
         is_var x; rewrite Hu in E; injection E as <-
     end; discriminate|].
  all: intros key Hin;
    destruct Hin as [<-|[<-|[<-|[<-|[<-|[<-|[]]]]]]]; get_set;
    try discriminate.
  all: destruct (Hstr (js "host")) as [E|[x E]]; rewrite E; discriminate.
Qed.

(** *** Loading the entries *)

Lemma blank_trim (l : jsstring) :
  str_eqb (trim l) [] = forallb isWhiteSpace l.
Proof.
  destruct (forallb isWhiteSpace l) eqn:E.
  - apply str_eqb_eq, trim_nil_iff, E.
  - apply str_eqb_neq. intros H. apply trim_nil_iff in H. congruence.
Qed.

Lemma loadLoop_from (lines : list jsstring) (successful : list jsobject)
    (failed : list failedEntry) :
  fold_left loadStep lines (successful, failed)
  = (successful ++ flat_map acceptedOf (nonBlank lines),
     failed ++ flat_map rejectedOf (nonBlank lines)).
Proof.
  revert successful failed.
  induction lines as [|l lines IH]; intros successful failed; simpl.
  - rewrite !app_nil_r. reflexivity.
  - rewrite blank_trim. unfold acceptedOf at 1, rejectedOf at 1.
    destruct (forallb isWhiteSpace l); simpl; [apply IH|].
    destruct (validate l) as [entry|e]; rewrite IH; simpl;
      rewrite <- ?app_assoc; reflexivity.
Qed.

Lemma one_per_line (l : jsstring) :
  List.length (acceptedOf l) + List.length (rejectedOf l) = 1.
Proof.
  unfold acceptedOf, rejectedOf. destruct (validate l); reflexivity.
Qed.

(** C1. The two arrays of the loader are made line by line from the lines
    that are not blank, in their order: each such line adds one entry to
    exactly one of the arrays, a failed entry keeps its line, blank lines
    add nothing, and the two lengths add up to the number of lines that are
    not blank. This is what [loadEntries] returns when the stream ends. *)
Theorem loadEntries_partition (lines : list jsstring) :
  loadLoop lines
  = (flat_map acceptedOf (nonBlank lines),
     flat_map rejectedOf (nonBlank lines))
  /\ (forall l, List.length (acceptedOf l) + List.length (rejectedOf l) = 1)
  /\ map line (snd (loadLoop lines)) = filter isRejected (nonBlank lines)
  /\ List.length (fst (loadLoop lines)) + List.length (snd (loadLoop lines))
     = List.length (nonBlank lines)
  /\ (forall h file,
        stream h file = (lines, None) ->
        fst (loadEntries file h) = Ok (loadLoop lines)).
Proof.
  assert (E : loadLoop lines
              = (flat_map acceptedOf (nonBlank lines),
                 flat_map rejectedOf (nonBlank lines)))
    by (unfold loadLoop; rewrite loadLoop_from; reflexivity).
  rewrite E. simpl. repeat split.
  - exact one_per_line.
  - clear E. induction (nonBlank lines) as [|l ls IH]; simpl; [reflexivity|].
    rewrite map_app, IH. unfold rejectedOf, isRejected.
    destruct (validate l); simpl; reflexivity.
  - clear E. induction (nonBlank lines) as [|l ls IH]; simpl; [reflexivity|].
    rewrite !length_app. pose proof (one_per_line l). lia.
  - intros h file Hs. unfold loadEntries. rewrite Hs. simpl.
    rewrite E. reflexivity.
Qed.

(** *** Inserting in chunks *)

Lemma CHUNK_SIZE_pos : 0 < CHUNK_SIZE.
Proof. apply Nat.ltb_lt. vm_compute. reflexivity. Qed.

Lemma divUp_gt (n c i : nat) : 0 < c -> (i * c < n <-> i < divUp n c).
Proof.
  intros Hc. unfold divUp. split; intros H.
  - apply Nat.div_le_lower_bound; [lia|]. nia.
  - assert (Hd : (n + c - 1) / c * c <= n + c - 1).
    { rewrite Nat.mul_comm. apply Nat.Div0.mul_div_le. }
    nia.
Qed.

Lemma firstn_slice {A} (a b : nat) (l : list A) :
  firstn a l ++ slice a (a + b) l = firstn (a + b) l.
Proof.
  unfold slice. replace (a + b - a) with b by lia.
  revert l; induction a as [|a IH]; intros l; simpl.
  - reflexivity.
  - destruct l as [|x l]; simpl.
    + rewrite firstn_nil. reflexivity.
    + rewrite IH. reflexivity.
Qed.

Lemma insertLoop_eq (entries : list jsobject) (start : nat) (h : list event) :
  insertLoop entries start h
  = if lt_dec start (List.length entries) then
      (call (queryOf (slice start (start + CHUNK_SIZE) entries)) ;;
       insertLoop entries (start + CHUNK_SIZE)) h
    else (Ok tt, h).
Proof.
  rewrite insertLoop_equation_1.
  destruct (lt_dec start (List.length entries)); reflexivity.
Qed.

(** The loop is the sequence of the bulk inserts of the chunks. *)
Lemma insertLoop_issue (entries : list jsobject) (k i : nat) :
  k = divUp (List.length entries) CHUNK_SIZE - i ->
  forall h,
    insertLoop entries (i * CHUNK_SIZE) h = issue (chunksFrom entries i k) h.
Proof.
  pose proof CHUNK_SIZE_pos as Hc.
  revert i; induction k as [|k IH]; intros i Hk h; rewrite insertLoop_eq.
  - destruct (lt_dec _ _) as [Hlt|]; [|reflexivity].
    apply divUp_gt in Hlt; [lia | exact Hc].
  - destruct (lt_dec _ _) as [|Hge].
    + unfold bind, call. cbn [chunksFrom seq map issue].
      fold (chunksFrom entries (S i) k).
      destruct (fails h _); [reflexivity|].
      replace (i * CHUNK_SIZE + CHUNK_SIZE) with (S i * CHUNK_SIZE) by lia.
      apply IH. lia.
    + exfalso. apply Hge. apply divUp_gt; [exact Hc | lia].
Qed.

Lemma chunks_length (entries : list jsobject) :
  List.length (chunks entries) = divUp (List.length entries) CHUNK_SIZE.
Proof. unfold chunks, chunksFrom. rewrite length_map, length_seq. reflexivity. Qed.

Lemma chunks_bounded (entries : list jsobject) :
  Forall (fun b => List.length b <= CHUNK_SIZE) (chunks entries).
Proof.
  unfold chunks, chunksFrom. apply Forall_map, Forall_forall. intros j _.
  unfold slice. rewrite length_firstn. lia.
Qed.

Lemma chunksFrom_concat (entries : list jsobject) (k : nat) :
  List.concat (chunksFrom entries 0 k) = firstn (k * CHUNK_SIZE) entries.
Proof.
  unfold chunksFrom. induction k as [|k IH].
  - reflexivity.
  - rewrite seq_S, map_app, concat_app, IH. cbn [map List.concat plus].
    rewrite app_nil_r, firstn_slice. f_equal. lia.
Qed.

Lemma chunks_concat (entries : list jsobject) :
  List.concat (chunks entries) = entries.
Proof.
  unfold chunks. rewrite chunksFrom_concat. apply firstn_all2.
  pose proof (divUp_gt (List.length entries) CHUNK_SIZE
                (divUp (List.length entries) CHUNK_SIZE) CHUNK_SIZE_pos).
  lia.
Qed.

Lemma issue_ok (batches : list (list jsobject)) (h : list event) :
  (forall n, n < List.length batches -> accepted h batches n) ->
  issue batches h = (Ok tt, h ++ map queryOf batches).
Proof.
  revert h; induction batches as [|b rest IH]; intros h Hok; simpl.
  - rewrite app_nil_r. reflexivity.
  - pose proof (Hok 0 ltac:(simpl; lia)) as H0. unfold accepted in H0.
    simpl in H0. rewrite app_nil_r in H0. rewrite H0.
    rewrite IH.
    + rewrite <- app_assoc. reflexivity.
    + intros n Hn. pose proof (Hok (S n) ltac:(simpl; lia)) as Hs.
      unfold accepted in *. simpl in Hs. rewrite <- app_assoc. exact Hs.
Qed.

Lemma issue_fail (batches : list (list jsobject)) (h : list event)
    (n : nat) (e : jsstring) :
  n < List.length batches ->
  (forall i, i < n -> accepted h batches i) ->
  fails (h ++ map queryOf (firstn n batches)) (queryOf (nth n batches []))
  = Some e ->
  issue batches h = (Throw e, h ++ map queryOf (firstn (S n) batches)).
Proof.
  revert h n; induction batches as [|b rest IH]; intros h n Hn Hok He.
  - simpl in Hn. lia.
  - destruct n as [|n].
    + simpl in He |- *. rewrite app_nil_r in He. rewrite He. reflexivity.
    + pose proof (Hok 0 ltac:(lia)) as H0. unfold accepted in H0.
      simpl in H0. rewrite app_nil_r in H0.
      cbn [issue]. rewrite H0.
      rewrite (IH (h ++ [queryOf b]) n).
      * cbn [firstn map]. rewrite <- app_assoc. reflexivity.
      * simpl in Hn. lia.
      * intros i Hi. pose proof (Hok (S i) ltac:(lia)) as Hs.
        unfold accepted in *. simpl in Hs. rewrite <- app_assoc. exact Hs.
      * simpl in He. rewrite <- app_assoc. exact He.
Qed.

Lemma insertEntries_issue (db : json) (entries : list jsobject)
    (h : list event) :
  insertEntries db entries h
  = match issue (chunks entries) (h ++ [CreatePool db]) with
    | (Ok _, h') => call PoolEnd h'
    | (Throw e, h') => (Throw e, h')
    end.
Proof.
  pose proof (insertLoop_issue entries
                (divUp (List.length entries) CHUNK_SIZE) 0 ltac:(lia)
                (h ++ [CreatePool db])) as E.
  change (0 * CHUNK_SIZE) with 0 in E.
  unfold insertEntries, bind, emit, chunks. rewrite <- E.
  destruct (insertLoop entries 0 (h ++ [CreatePool db])) as [[[]|e] h'];
    reflexivity.
Qed.

Lemma insertEntries_ok (db : json) (entries : list jsobject)
    (h : list event) :
  (forall n, n < List.length (chunks entries) ->
             accepted (h ++ [CreatePool db]) (chunks entries) n) ->
  insertEntries db entries h
  = call PoolEnd ((h ++ [CreatePool db]) ++ map queryOf (chunks entries)).
Proof.
  intros Hok. rewrite insertEntries_issue, issue_ok by exact Hok. reflexivity.
Qed.

Lemma insertEntries_fail (db : json) (entries : list jsobject)
    (h : list event) (n : nat) (e : jsstring) :
  n < List.length (chunks entries) ->
  (forall i, i < n -> accepted (h ++ [CreatePool db]) (chunks entries) i) ->
  fails ((h ++ [CreatePool db]) ++ map queryOf (firstn n (chunks entries)))
        (queryOf (nth n (chunks entries) []))
  = Some e ->
  insertEntries db entries h
  = (Throw e,
     (h ++ [CreatePool db]) ++ map queryOf (firstn (S n) (chunks entries))).
Proof.
  intros Hn Hok He.
  rewrite insertEntries_issue, (issue_fail _ _ n e) by assumption.
  reflexivity.
Qed.

(** C5. The entries are cut into [ceil(N / 20000)] consecutive chunks of at
    most 20000 entries which, put end to end, are the entries in their
    order. When no bulk insert fails, [insertEntries] issues one bulk insert
    per chunk, in order, and nothing else between creating and closing the
    pool. When the insert of a chunk fails, the inserts up to that one are
    the only ones issued and the error is thrown to the caller. *)
Theorem insertEntries_chunks (db : json) (entries : list jsobject)
    (h : list event) :
  let batches := chunks entries in
  let started := h ++ [CreatePool db] in
  List.length batches = (List.length entries + CHUNK_SIZE - 1) / CHUNK_SIZE
  /\ (forall k, List.length batches <= k
                <-> List.length entries <= k * CHUNK_SIZE)
  /\ Forall (fun b => List.length b <= CHUNK_SIZE) batches
  /\ List.concat batches = entries
  /\ ((forall n, n < List.length batches -> accepted started batches n) ->
      snd (insertEntries db entries h)
      = started ++ map queryOf batches ++ [PoolEnd])
  /\ (forall n e,
        n < List.length batches ->
        (forall i, i < n -> accepted started batches i) ->
        fails (started ++ map queryOf (firstn n batches))
              (queryOf (nth n batches [])) = Some e ->
        insertEntries db entries h
        = (Throw e, started ++ map queryOf (firstn (S n) batches))).
Proof.
  intros batches started. subst batches started.
  split; [apply chunks_length|].
  split.
  { intros k. rewrite chunks_length.
    pose proof (divUp_gt (List.length entries) CHUNK_SIZE k CHUNK_SIZE_pos).
    lia. }
  split; [apply chunks_bounded|].
  split; [apply chunks_concat|].
  split.
  - intros Hok. rewrite insertEntries_ok by exact Hok. unfold call.
    destruct (fails _ PoolEnd); simpl; rewrite <- app_assoc; reflexivity.
  - intros n e Hn Hok He. apply insertEntries_fail; assumption.
Qed.

(** C2, as the code has it. When no bulk insert fails, the pool created at
    the start is closed after the last insert, as the last call of
    [insertEntries]. When the insert of a chunk fails, the error is thrown
    to the caller and the pool is not closed. *)
Theorem insertEntries_pool_end (db : json) (entries : list jsobject)
    (h : list event) :
  let batches := chunks entries in
  let started := h ++ [CreatePool db] in
  ((forall n, n < List.length batches -> accepted started batches n) ->
   exists r,
     insertEntries db entries h
     = (r, (started ++ map queryOf batches) ++ [PoolEnd]))
  /\ (forall n e,
        n < List.length batches ->
        (forall i, i < n -> accepted started batches i) ->
        fails (started ++ map queryOf (firstn n batches))
              (queryOf (nth n batches [])) = Some e ->
        exists calls,
          insertEntries db entries h = (Throw e, started ++ calls)
          /\ ~ In PoolEnd calls).
Proof.
  intros batches started. subst batches started. split.
  - intros Hok. rewrite insertEntries_ok by exact Hok. unfold call.
    destruct (fails _ PoolEnd); eauto.
  - intros n e Hn Hok He.
    exists (map queryOf (firstn (S n) (chunks entries))). split.
    + apply insertEntries_fail; assumption.
    + rewrite in_map_iff. intros [b [Hb _]]. discriminate.
Qed.

(** *** Reporting the failed entries *)



(** *** The order of the steps of a run *)

Lemma bind_Ok {A B} (m : M A) (f : A -> M B) (h h' : list event) (a : A) :
  m h = (Ok a, h') -> bind m f h = f a h'.
Proof. intros E. unfold bind. rewrite E. reflexivity. Qed.

Lemma bind_Throw {A B} (m : M A) (f : A -> M B) (h h' : list event)
    (e : jsstring) :
  m h = (Throw e, h') -> bind m f h = (Throw e, h').
Proof. intros E. unfold bind. rewrite E. reflexivity. Qed.

Lemma quiet_app (a b : list event) : quiet a -> quiet b -> quiet (a ++ b).
Proof. intros Ha Hb. apply Forall_app; split; assumption. Qed.

(** [report] makes no call to the files and never throws. *)
Lemma report_quiet (webhook : json) (message : jsstring) (h : list event) :
  exists calls, report webhook message h = (Ok tt, h ++ calls) /\ quiet calls.
Proof.
  unfold report, bind, emit, tryCatch, call.
  destruct (fails _ _).
  - eexists. rewrite <- !app_assoc. split; [reflexivity|].
    repeat constructor.
  - eexists. rewrite <- !app_assoc. split; [reflexivity|].
    repeat constructor.
Qed.

Lemma reportFailedEntries_quiet (webhook : json)
    (entries : list failedEntry) (h : list event) :
  exists calls,
    reportFailedEntries webhook entries h = (Ok tt, h ++ calls)
    /\ quiet calls.
Proof.
  unfold reportFailedEntries.
  destruct (List.length entries =? 0)%nat.
  - exists []. rewrite app_nil_r. split; [reflexivity | constructor].
  - destruct (report_quiet webhook (failureMessage entries) h)
      as (calls & E & Q).
    rewrite (bind_Ok _ _ _ _ _ E). unfold when, ret, emit.
    destruct (5 <? _)%nat.
    + eexists. rewrite <- app_assoc. split; [reflexivity|].
      apply quiet_app; [exact Q | repeat constructor].
    + eauto.
Qed.

Lemma issue_quiet (batches : list (list jsobject)) (h : list event) :
  exists r calls, issue batches h = (r, h ++ calls) /\ quiet calls.
Proof.
  revert h; induction batches as [|b rest IH]; intros h; simpl.
  - exists (Ok tt), []. rewrite app_nil_r. split; [reflexivity|constructor].
  - destruct (fails h (queryOf b)).
    + do 2 eexists. split; [reflexivity | repeat constructor].
    + destruct (IH (h ++ [queryOf b])) as (r & calls & E & Q).
      rewrite E. do 2 eexists. rewrite <- app_assoc.
      split; [reflexivity|]. apply quiet_app; [repeat constructor | exact Q].
Qed.

Lemma insertEntries_quiet (db : json) (entries : list jsobject)
    (h : list event) :
  exists r calls, insertEntries db entries h = (r, h ++ calls) /\ quiet calls.
Proof.
  rewrite insertEntries_issue.
  destruct (issue_quiet (chunks entries) (h ++ [CreatePool db]))
    as (r & calls & E & Q).
  rewrite E, <- app_assoc. destruct r as [[]|e].
  - unfold call. destruct (fails _ PoolEnd);
      do 2 eexists; rewrite <- app_assoc;
      (split; [reflexivity|]);
      apply quiet_app; try apply quiet_app; try exact Q; repeat constructor.
  - do 2 eexists. split; [reflexivity|].
    apply quiet_app; [repeat constructor | exact Q].
Qed.

(** The steps after the truncation make no call to the files. *)
Lemma after_files_quiet (webhook : json) (failedEntries : list failedEntry)
    (doInsert : bool) (db : json) (entries : list jsobject)
    (message : jsstring) (h : list event) :
  exists r calls,
    (reportFailedEntries webhook failedEntries ;;
     when doInsert (insertEntries db entries) ;;
     report webhook message) h = (r, h ++ calls)
    /\ quiet calls.
Proof.
  destruct (reportFailedEntries_quiet webhook failedEntries h)
    as (c1 & E1 & Q1).
  rewrite (bind_Ok _ _ _ _ _ E1).
  assert (H2 : exists r c2,
             when doInsert (insertEntries db entries) (h ++ c1)
             = (r, (h ++ c1) ++ c2) /\ quiet c2).
  { destruct doInsert; simpl.
    - apply insertEntries_quiet.
    - exists (Ok tt), []. rewrite app_nil_r. split; [reflexivity|constructor]. }
  destruct H2 as ([[]|e] & c2 & E2 & Q2).
  - rewrite (bind_Ok _ _ _ _ _ E2).
    destruct (report_quiet webhook message ((h ++ c1) ++ c2))
      as (c3 & E3 & Q3).
    rewrite E3. exists (Ok tt), (c1 ++ c2 ++ c3).
    rewrite !app_assoc. split; [reflexivity|].
    repeat apply quiet_app; assumption.
  - rewrite (bind_Throw _ _ _ _ _ E2). exists (Throw e), (c1 ++ c2).
    rewrite !app_assoc. split; [reflexivity|].
    apply quiet_app; assumption.
Qed.

(** The [catch] block makes no call to the files. *)
Lemma catch_quiet (webhook : json) (e : jsstring) (h : list event) :
  exists calls,
    (report webhook (js "Log transfer failed: " ++ e) ;;
     emit (ConsoleErrorFull e) ;;
     emit (ProcessExit 1)) h = (Ok tt, h ++ calls)
    /\ quiet calls.
Proof.
  destruct (report_quiet webhook (js "Log transfer failed: " ++ e) h)
    as (c & E & Q).
  rewrite (bind_Ok _ _ _ _ _ E). unfold bind, emit.
  exists (c ++ [ConsoleErrorFull e; ProcessExit 1]).
  rewrite <- !app_assoc. split; [reflexivity|].
  apply quiet_app; [exact Q | repeat constructor].
Qed.

Lemma transfer_shape (argv : list jsstring) (cfg : config) (h : list event) :
  exists r before after,
    quiet before /\ quiet after
    /\ transfer argv cfg h
       = (r, (h ++ before) ++ fileCalls argv cfg (h ++ before) ++ after).
Proof.
  unfold transfer.
  destruct (report_quiet (discord cfg) (js "Log transfer started.") h)
    as (A & EA & QA).
  rewrite (bind_Ok _ _ _ _ _ EA).
  unfold fileCalls.
  destruct (includes argv (js "--no-truncate")); cbn [negb when].
  - (* no truncation *)
    unfold bind at 1, ret at 1. unfold bind at 1, loadEntries.
    destruct (stream (h ++ A) (path cfg)) as [lines [e|]] eqn:Es.
    + exists (Throw e), A, []. rewrite Es, app_nil_r.
      split; [exact QA|]. split; [constructor|]. reflexivity.
    + destruct (loadLoop lines) as [entries failedEntries].
      unfold bind at 1, ret at 1.
      match goal with
      | |- context [bind (reportFailedEntries ?w ?f) _ ?h0] =>
          destruct (after_files_quiet w f
                      (negb (includes argv (js "--no-insert"))) (db cfg)
                      entries
                      (natToString (List.length entries)
                       ++ js " entries successfully transferred.") h0)
            as (r & calls & E & Q)
      end.
      exists r, A, calls. rewrite E, Es. simpl. rewrite <- !app_assoc.
      split; [exact QA|]. split; [exact Q|]. reflexivity.
  - (* truncation *)
    unfold bind at 1, call at 1.
    destruct (fails (h ++ A) (CopyFile (path cfg) (backup cfg))) as [e|]
      eqn:Ec.
    + exists (Throw e), A, []. rewrite Ec, app_nil_r.
      split; [exact QA|]. split; [constructor|]. reflexivity.
    + unfold bind at 1, loadEntries.
      destruct (stream ((h ++ A) ++ [CopyFile (path cfg) (backup cfg)])
                       (path cfg)) as [lines [e|]] eqn:Es.
      * exists (Throw e), A, []. rewrite Ec, Es, app_nil_r. simpl.
        split; [exact QA|]. split; [constructor|].
        rewrite <- !app_assoc. reflexivity.
      * destruct (loadLoop lines) as [entries failedEntries].
        unfold bind at 1, call at 1.
        destruct (fails _ (Truncate (path cfg))) as [e|].
        -- exists (Throw e), A, []. rewrite Ec, Es, app_nil_r. simpl.
           split; [exact QA|]. split; [constructor|].
           rewrite <- !app_assoc. reflexivity.
        -- match goal with
           | |- context [bind (reportFailedEntries ?w ?f) _ ?h0] =>
               destruct (after_files_quiet w f
                           (negb (includes argv (js "--no-insert")))
                           (db cfg) entries
                           (natToString (List.length entries)
                            ++ js " entries successfully transferred.") h0)
                 as (r & calls & E & Q)
           end.
           exists r, A, calls. rewrite E, Ec, Es. simpl.
           split; [exact QA|]. split; [exact Q|].
           rewrite <- !app_assoc. reflexivity.
Qed.

(** A run: the calls before the files are touched, the calls to the files,
    and the calls after, down to the end of [main]. *)
Lemma main_shape (argv : list jsstring) (cfg : config) (h : list event) :
  exists before after,
    quiet before /\ quiet after
    /\ main argv cfg h
       = (Ok tt,
          (h ++ before) ++ fileCalls argv cfg (h ++ before) ++ after).
Proof.
  destruct (transfer_shape argv cfg h) as (r & A & C & QA & QC & E).
  unfold main. rewrite E. destruct r as [[]|e].
  - exists A, (C ++ [WebhookDestroy (discord cfg)]). unfold emit.
    split; [exact QA|]. split.
    + apply quiet_app; [exact QC | repeat constructor].
    + rewrite <- !app_assoc. reflexivity.
  - match goal with
    | |- context [bind _ _ ?h0] =>
        destruct (catch_quiet (discord cfg) e h0) as (calls & Ecatch & Q)
    end.
    rewrite Ecatch. exists A, (C ++ calls).
    split; [exact QA|]. split.
    + apply quiet_app; assumption.
    + rewrite <- !app_assoc. reflexivity.
Qed.

(** Where a call to the files sits in a run. *)
Lemma split_file_call (A F C pre post : list event) (x : event) :
  quiet A -> quiet C -> fileEvent x = true ->
  A ++ F ++ C = pre ++ x :: post ->
  exists f1 f2, F = f1 ++ x :: f2 /\ pre = A ++ f1 /\ post = f2 ++ C.
Proof.
  intros QA QC Hx. revert pre.
  induction A as [|a A IHA]; intros pre H.
  - clear QA. simpl in H. revert pre H.
    induction F as [|y F IHF]; intros pre H; simpl in H.
    + exfalso. unfold quiet in QC. rewrite Forall_forall in QC.
      assert (Hin : In x C) by (rewrite H; apply in_elt).
      apply QC in Hin. congruence.
    + destruct pre as [|p pre]; simpl in H; injection H as -> H.
      * exists [], F. subst post. repeat split.
      * destruct (IHF pre H) as (f1 & f2 & -> & -> & ->).
        exists (p :: f1), f2. repeat split.
  - inversion QA as [|? ? Ha QA']; subst.
    destruct pre as [|p pre]; simpl in H; injection H as -> H.
    + congruence.
    + destruct (IHA QA' pre H) as (f1 & f2 & -> & -> & ->).
      exists f1, f2. repeat split.
Qed.

(** Find [x] in an explicit list [H : y1 :: ... :: yn :: [] = f1 ++ x :: f2]. *)
Ltac locate H :=
  match type of H with
  | [] = ?f1 ++ _ :: _ => destruct f1; discriminate H
  | _ :: _ = ?f1 ++ _ :: _ =>
      destruct f1; simpl in H;
      [ try discriminate H; injection H as ? ?; subst
      | let H' := fresh H in
        injection H as ? H'; subst; locate H' ]
  end.

(** C6. In a run: the source file is truncated only when truncation is on
    (no [--no-truncate]), and only after the backup call has returned
    without an error and, after that, the stream over the source file was
    opened and read to its end without an error; when the stream cannot be
    read to its end the file is not truncated; when truncation is on, the
    stream is opened only after the backup call has returned without an
    error, so a backup that fails leaves the source unread and as it was. *)
Theorem main_truncates_after_parsing (argv : list jsstring) (cfg : config)
    (h : list event) :
  exists calls,
    snd (main argv cfg h) = h ++ calls
    /\ (forall pre file post,
          calls = pre ++ Truncate file :: post ->
          includes argv (js "--no-truncate") = false
          /\ file = path cfg
          /\ (exists pre1 pre2 pre3,
                pre = pre1 ++ CopyFile (path cfg) (backup cfg)
                      :: pre2 ++ OpenStream (path cfg)
                      :: pre3 ++ [EndOfStream (path cfg)]
                /\ fails (h ++ pre1) (CopyFile (path cfg) (backup cfg))
                   = None
                /\ snd (stream (h ++ pre1
                                  ++ CopyFile (path cfg) (backup cfg) :: pre2)
                               (path cfg)) = None))
    /\ ((forall h', snd (stream h' (path cfg)) <> None) ->
        forall file, ~ In (Truncate file) calls)
    /\ (includes argv (js "--no-truncate") = false ->
        forall pre file post,
          calls = pre ++ OpenStream file :: post ->
          exists pre1 pre2,
            pre = pre1 ++ CopyFile (path cfg) (backup cfg) :: pre2
            /\ fails (h ++ pre1) (CopyFile (path cfg) (backup cfg)) = None)
    /\ (includes argv (js "--no-truncate") = false ->
        (forall h', fails h' (CopyFile (path cfg) (backup cfg)) <> None) ->
        forall ev,
          In ev calls -> fileEvent ev = true ->
          ev = CopyFile (path cfg) (backup cfg)).
Proof.
  destruct (main_shape argv cfg h) as (A & C & QA & QC & E).
  exists (A ++ fileCalls argv cfg (h ++ A) ++ C).
  split; [rewrite E; simpl; rewrite <- app_assoc; reflexivity|].
  assert (Hsplit : forall pre x post,
             fileEvent x = true ->
             A ++ fileCalls argv cfg (h ++ A) ++ C = pre ++ x :: post ->
             exists f1 f2,
               fileCalls argv cfg (h ++ A) = f1 ++ x :: f2
               /\ pre = A ++ f1 /\ post = f2 ++ C).
  { intros pre x post Hx H. eapply split_file_call; eassumption. }
  clear E. unfold fileCalls in Hsplit.
  split; [|split; [|split]].
  - intros pre file post H.
    apply Hsplit in H as (f1 & f2 & HF & -> & ->); [|reflexivity].
    clear Hsplit.
    destruct (includes argv (js "--no-truncate")).
    + destruct (snd (stream _ _)); locate HF.
    + destruct (fails (h ++ A) (CopyFile (path cfg) (backup cfg))) eqn:Ec;
        [locate HF|].
      destruct (snd (stream ((h ++ A) ++ [CopyFile (path cfg) (backup cfg)])
                            (path cfg))) eqn:Es; locate HF.
      split; [reflexivity|]. split; [reflexivity|].
      exists A, [], []. split; [reflexivity|]. split; [exact Ec|].
      rewrite app_assoc. exact Es.
  - intros Hfail file Hin. apply in_split in Hin as (pre & post & H).
    apply Hsplit in H as (f1 & f2 & HF & -> & ->); [|reflexivity].
    clear Hsplit.
    destruct (includes argv (js "--no-truncate")).
    + destruct (snd (stream _ _)); locate HF.
    + destruct (fails _ _); [locate HF|].
      destruct (snd (stream _ _)) eqn:Es; [locate HF|].
      apply Hfail in Es. exact Es.
  - intros Ht pre file post H.
    apply Hsplit in H as (f1 & f2 & HF & -> & ->); [|reflexivity].
    clear Hsplit.
    rewrite Ht in HF.
    destruct (fails (h ++ A) (CopyFile (path cfg) (backup cfg))) eqn:Ec;
      [locate HF|].
    destruct (snd (stream _ _)); locate HF;
      exists A, []; (split; [reflexivity | exact Ec]).
  - intros Ht Hcopy ev Hin Hev. apply in_split in Hin as (pre & post & H).
    apply Hsplit in H as (f1 & f2 & HF & -> & ->); [|exact Hev].
    clear Hsplit.
    rewrite Ht in HF.
    destruct (fails (h ++ A) (CopyFile (path cfg) (backup cfg))) eqn:Ec;
      [|apply Hcopy in Ec; contradiction].
    locate HF. reflexivity.
Qed.

(** *** The escaping fix *)

Lemma replaceHexEscapes_keep (c : N) (tl : jsstring) :
  ((c =? 92)%N && startsEscape tl) = false ->
  replaceHexEscapes (c :: tl) = c :: replaceHexEscapes tl.
Proof.
  intros H. destruct tl as [|x [|a [|b rest]]]; try reflexivity.
  unfold startsEscape in H. cbn [replaceHexEscapes].
  rewrite <- !andb_assoc in *. rewrite H. reflexivity.
Qed.

Lemma replaceHexEscapes_head (c : N) (tl : jsstring) :
  exists d out,
    replaceHexEscapes (c :: tl) = d :: out
    /\ (d = c \/ (c = 92%N /\ d = 37%N)).
Proof.
  destruct tl as [|x [|a [|b rest]]]; try (do 2 eexists; split; [reflexivity|]; left; reflexivity).
  cbn [replaceHexEscapes].
  destruct ((c =? 92)%N && (x =? 120)%N && isHexDigit a && isHexDigit b)
    eqn:E.
  - do 2 eexists. split; [reflexivity|]. right.
    rewrite !andb_true_iff in E. destruct E as [[[E _] _] _].
    apply N.eqb_eq in E. auto.
  - do 2 eexists. split; [reflexivity|]. left. reflexivity.
Qed.

Lemma isHexDigit_not_escape (d : N) :
  d = 92%N \/ d = 37%N -> isHexDigit d = false /\ (d =? 120)%N = false.
Proof. intros [-> | ->]; split; reflexivity. Qed.

Lemma replaceHexEscapes_first (c : N) (tl : jsstring) :
  exists d out,
    replaceHexEscapes (c :: tl) = d :: out
    /\ isHexDigit d = isHexDigit c /\ (d =? 120)%N = (c =? 120)%N
    /\ (isHexDigit c = true \/ (c =? 120)%N = true ->
        d = c /\ out = replaceHexEscapes tl).
Proof.
  destruct ((c =? 92)%N) eqn:Ec.
  - apply N.eqb_eq in Ec. subst c.
    destruct (replaceHexEscapes_head 92 tl) as (d & out & E & Hd).
    exists d, out. split; [exact E|].
    assert (Hd' : d = 92%N \/ d = 37%N) by (destruct Hd as [->|[_ ->]]; auto).
    destruct (isHexDigit_not_escape d Hd') as [H1 H2].
    rewrite H1, H2. split; [reflexivity|]. split; [reflexivity|].
    intros [H|H]; discriminate H.
  - exists c, (replaceHexEscapes tl).
    rewrite replaceHexEscapes_keep by (rewrite Ec; reflexivity).
    split; [reflexivity|]. split; [reflexivity|]. split; [reflexivity|].
    intros _. split; reflexivity.
Qed.

(** The fix does not make or unmake the start of an escape. *)
Lemma startsEscape_replaceHexEscapes (s : jsstring) :
  startsEscape (replaceHexEscapes s) = startsEscape s.
Proof.
  destruct s as [|x s]; [reflexivity|].
  destruct (replaceHexEscapes_first x s) as (d & out & E & _ & Hx & Hsame).
  rewrite E.
  destruct ((x =? 120)%N) eqn:Ex.
  - destruct (Hsame (or_intror eq_refl)) as [-> ->].
    destruct s as [|a s]; [reflexivity|].
    destruct (replaceHexEscapes_first a s) as (d & out & E' & Ha & _ & Hsame').
    rewrite E'. destruct (isHexDigit a) eqn:Eha.
    + destruct (Hsame' (or_introl eq_refl)) as [-> ->].
      destruct s as [|b s]; [reflexivity|].
      destruct (replaceHexEscapes_first b s) as (d & out & E'' & Hb & _ & _).
      rewrite E''. unfold startsEscape. rewrite Ex, Eha, Hb. reflexivity.
    + unfold startsEscape. rewrite Ex, Ha, Eha.
      destruct out as [|? ?], s as [|? ?]; reflexivity.
  - unfold startsEscape. rewrite Hx, Ex.
    destruct out as [|? [|? ?]], s as [|? [|? ?]]; reflexivity.
Qed.

Lemma replaceHexEscapes_idempotent_upto (n : nat) (s : jsstring) :
  List.length s <= n ->
  replaceHexEscapes (replaceHexEscapes s) = replaceHexEscapes s.
Proof.
  revert s; induction n as [|n IH]; intros s Hn.
  - destruct s; [reflexivity | simpl in Hn; lia].
  - destruct s as [|c tl]; [reflexivity|].
    destruct ((c =? 92)%N && startsEscape tl) eqn:E.
    + apply andb_true_iff in E as [Ec Hs]. apply N.eqb_eq in Ec. subst c.
      destruct tl as [|x [|a [|b rest]]]; try discriminate Hs.
      unfold startsEscape in Hs. cbn [replaceHexEscapes].
      rewrite !andb_true_iff in Hs. destruct Hs as [[Hx Ha] Hb].
      rewrite Hx, Ha, Hb. cbn [andb N.eqb Pos.eqb].
      rewrite 3 replaceHexEscapes_keep.
      * rewrite IH; [reflexivity | simpl in Hn; lia].
      * destruct ((b =? 92)%N) eqn:Eb; [|reflexivity].
        apply N.eqb_eq in Eb. subst b. discriminate Hb.
      * destruct ((a =? 92)%N) eqn:Ea; [|reflexivity].
        apply N.eqb_eq in Ea. subst a. discriminate Ha.
      * reflexivity.
    + rewrite (replaceHexEscapes_keep _ _ E).
      rewrite replaceHexEscapes_keep.
      * rewrite IH; [reflexivity | simpl in Hn; lia].
      * rewrite startsEscape_replaceHexEscapes. exact E.
Qed.

(** X1. The escaping fix leaves no escape behind: applying it twice is
    applying it once. It never makes a line longer, and a line without a
    backslash is returned as it is. *)
Theorem fixEscaping_idempotent (line : jsstring) :
  (fixEscaping line) .then fixEscaping = fixEscaping line
  /\ List.length (replaceHexEscapes line) <= List.length line
  /\ (forallb (fun c => negb (c =? 92)%N) line = true ->
      fixEscaping line = Ok line).
Proof.
  unfold fixEscaping. simpl. split; [|split].
  - f_equal. apply (replaceHexEscapes_idempotent_upto (List.length line)).
    reflexivity.
  - assert (H : forall n s, List.length s <= n ->
                List.length (replaceHexEscapes s) <= List.length s).
    { induction n as [|n IH]; intros s Hn.
      - destruct s; [reflexivity | simpl in Hn; lia].
      - destruct s as [|c tl]; [reflexivity|].
        destruct ((c =? 92)%N && startsEscape tl) eqn:E.
        + apply andb_true_iff in E as [Ec Hs].
          destruct tl as [|x [|a [|b rest]]]; try discriminate Hs.
          unfold startsEscape in Hs. cbn [replaceHexEscapes].
          rewrite <- !andb_assoc. rewrite <- !andb_assoc in Hs.
          rewrite Ec, Hs. cbn [andb].
          pose proof (IH rest ltac:(simpl in Hn; lia)).
          cbn [List.length] in *. lia.
        + rewrite (replaceHexEscapes_keep _ _ E).
          pose proof (IH tl ltac:(simpl in Hn; lia)).
          cbn [List.length] in *. lia. }
    apply (H (List.length line)). reflexivity.
  - intros H. f_equal. induction line as [|c tl IH]; [reflexivity|].
    simpl in H. apply andb_true_iff in H as [Hc Ht].
    rewrite replaceHexEscapes_keep.
    + rewrite IH by exact Ht. reflexivity.
    + apply negb_true_iff in Hc. rewrite Hc. reflexivity.
Qed.

(** *** The check that all fields are strings *)

Lemma fieldsAreStrings_all (fields : list (jsstring * json)) :
  forallb (fun kv => isJStr (snd kv)) fields = true ->
  fieldsAreStrings fields
  = Ok (map (fun kv => (fst kv, fieldValue (snd kv))) fields).
Proof.
  induction fields as [|[k j] fields IH]; simpl; [reflexivity|].
  intros H. apply andb_true_iff in H as [Hj H].
  destruct j; try discriminate Hj. rewrite (IH H). reflexivity.
Qed.

Lemma fieldsAreStrings_first (pre post : list (jsstring * json))
    (key : jsstring) (j : json) :
  forallb (fun kv => isJStr (snd kv)) pre = true ->
  isJStr j = false ->
  fieldsAreStrings (pre ++ (key, j) :: post)
  = Throw (js "Field '" ++ key ++ js "' is not a string.").
Proof.
  intros Hpre Hj. induction pre as [|[k j'] pre IH]; simpl.
  - destruct j; try reflexivity. discriminate Hj.
  - simpl in Hpre. apply andb_true_iff in Hpre as [Hj' Hpre].
    destruct j'; try discriminate Hj'. rewrite (IH Hpre). reflexivity.
Qed.

(** X2. On a JSON object, [checkFieldsAreStrings] lets the record through
    exactly when every field is a string, with the fields, their names and
    their order unchanged; otherwise the error names the first field, in the
    order of the object, that is not a string. *)
Theorem checkFieldsAreStrings_object (fields : list (jsstring * json)) :
  (forallb (fun kv => isJStr (snd kv)) fields = true ->
   checkFieldsAreStrings (JObj fields)
   = Ok (map (fun kv => (fst kv, fieldValue (snd kv))) fields))
  /\ (forall pre key j post,
        fields = pre ++ (key, j) :: post ->
        forallb (fun kv => isJStr (snd kv)) pre = true ->
        isJStr j = false ->
        checkFieldsAreStrings (JObj fields)
        = Throw (js "Field '" ++ key ++ js "' is not a string."))
  /\ (forall o,
        checkFieldsAreStrings (JObj fields) = Ok o ->
        forallb (fun kv => isJStr (snd kv)) fields = true).
Proof.
  unfold checkFieldsAreStrings. simpl. split; [|split].
  - apply fieldsAreStrings_all.
  - intros pre key j post -> Hpre Hj. apply fieldsAreStrings_first; assumption.
  - induction fields as [|[k j] fields IH]; intros o H; [reflexivity|].
    simpl in H |- *. destruct j; try discriminate H.
    destruct (fieldsAreStrings fields) as [o'|] eqn:E; [|discriminate H].
    apply (IH o'). reflexivity.
Qed.

(** *** Lines that are JSON but no object *)

Lemma uint_units_digits (d : Decimal.uint) :
  forallb isDigit (uint_units d) = true.
Proof. induction d; simpl; auto. Qed.

Lemma index_not_host (i : nat) : str_eqb (natToString i) (js "host") = false.
Proof.
  unfold natToString. pose proof (uint_units_digits (Nat.to_uint i)) as H.
  destruct (uint_units (Nat.to_uint i)) as [|c t]; [reflexivity|].
  simpl in H. apply andb_true_iff in H as [Hc _].
  change (js "host") with (104%N :: js "ost"). cbn [str_eqb].
  destruct ((c =? 104)%N) eqn:E; [|reflexivity].
  apply N.eqb_eq in E. subst c. discriminate Hc.
Qed.

Lemma indexed_strings (items : list json) :
  forallb isJStr items = true ->
  exists o,
    fieldsAreStrings (indexed items) = Ok o
    /\ Get o (js "host") = VUndefined.
Proof.
  unfold indexed. generalize 0 as i.
  induction items as [|x items IH]; intros i H; simpl.
  - eexists. split; reflexivity.
  - simpl in H. apply andb_true_iff in H as [Hx H].
    destruct x; try discriminate Hx.
    destruct (IH (S i) H) as (o & -> & Ho).
    eexists. split; [reflexivity|]. simpl. rewrite index_not_host. exact Ho.
Qed.

Lemma indexed_not_strings (items : list json) :
  forallb isJStr items = false ->
  exists key,
    fieldsAreStrings (indexed items)
    = Throw (js "Field '" ++ key ++ js "' is not a string.").
Proof.
  unfold indexed. generalize 0 as i.
  induction items as [|x items IH]; intros i H; [discriminate H|].
  simpl in H. simpl.
  destruct x; try (eexists; reflexivity).
  simpl in H. destruct (IH (S i) H) as [key Hk].
  rewrite Hk. exists key. reflexivity.
Qed.

(** X3. A line that parses as JSON but not to an object is never accepted.
    [null] fails in [Object.entries]; a number, a boolean, a string or an
    array of strings passes the check on the fields and is rejected as a
    record without a host, [isIP] giving 0 on ['undefined']; an array with
    an item that is not a string fails the check on the fields. *)
Theorem validate_non_object (l : jsstring) (j : json) :
  JSON_parse (replaceHexEscapes l) = Some j ->
  isIP (js "undefined") = 0%N ->
  match j with
  | JObj _ => True
  | JNull => validate l = Throw TypeError_entries
  | JArr items =>
      if forallb isJStr items
      then validate l = Throw (js "Invalid IP address: undefined")
      else exists key, validate l
                       = Throw (js "Field '" ++ key ++ js "' is not a string.")
  | _ => validate l = Throw (js "Invalid IP address: undefined")
  end.
Proof.
  intros Hj Hip.
  assert (Hhost : forall o,
             Get o (js "host") = VUndefined ->
             Ok o .then checkValidIP .then checkValidTime
               .then checkValidMethod .then checkPathQuery .then checkStatus
               .then checkResponseSize .then checkProcessTime
               .then trimReferer .then trimUser .then checkCountry
               .then decomposeUserAgent
             = Throw (js "Invalid IP address: undefined")).
  { intros o Ho. cbn [andThen]. unfold checkValidIP. rewrite Ho.
    cbn [ToString]. rewrite Hip. reflexivity. }
  unfold validate, fixEscaping, gracefulParse. cbn [andThen]. rewrite Hj.
  unfold checkFieldsAreStrings.
  destruct j as [| b | x | s | items | fields]; cbn [andThen Object_entries];
    try exact I; try reflexivity.
  - apply (Hhost []). reflexivity.
  - apply (Hhost []). reflexivity.
  - destruct (indexed_strings (map (fun c => JStr [c]) s)) as (o & -> & Ho).
    + clear. induction s as [|c s IH]; [reflexivity | exact IH].
    + apply Hhost, Ho.
  - destruct (forallb isJStr items) eqn:Hall.
    + destruct (indexed_strings items Hall) as (o & -> & Ho).
      apply Hhost, Ho.
    + destruct (indexed_not_strings items Hall) as [key Hk].
      exists key. rewrite Hk. reflexivity.
Qed.

(** *** The fields of an accepted entry *)

(** What the chain does to the user agent: the record without agent, or the
    agent taken apart. *)
Lemma validate_fields (l : jsstring) (entry : jsobject) :
  validate l = Ok entry ->
  exists raw,
    (fixEscaping l) .then gracefulParse .then checkFieldsAreStrings = Ok raw
    /\ (forall key,
          Get raw key = VUndefined \/ exists s, Get raw key = VStr s)
    /\ (Get entry (js "host") = Get raw (js "host")
        /\ (isIP (ToString (Get raw (js "host"))) =? 0)%N = false)
    /\ (exists t,
          newDate (Get raw (js "time")) = Some t
          /\ Get entry (js "time") = VDate t)
    /\ (exists m,
          Get raw (js "method") = VStr m
          /\ includes VALID_HTTP_METHODS (toUpperCase m) = true
          /\ Get entry (js "method")
             = if str_eqb (toUpperCase m) (js "-") then VNull
               else VStr (toUpperCase m))
    /\ (exists p,
          decodeURI (ToString (Get raw (js "path"))) = Some p
          /\ Get entry (js "path")
             = if str_eqb (slice 0 MAX_PATH_QUERY_LENGTH p) (js "-")
               then VNull else VStr (slice 0 MAX_PATH_QUERY_LENGTH p))
    /\ (exists q,
          decodeURI (ToString (Get raw (js "query"))) = Some q
          /\ Get entry (js "query")
             = if str_eqb (slice 0 MAX_PATH_QUERY_LENGTH q) []
               then VNull else VStr (slice 0 MAX_PATH_QUERY_LENGTH q))
    /\ (existsb (fun k => sameValueZero (numOfZ k)
                            (ToNumber (Get raw (js "status"))))
                VALID_HTTP_STATUSES = true
        /\ Get entry (js "status")
           = VNum (ToNumber (Get raw (js "status"))))
    /\ (isNaN (ToNumber (Get raw (js "responseSize"))) = false
        /\ Get entry (js "responseSize")
           = VNum (ToNumber (Get raw (js "responseSize"))))
    /\ (isNaN (ToNumber (Get raw (js "processTime"))) = false
        /\ Get entry (js "processTime")
           = VNum (ToNumber (Get raw (js "processTime"))))
    /\ (exists r,
          Get raw (js "referer") = VStr r
          /\ Get entry (js "referer")
             = VStr (slice 0 MAX_PATH_QUERY_LENGTH r))
    /\ (exists u,
          Get raw (js "user") = VStr u
          /\ Get entry (js "user")
             = if str_eqb (slice 0 MAX_PATH_QUERY_LENGTH u) (js "-")
               then VNull else VStr (slice 0 MAX_PATH_QUERY_LENGTH u))
    /\ (exists c,
          Get raw (js "country") = VStr c
          /\ Get entry (js "country")
             = if str_eqb c (js "-") then VNull
               else VStr (toUpperCase (slice 0 MAX_COUNTRY_LENGTH c)))
    /\ ((strictEqStr (Get raw (js "userAgent")) (js "-")
         || negb (truthy (Get raw (js "userAgent"))) = true
         /\ Get entry (js "userAgent") = VNull
         /\ Get entry (js "bot") = VBool false
         /\ Get entry (js "browser") = VNull
         /\ Get entry (js "deviceType") = VStr (js "unknown")
         /\ Get entry (js "os") = VNull)
        \/ (exists s,
              Get raw (js "userAgent") = VStr s
              /\ Get entry (js "userAgent")
                 = VStr (slice 0 MAX_PATH_QUERY_LENGTH s)
              /\ Get entry (js "bot") = VBool (isbot s))).
Proof.
  intros H. unfold validate in H.
  destruct ((fixEscaping l) .then gracefulParse .then checkFieldsAreStrings)
    as [raw|] eqn:Hraw; [|discriminate H].
  exists raw. split; [reflexivity|].
  assert (Hstr : forall key,
             Get raw key = VUndefined \/ exists s, Get raw key = VStr s).
  { intros key. apply andThen_Ok in Hraw as (j & _ & Hj).
    unfold checkFieldsAreStrings in Hj.
    apply andThen_Ok in Hj as (es & _ & Hes).
    eapply fieldsAreStrings_Get; eassumption. }
  split; [exact Hstr|]. clear Hraw Hstr.
  apply andThen_Ok in H as (o12 & H & H13).
  apply andThen_Ok in H as (o11 & H & H12).
  apply andThen_Ok in H as (o10 & H & H11).
  apply andThen_Ok in H as (o9 & H & H10).
  apply andThen_Ok in H as (o8 & H & H9).
  apply andThen_Ok in H as (o7 & H & H8).
  apply andThen_Ok in H as (o6 & H & H7).
  apply andThen_Ok in H as (o5 & H & H6).
  apply andThen_Ok in H as (o4 & H & H5).
  apply andThen_Ok in H as (o3 & H & H4).
  simpl in H.
  unfold checkValidIP in H; invert_stage H.
  unfold checkValidTime in H4; invert_stage H4.
  unfold checkValidMethod in H5; invert_stage H5.
  unfold checkPathQuery, decodeAndTrim, andThen in H6; invert_stage H6.
  unfold checkStatus in H7; invert_stage H7.
  unfold checkResponseSize in H8; invert_stage H8.
  unfold checkProcessTime in H9; invert_stage H9.
  unfold trimReferer in H10; invert_stage H10.
  unfold trimUser in H11; invert_stage H11.
  unfold checkCountry in H12; invert_stage H12.
  unfold decomposeUserAgent in H13; invert_stage H13.
  all: repeat match goal with
       | E : Get _ _ = _ |- _ => progress get_set_in E
       | E : context [Get _ _] |- _ => progress get_set_in E
       end.
  all: get_set.
  all: apply negb_false_iff in Heqb0, Heqb1.
  all: destruct (decodeURI (ToString (Get raw (js "path")))) as [p|];
    [injection Heqr as <- | discriminate Heqr].
  all: destruct (decodeURI (ToString (Get raw (js "query")))) as [q|];
    [injection Heqr0 as <- | discriminate Heqr0].
  all: split; [split; reflexivity|].
  all: split; [eexists; split; reflexivity|].
  all: split; [eexists; split; [eassumption|]; split; [assumption|reflexivity]|].
  all: split; [eexists; split; reflexivity|].
  all: split; [eexists; split; reflexivity|].
  all: split; [split; [assumption | reflexivity]|].
  all: split; [split; [assumption | reflexivity]|].
  all: split; [split; [assumption | reflexivity]|].
  all: split; [eexists; split; [eassumption | reflexivity]|].
  all: split; [eexists; split; [eassumption | reflexivity]|].
  all: split; [eexists; split; [eassumption | reflexivity]|].
  - left. repeat split; assumption.
  - right. eexists. repeat split; eassumption.
Qed.

Lemma sameValueZero_eq (x y : number) :
  sameValueZero x y = true ->
  match x with Fin false m _ => negb (m =? 0)%Z | _ => false end = true ->
  y = x.
Proof.
  destruct x as [|a|a m e]; try discriminate. destruct a; [discriminate|].
  destruct y as [|b|b m' e']; try discriminate. simpl.
  intros H Hm. apply negb_true_iff in Hm. rewrite Hm in H. simpl in H.
  rewrite !andb_true_iff in H. destruct H as [[Hb Hmm] He].
  destruct b; [discriminate Hb|].
  apply Z.eqb_eq in Hmm, He. subst. reflexivity.
Qed.

Lemma status_codes_nonzero :
  forallb (fun k => match numOfZ k with
                    | Fin false m _ => negb (m =? 0)%Z
                    | _ => false
                    end) VALID_HTTP_STATUSES = true.
Proof. vm_compute. reflexivity. Qed.

(** The record that [checkFieldsAreStrings] returns for an object has the
    string fields of the object and no other. *)
Lemma fieldsAreStrings_field (fields : list (jsstring * json)) (o : jsobject)
    (key : jsstring) :
  fieldsAreStrings fields = Ok o ->
  (forall s, Get o key = VStr s -> In (key, JStr s) fields)
  /\ (hasField fields key = false -> Get o key = VUndefined)
  /\ (hasField fields key = true -> exists s, Get o key = VStr s).
Proof.
  revert o; induction fields as [|[k j] fields IH]; intros o H; simpl in H.
  - injection H as <-. repeat split; try discriminate; try reflexivity.
  - destruct j; try discriminate H.
    destruct (fieldsAreStrings fields) as [o'|] eqn:E; [|discriminate H].
    injection H as <-. destruct (IH o' eq_refl) as (Hin & Hno & Hyes).
    unfold hasField in *. simpl.
    destruct (str_eqb k key) eqn:Ek; simpl.
    + apply str_eqb_eq in Ek. subst k. repeat split.
      * intros s' Hs. injection Hs as ->. left. reflexivity.
      * discriminate.
      * eauto.
    + repeat split; auto.
Qed.

Lemma parsed_object (l : jsstring) (fields : list (jsstring * json))
    (raw : jsobject) :
  JSON_parse (replaceHexEscapes l) = Some (JObj fields) ->
  (fixEscaping l) .then gracefulParse .then checkFieldsAreStrings = Ok raw ->
  fieldsAreStrings fields = Ok raw.
Proof.
  intros Hj H. unfold fixEscaping, gracefulParse in H. cbn [andThen] in H.
  rewrite Hj in H. exact H.
Qed.

(** X4. In an accepted entry the fields behind the columns that the [logs]
    table declares NOT NULL are never [null] or missing: host is a string
    that [isIP] accepts (given that [isIP] rejects ['undefined']), time is
    a Date, status is one of the numbers of [VALID_HTTP_STATUSES],
    responseSize and processTime are numbers other than NaN, and bot is a
    boolean; the referer is a string too. *)
Theorem accepted_entry_columns (l : jsstring) (entry : jsobject) :
  validate l = Ok entry ->
  isIP (js "undefined") = 0%N ->
  (exists host, Get entry (js "host") = VStr host /\ isIP host <> 0%N)
  /\ (exists t, Get entry (js "time") = VDate t)
  /\ (exists k,
        In k VALID_HTTP_STATUSES
        /\ Get entry (js "status") = VNum (numOfZ k))
  /\ (exists x, Get entry (js "responseSize") = VNum x /\ isNaN x = false)
  /\ (exists x, Get entry (js "processTime") = VNum x /\ isNaN x = false)
  /\ (exists r, Get entry (js "referer") = VStr r)
  /\ (exists b, Get entry (js "bot") = VBool b).
Proof.
  intros H Hip.
  destruct (validate_fields l entry H)
    as (raw & _ & Hstr & [Hh Hhost] & (t & _ & Ht) & _ & _ & _ & [Hs Hst]
        & [Hr Hrs] & [Hp Hpt] & (r & _ & Href) & _ & _ & Hua).
  split.
  { destruct (Hstr (js "host")) as [E|[host E]]; rewrite E in Hhost.
    - cbn [ToString] in Hhost. rewrite Hip in Hhost. discriminate Hhost.
    - exists host. rewrite Hh, E. split; [reflexivity|].
      cbn [ToString] in Hhost. intros E0. rewrite E0 in Hhost.
      discriminate Hhost. }
  split; [eauto|]. split.
  { apply existsb_exists in Hs as (k & Hk & Hsame). exists k.
    split; [exact Hk|]. rewrite Hst. f_equal.
    apply sameValueZero_eq; [exact Hsame|].
    pose proof status_codes_nonzero as Hall.
    rewrite forallb_forall in Hall. apply Hall, Hk. }
  split; [eauto|]. split; [eauto|]. split; [eauto|].
  destruct Hua as [(_ & _ & Hb & _)|(s & _ & _ & Hb)]; eauto.
Qed.

(** X5. In an accepted entry the method is [null] or one of the nine names
    of the [method] column; it is never the sentinel [-] nor a name in lower
    case. *)
Theorem accepted_entry_method (l : jsstring) (entry : jsobject) :
  validate l = Ok entry ->
  Get entry (js "method") = VNull
  \/ exists m, In m METHOD_ENUM /\ Get entry (js "method") = VStr m.
Proof.
  intros H.
  destruct (validate_fields l entry H)
    as (raw & _ & _ & _ & _ & (m & _ & Hin & Hm) & _).
  rewrite Hm. destruct (str_eqb (toUpperCase m) (js "-")) eqn:E;
    [left; reflexivity|].
  right. exists (toUpperCase m). split; [|reflexivity].
  unfold includes in Hin. apply existsb_exists in Hin as (x & Hx & Hxe).
  apply str_eqb_eq in Hxe. subst x.
  unfold VALID_HTTP_METHODS in Hx.
  change (In (toUpperCase m) (METHOD_ENUM ++ [js "-"])) in Hx.
  apply in_app_or in Hx as [Hx|[Hx|[]]]; [exact Hx|].
  rewrite <- Hx in E. discriminate E.
Qed.

(** X6. In an accepted entry the strings are cut to the width of their
    columns: user, path, query, referer and userAgent have at most 255 code
    units, and country is the upper case of at most 8 code units, so at most
    8 when these are ASCII. *)
Theorem accepted_entry_lengths (l : jsstring) (entry : jsobject) :
  validate l = Ok entry ->
  (forall key s,
     In key [js "user"; js "path"; js "query"; js "referer";
             js "userAgent"] ->
     Get entry key = VStr s ->
     List.length s <= MAX_PATH_QUERY_LENGTH)
  /\ (forall s,
        Get entry (js "country") = VStr s ->
        exists c,
          List.length c <= MAX_COUNTRY_LENGTH
          /\ s = toUpperCase c
          /\ (isAscii c = true -> List.length s <= MAX_COUNTRY_LENGTH)).
Proof.
  intros H.
  destruct (validate_fields l entry H)
    as (raw & _ & _ & _ & _ & _ & (p & _ & Hp) & (q & _ & Hq) & _ & _ & _
        & (r & _ & Hr) & (u & _ & Hu) & (c & _ & Hc) & Hua).
  assert (Hlen : forall (x : jsstring) n, List.length (slice 0 n x) <= n).
  { intros x n. unfold slice. rewrite length_firstn. lia. }
  split.
  - intros key s Hin Hs.
    destruct Hin as [<-|[<-|[<-|[<-|[<-|[]]]]]].
    + rewrite Hu in Hs. match type of Hs with
      | (if ?b then _ else _) = _ => destruct b; [discriminate Hs|]
      end.
      injection Hs as <-. apply Hlen.
    + rewrite Hp in Hs. match type of Hs with
      | (if ?b then _ else _) = _ => destruct b; [discriminate Hs|]
      end.
      injection Hs as <-. apply Hlen.
    + rewrite Hq in Hs. match type of Hs with
      | (if ?b then _ else _) = _ => destruct b; [discriminate Hs|]
      end.
      injection Hs as <-. apply Hlen.
    + rewrite Hr in Hs. injection Hs as <-. apply Hlen.
    + destruct Hua as [(_ & Hn & _)|(a & _ & Ha & _)].
      * rewrite Hn in Hs. discriminate Hs.
      * rewrite Ha in Hs. injection Hs as <-. apply Hlen.
  - intros s Hs. rewrite Hc in Hs.
    match type of Hs with
    | (if ?b then _ else _) = _ => destruct b; [discriminate Hs|]
    end.
    injection Hs as <-.
    exists (slice 0 MAX_COUNTRY_LENGTH c). split; [apply Hlen|].
    split; [reflexivity|]. intros Ha. unfold toUpperCase. rewrite Ha.
    rewrite length_map. apply Hlen.
Qed.

(** X7. A line whose record is a JSON object is accepted only if the object
    has the fields time, method, status, responseSize, processTime, referer,
    user and country, and the field host as well when [isIP] rejects
    ['undefined']. *)
Theorem accepted_entry_required_fields (l : jsstring)
    (fields : list (jsstring * json)) (entry : jsobject) :
  JSON_parse (replaceHexEscapes l) = Some (JObj fields) ->
  validate l = Ok entry ->
  (forall key,
     In key [js "time"; js "method"; js "status"; js "responseSize";
             js "processTime"; js "referer"; js "user"; js "country"] ->
     exists s, In (key, JStr s) fields)
  /\ (isIP (js "undefined") = 0%N ->
      exists s, In (js "host", JStr s) fields).
Proof.
  intros Hj H.
  destruct (validate_fields l entry H)
    as (raw & Hraw & Hstr & [_ Hhost] & (t & Ht & _) & (m & Hm & _) & _ & _
        & [Hs _] & [Hr _] & [Hp _] & (r & Href & _) & (u & Hu & _)
        & (c & Hc & _) & _).
  pose proof (parsed_object l fields raw Hj Hraw) as Hf.
  assert (Hin : forall key s, Get raw key = VStr s ->
                  exists s, In (key, JStr s) fields).
  { intros key s Hk. exists s.
    apply (fieldsAreStrings_field fields raw key Hf). exact Hk. }
  split.
  - intros key Hkey.
    destruct Hkey as [<-|[<-|[<-|[<-|[<-|[<-|[<-|[<-|[]]]]]]]]];
      try (eapply Hin; eassumption).
    + destruct (Hstr (js "time")) as [E|[s E]]; [|eapply Hin, E].
      rewrite E in Ht. discriminate Ht.
    + destruct (Hstr (js "status")) as [E|[s E]]; [|eapply Hin, E].
      rewrite E in Hs. vm_compute in Hs. discriminate Hs.
    + destruct (Hstr (js "responseSize")) as [E|[s E]]; [|eapply Hin, E].
      rewrite E in Hr. discriminate Hr.
    + destruct (Hstr (js "processTime")) as [E|[s E]]; [|eapply Hin, E].
      rewrite E in Hp. discriminate Hp.
  - intros Hip.
    destruct (Hstr (js "host")) as [E|[s E]]; [|eapply Hin, E].
    rewrite E in Hhost. cbn [ToString] in Hhost. rewrite Hip in Hhost.
    discriminate Hhost.
Qed.

(** X8. The fields path, query and userAgent may be missing from the object.
    A record without path is accepted with the string [undefined] as its
    path, and likewise for query: [decodeURI] is given [undefined] and
    decodes its text. A record without userAgent gets the entry of an
    unknown agent. *)
Theorem accepted_entry_optional_fields (l : jsstring)
    (fields : list (jsstring * json)) (entry : jsobject) :
  JSON_parse (replaceHexEscapes l) = Some (JObj fields) ->
  validate l = Ok entry ->
  (hasField fields (js "path") = false ->
   Get entry (js "path") = VStr (js "undefined"))
  /\ (hasField fields (js "query") = false ->
      Get entry (js "query") = VStr (js "undefined"))
  /\ (hasField fields (js "userAgent") = false ->
      Get entry (js "userAgent") = VNull
      /\ Get entry (js "bot") = VBool false
      /\ Get entry (js "browser") = VNull
      /\ Get entry (js "deviceType") = VStr (js "unknown")
      /\ Get entry (js "os") = VNull).
Proof.
  intros Hj H.
  destruct (validate_fields l entry H)
    as (raw & Hraw & _ & _ & _ & _ & (p & Hp & Hpath) & (q & Hq & Hquery)
        & _ & _ & _ & _ & _ & _ & Hua).
  pose proof (parsed_object l fields raw Hj Hraw) as Hf.
  split; [|split]; intros Hno.
  - apply (fieldsAreStrings_field fields raw _ Hf) in Hno.
    rewrite Hno in Hp. vm_compute in Hp. injection Hp as <-.
    rewrite Hpath. reflexivity.
  - apply (fieldsAreStrings_field fields raw _ Hf) in Hno.
    rewrite Hno in Hq. vm_compute in Hq. injection Hq as <-.
    rewrite Hquery. reflexivity.
  - apply (fieldsAreStrings_field fields raw _ Hf) in Hno.
    destruct Hua as [(_ & Hrest)|(s & Hs & _)]; [exact Hrest|].
    rewrite Hno in Hs. discriminate Hs.
Qed.

(** *** The user agent taken apart *)

(** X9. For a user agent that is a string other than the empty string and
    [-]: the agent is kept, cut to 255 code units; browser is the name the
    parser reports or [null]; os is the name and the version the parser
    reports with a space between, the name alone without a version, and
    [null] without a name (an empty name or version counts as none); every
    field other than userAgent, bot, browser, deviceType and os is as it
    was. *)
Theorem decomposeUserAgent_parsed (object : jsobject) (s : jsstring) :
  Get object (js "userAgent") = VStr s ->
  s <> [] -> s <> js "-" ->
  exists entry,
    decomposeUserAgent object = Ok entry
    /\ Get entry (js "userAgent") = VStr (firstn 255 s)
    /\ Get entry (js "browser")
       = match browser_name (UAParser s) with
         | Some (c :: t) => VStr (c :: t)
         | _ => VNull
         end
    /\ Get entry (js "os")
       = match os_name (UAParser s), os_version (UAParser s) with
         | Some (c :: t), Some (d :: v) => VStr ((c :: t) ++ js " " ++ d :: v)
         | Some (c :: t), _ => VStr (c :: t)
         | _, _ => VNull
         end
    /\ (forall key,
          ~ In key [js "userAgent"; js "bot"; js "browser"; js "deviceType";
                    js "os"] ->
          Get entry key = Get object key).
Proof.
  intros Hg Hne Hdash. unfold decomposeUserAgent. rewrite Hg. simpl.
  apply str_eqb_neq in Hdash. rewrite Hdash.
  apply str_eqb_neq in Hne. rewrite Hne. simpl.
  eexists. split; [reflexivity|]. get_set.
  split; [reflexivity|]. split.
  { unfold orElse. destruct (browser_name (UAParser s)) as [[|c t]|];
      reflexivity. }
  split.
  { unfold orElse.
    destruct (os_name (UAParser s)) as [[|c t]|]; try reflexivity.
    destruct (os_version (UAParser s)) as [[|d v]|]; reflexivity. }
  intros key Hkey. rewrite !Get_set.
  repeat match goal with
  | |- context [str_eqb ?a key] =>
      let E := fresh "E" in
      destruct (str_eqb a key) eqn:E;
      [apply str_eqb_eq in E; exfalso; apply Hkey; rewrite <- E; simpl;
       auto 10|]
  end.
  reflexivity.
Qed.

(** *** Reports *)

Lemma report_calls (webhook : json) (message : jsstring) (h : list event) :
  report webhook message h
  = (Ok tt,
     h ++ [ConsoleInfo message; WebhookSend webhook (firstn 2000 message)]
       ++ match fails (h ++ [ConsoleInfo message])
                      (WebhookSend webhook (firstn 2000 message)) with
          | Some e => [ConsoleErrorWebhook e]
          | None => []
          end).
Proof.
  unfold report, bind, emit, tryCatch, call.
  change (slice 0 2000 message) with (firstn 2000 message).
  destruct (fails _ _); rewrite <- !app_assoc; reflexivity.
Qed.

(** X10. [report] never throws. It writes the message to the console in
    full, then sends the webhook at most the first 2000 code units of it
    (the whole message when it is not longer); when the webhook fails, the
    error is written to the console and goes no further. *)
Theorem report_never_throws (webhook : json) (message : jsstring)
    (h : list event) :
  exists content,
    content = firstn 2000 message
    /\ List.length content <= 2000
    /\ (List.length message <= 2000 -> content = message)
    /\ report webhook message h
       = (Ok tt,
          h ++ [ConsoleInfo message; WebhookSend webhook content]
            ++ match fails (h ++ [ConsoleInfo message])
                           (WebhookSend webhook content) with
               | Some e => [ConsoleErrorWebhook e]
               | None => []
               end).
Proof.
  exists (firstn 2000 message). split; [reflexivity|].
  split; [rewrite length_firstn; lia|].
  split; [apply firstn_all2|]. apply report_calls.
Qed.

(** *** More on loading *)

(** X11. Loading composes: the arrays for two runs of lines put end to end
    are the arrays of the first run followed by those of the second. *)
Theorem loadLoop_app (lines1 lines2 : list jsstring) :
  loadLoop (lines1 ++ lines2)
  = (fst (loadLoop lines1) ++ fst (loadLoop lines2),
     snd (loadLoop lines1) ++ snd (loadLoop lines2)).
Proof.
  unfold loadLoop. rewrite fold_left_app, !loadLoop_from. reflexivity.
Qed.

(** X12. What the loader returns is sound: every accepted entry is what the
    chain returns for one of the lines, and every failed entry holds one of
    the lines, which the chain rejects, with the message of the error or
    [Unknown error.] for an empty message, so never an empty message. *)
Theorem loadLoop_sound (lines : list jsstring) :
  (forall entry,
     In entry (fst (loadLoop lines)) ->
     exists l, In l lines /\ validate l = Ok entry)
  /\ (forall failed,
        In failed (snd (loadLoop lines)) ->
        In (line failed) lines
        /\ error failed <> []
        /\ exists e,
             validate (line failed) = Throw e
             /\ error failed = if str_eqb e [] then js "Unknown error."
                               else e).
Proof.
  unfold loadLoop. rewrite loadLoop_from. simpl.
  assert (Hnb : forall l, In l (nonBlank lines) -> In l lines).
  { intros l Hl. unfold nonBlank in Hl. apply filter_In in Hl. tauto. }
  split.
  - intros entry Hin. apply in_flat_map in Hin as (l & Hl & He).
    exists l. split; [auto|]. unfold acceptedOf in He.
    destruct (validate l); [|destruct He].
    destruct He as [<-|[]]. reflexivity.
  - intros failed Hin. apply in_flat_map in Hin as (l & Hl & He).
    unfold rejectedOf in He. destruct (validate l) as [|e] eqn:E;
      [destruct He|].
    destruct He as [<-|[]]. simpl. split; [auto|]. split.
    + unfold messageOf. destruct (str_eqb e []) eqn:Ee; [discriminate|].
      apply str_eqb_neq in Ee. exact Ee.
    + exists e. split; [exact E | reflexivity].
Qed.

(** *** More on inserting *)





Lemma issue_Ok_inv (batches : list (list jsobject)) (h h' : list event) :
  issue batches h = (Ok tt, h') ->
  forall n, n < List.length batches -> accepted h batches n.
Proof.
  revert h; induction batches as [|b rest IH]; intros h H n Hn.
  - simpl in Hn. lia.
  - simpl in H. destruct (fails h (queryOf b)) eqn:E; [discriminate H|].
    unfold accepted. destruct n as [|n]; simpl.
    + rewrite app_nil_r. exact E.
    + pose proof (IH _ H n ltac:(simpl in Hn; lia)) as Hacc.
      unfold accepted in Hacc. rewrite <- app_assoc in Hacc. exact Hacc.
Qed.

(** X14. [insertEntries] returns normally exactly when every bulk insert is
    accepted and the pool closes without error; an error on closing the
    pool is thrown to the caller although every row was inserted. *)
Theorem insertEntries_outcome (db : json) (entries : list jsobject)
    (h : list event) :
  let batches := chunks entries in
  let started := h ++ [CreatePool db] in
  (fst (insertEntries db entries h) = Ok tt
   <-> (forall n, n < List.length batches -> accepted started batches n)
       /\ fails (started ++ map queryOf batches) PoolEnd = None)
  /\ (forall e,
        (forall n, n < List.length batches -> accepted started batches n) ->
        fails (started ++ map queryOf batches) PoolEnd = Some e ->
        insertEntries db entries h
        = (Throw e, started ++ map queryOf batches ++ [PoolEnd])).
Proof.
  intros batches started. subst batches started. split; [split|].
  - intros H. rewrite insertEntries_issue in H.
    destruct (issue (chunks entries) (h ++ [CreatePool db]))
      as [[[]|e] h'] eqn:E; [|discriminate H].
    pose proof (issue_Ok_inv _ _ _ E) as Hacc. split; [exact Hacc|].
    rewrite (issue_ok _ _ Hacc) in E. injection E as <-.
    unfold call in H. destruct (fails _ PoolEnd); [discriminate H|].
    reflexivity.
  - intros [Hacc Hend]. rewrite insertEntries_ok by exact Hacc.
    unfold call. rewrite Hend. reflexivity.
  - intros e Hacc Hend. rewrite insertEntries_ok by exact Hacc.
    unfold call. rewrite Hend, <- app_assoc. reflexivity.
Qed.

(** *** The kinds of calls a run makes *)

Lemma only_ret {A} (P : event -> bool) (a : A) : only P (ret a).
Proof.
  intros h. exists (Ok a), []. rewrite app_nil_r. split; reflexivity.
Qed.

Lemma only_emit (P : event -> bool) (ev : event) :
  P ev = true -> only P (emit ev).
Proof.
  intros H h. exists (Ok tt), [ev]. split; [reflexivity|].
  simpl. rewrite H. reflexivity.
Qed.

Lemma only_call (P : event -> bool) (ev : event) :
  P ev = true -> only P (call ev).
Proof.
  intros H h. unfold call.
  destruct (fails h ev); do 2 eexists; (split; [reflexivity|]);
    simpl; rewrite H; reflexivity.
Qed.

Lemma only_bind {A B} (P : event -> bool) (m : M A) (f : A -> M B) :
  only P m -> (forall a, only P (f a)) -> only P (bind m f).
Proof.
  intros Hm Hf h. unfold bind.
  destruct (Hm h) as (r & c1 & -> & H1). destruct r as [a|e].
  - destruct (Hf a (h ++ c1)) as (r & c2 & -> & H2).
    exists r, (c1 ++ c2). rewrite app_assoc. split; [reflexivity|].
    rewrite forallb_app, H1, H2. reflexivity.
  - exists (Throw e), c1. split; [reflexivity | exact H1].
Qed.

Lemma only_when (P : event -> bool) (c : bool) (m : M unit) :
  (c = true -> only P m) -> only P (when c m).
Proof. destruct c; simpl; [auto | intros _; apply only_ret]. Qed.

Lemma only_tryCatch {A} (P : event -> bool) (body : M A)
    (handler : jsstring -> M A) :
  only P body -> (forall e, only P (handler e)) -> only P (tryCatch body handler).
Proof.
  intros Hb Hh h. unfold tryCatch.
  destruct (Hb h) as (r & c1 & -> & H1). destruct r as [a|e].
  - exists (Ok a), c1. split; [reflexivity | exact H1].
  - destruct (Hh e (h ++ c1)) as (r & c2 & -> & H2).
    exists r, (c1 ++ c2). rewrite app_assoc. split; [reflexivity|].
    rewrite forallb_app, H1, H2. reflexivity.
Qed.

Section Kinds.

Variable P : event -> bool.
Hypothesis P_report : forall ev, reportEvent ev = true -> P ev = true.

Lemma only_report (webhook : json) (message : jsstring) :
  only P (report webhook message).
Proof.
  unfold report. apply only_bind.
  - apply only_emit, P_report. reflexivity.
  - intros _. apply only_tryCatch.
    + apply only_call, P_report. reflexivity.
    + intros e. apply only_emit, P_report. reflexivity.
Qed.

Lemma only_reportFailedEntries (webhook : json)
    (entries : list failedEntry) :
  (forall es, P (ConsoleDebug es) = true) ->
  only P (reportFailedEntries webhook entries).
Proof.
  intros Hd. unfold reportFailedEntries.
  destruct (List.length entries =? 0)%nat; [apply only_ret|].
  apply only_bind; [apply only_report|]. intros _.
  apply only_when. intros _. apply only_emit, Hd.
Qed.

Lemma only_issue (batches : list (list jsobject)) (h : list event) :
  (forall ev, poolEvent ev = true -> P ev = true) ->
  exists r calls,
    issue batches h = (r, h ++ calls) /\ forallb P calls = true.
Proof.
  intros Hp. revert h; induction batches as [|b rest IH]; intros h; simpl.
  - exists (Ok tt), []. rewrite app_nil_r. split; reflexivity.
  - assert (Hq : P (queryOf b) = true) by (apply Hp; reflexivity).
    destruct (fails h (queryOf b)).
    + do 2 eexists. split; [reflexivity|]. simpl. rewrite Hq. reflexivity.
    + destruct (IH (h ++ [queryOf b])) as (r & calls & E & Q).
      rewrite E. exists r, (queryOf b :: calls). rewrite <- app_assoc.
      split; [reflexivity|]. simpl. rewrite Hq, Q. reflexivity.
Qed.

Lemma only_insertEntries (db : json) (entries : list jsobject) :
  (forall ev, poolEvent ev = true -> P ev = true) ->
  only P (insertEntries db entries).
Proof.
  intros Hp h. rewrite insertEntries_issue.
  destruct (only_issue (chunks entries) (h ++ [CreatePool db]) Hp)
    as (r & calls & E & Q).
  assert (Hc : P (CreatePool db) = true) by (apply Hp; reflexivity).
  assert (He : P PoolEnd = true) by (apply Hp; reflexivity).
  rewrite E. destruct r as [[]|e].
  - unfold call.
    destruct (fails _ PoolEnd);
      do 2 eexists;
      (split;
       [rewrite <- !app_assoc; reflexivity
       |rewrite forallb_app, forallb_app; simpl; rewrite Hc, Q, He;
        reflexivity]).
  - exists (Throw e), (CreatePool db :: calls). rewrite <- app_assoc.
    split; [reflexivity|]. simpl. rewrite Hc, Q. reflexivity.
Qed.

End Kinds.

Lemma only_loadEntries (P : event -> bool) (file : jsstring) :
  P (OpenStream file) = true -> P (EndOfStream file) = true ->
  only P (loadEntries file).
Proof.
  intros Ho He h. unfold loadEntries.
  destruct (stream h file) as [lines [e|]].
  - exists (Throw e), [OpenStream file]. split; [reflexivity|].
    simpl. rewrite Ho. reflexivity.
  - exists (Ok (loadLoop lines)), [OpenStream file; EndOfStream file].
    rewrite <- app_assoc. split; [reflexivity|].
    simpl. rewrite Ho, He. reflexivity.
Qed.

(** The kinds of calls of the [try] block: reports, the stream, the list of
    failed entries on the console, the backup and the truncation unless
    truncation is off, the pool unless insertion is off. *)
Lemma only_transfer (P : event -> bool) (argv : list jsstring)
    (cfg : config) :
  (forall ev, reportEvent ev = true -> P ev = true) ->
  (forall es, P (ConsoleDebug es) = true) ->
  P (OpenStream (path cfg)) = true ->
  P (EndOfStream (path cfg)) = true ->
  (includes argv (js "--no-truncate") = false ->
   forall ev, backupEvent ev = true -> P ev = true) ->
  (includes argv (js "--no-insert") = false ->
   forall ev, poolEvent ev = true -> P ev = true) ->
  only P (transfer argv cfg).
Proof.
  intros Hrep Hdbg Hopen Hend Hbackup Hpool. unfold transfer.
  apply only_bind; [apply only_report, Hrep|]. intros _.
  apply only_bind.
  { apply only_when. intros Ht. apply negb_true_iff in Ht.
    apply only_call, (Hbackup Ht). reflexivity. }
  intros _. apply only_bind; [apply only_loadEntries; assumption|].
  intros [entries failedEntries]. apply only_bind.
  { apply only_when. intros Ht. apply negb_true_iff in Ht.
    apply only_call, (Hbackup Ht). reflexivity. }
  intros _. apply only_bind.
  { apply only_reportFailedEntries; assumption. }
  intros _. apply only_bind.
  { apply only_when. intros Hi. apply negb_true_iff in Hi.
    apply only_insertEntries, (Hpool Hi). }
  intros _. apply only_report, Hrep.
Qed.

(** The [catch] block: a report, the error on the console, the exit. *)
Lemma catch_calls (webhook : json) (e : jsstring) (h : list event) :
  exists calls,
    (report webhook (js "Log transfer failed: " ++ e) ;;
     emit (ConsoleErrorFull e) ;;
     emit (ProcessExit 1)) h
    = (Ok tt, h ++ calls ++ [ConsoleErrorFull e; ProcessExit 1])
    /\ forallb reportEvent calls = true
    /\ In (ConsoleInfo (js "Log transfer failed: " ++ e)) calls.
Proof.
  set (message := js "Log transfer failed: " ++ e).
  rewrite (bind_Ok _ _ _ _ _ (report_calls webhook message h)).
  unfold bind, emit.
  exists ([ConsoleInfo message; WebhookSend webhook (firstn 2000 message)]
          ++ match fails (h ++ [ConsoleInfo message])
                         (WebhookSend webhook (firstn 2000 message)) with
             | Some e' => [ConsoleErrorWebhook e']
             | None => []
             end).
  split; [|split].
  - f_equal. rewrite <- !app_assoc. reflexivity.
  - destruct (fails _ _); reflexivity.
  - left. reflexivity.
Qed.

(** From the [try] on, a run ends in one of two ways, and returns. *)
Lemma main_ends (argv : list jsstring) (cfg : config) (h : list event) :
  exists calls,
    forallb (fun ev => negb (endingEvent ev)) calls = true
    /\ ((fst (transfer argv cfg h) = Ok tt
         /\ main argv cfg h
            = (Ok tt, h ++ calls ++ [WebhookDestroy (discord cfg)]))
        \/ (exists e,
              fst (transfer argv cfg h) = Throw e
              /\ main argv cfg h
                 = (Ok tt, h ++ calls ++ [ConsoleErrorFull e; ProcessExit 1])
              /\ In (ConsoleInfo (js "Log transfer failed: " ++ e)) calls)).
Proof.
  destruct (only_transfer (fun ev => negb (endingEvent ev)) argv cfg)
    with (h := h) as (r & calls & E & Q);
    try (intros; match goal with
                 | H : _ ?ev = true |- _ => destruct ev; try discriminate H
                 end; reflexivity);
    try reflexivity.
  unfold main. rewrite E. destruct r as [[]|e].
  - exists calls. split; [exact Q|]. left. split; [reflexivity|].
    unfold emit. rewrite <- app_assoc. reflexivity.
  - destruct (catch_calls (discord cfg) e (h ++ calls))
      as (c & Ec & Qc & Hin).
    rewrite Ec. exists (calls ++ c). split.
    + rewrite forallb_app, Q. simpl.
      rewrite forallb_forall in Qc |- *. intros ev Hev.
      apply Qc in Hev. destruct ev; try discriminate Hev; reflexivity.
    + right. exists e. split; [reflexivity|]. split.
      * rewrite <- !app_assoc. reflexivity.
      * apply in_or_app. right. exact Hin.
Qed.

(** X15. How [main()] ends. An error of one of the two statements that
    stand before the [try] (the configuration cannot be loaded, the webhook
    client cannot be built) is the rejection of [main()]: nothing has been
    written to the console or sent to the webhook, the log file and the pool
    have not been touched, and the process is not made to exit. That is the
    only way in which [main()] rejects. Once the two statements have
    returned, the run ends in exactly one of two ways. When the [try] block
    returns, the last call is [webhook.destroy()] and the process is not
    made to exit. When the [try] block throws, the failure is reported with
    the message of the error, the error is written to the console and the
    last call is [process.exit(1)]; the webhook is not destroyed. *)
Theorem main_entry_ends (loaded : result config) (argv : list jsstring)
    (h : list event) :
  (fst (main_entry loaded argv h) = Ok tt <-> exists cfg, loaded = Ok cfg)
  /\ (forall e,
        loaded = Throw e -> main_entry loaded argv h = (Throw e, h))
  /\ (forall cfg,
        loaded = Ok cfg ->
        exists calls,
          forallb (fun ev => negb (endingEvent ev)) calls = true
          /\ ((fst (transfer argv cfg h) = Ok tt
               /\ main_entry loaded argv h
                  = (Ok tt, h ++ calls ++ [WebhookDestroy (discord cfg)]))
              \/ (exists e,
                    fst (transfer argv cfg h) = Throw e
                    /\ main_entry loaded argv h
                       = (Ok tt,
                          h ++ calls ++ [ConsoleErrorFull e; ProcessExit 1])
                    /\ In (ConsoleInfo (js "Log transfer failed: " ++ e))
                          calls))).
Proof.
  destruct loaded as [cfg|e]; unfold main_entry.
  - split; [|split].
    + split; [intros _; exists cfg; reflexivity|]. intros _.
      destruct (main_ends argv cfg h) as (calls & _ & [[_ E]|(e & _ & E & _)]);
        rewrite E; reflexivity.
    + intros e H. discriminate H.
    + intros cfg' H. injection H as <-. exact (main_ends argv cfg h).
  - split; [|split].
    + split; [intros H; discriminate H|]. intros [cfg H]. discriminate H.
    + intros e' H. injection H as <-. reflexivity.
    + intros cfg H. discriminate H.
Qed.

Lemma only_main (P : event -> bool) (argv : list jsstring) (cfg : config) :
  (forall ev, reportEvent ev = true -> P ev = true) ->
  (forall ev, endingEvent ev = true -> P ev = true) ->
  (forall es, P (ConsoleDebug es) = true) ->
  P (OpenStream (path cfg)) = true ->
  P (EndOfStream (path cfg)) = true ->
  (includes argv (js "--no-truncate") = false ->
   forall ev, backupEvent ev = true -> P ev = true) ->
  (includes argv (js "--no-insert") = false ->
   forall ev, poolEvent ev = true -> P ev = true) ->
  only P (main argv cfg).
Proof.
  intros Hrep Hending Hdbg Hopen Hend Hbackup Hpool h.
  destruct (only_transfer P argv cfg Hrep Hdbg Hopen Hend Hbackup Hpool h)
    as (r & calls & E & Q).
  unfold main. rewrite E. destruct r as [[]|e].
  - exists (Ok tt), (calls ++ [WebhookDestroy (discord cfg)]).
    unfold emit. rewrite app_assoc. split; [reflexivity|].
    rewrite forallb_app, Q. simpl. rewrite Hending; reflexivity.
  - destruct (catch_calls (discord cfg) e (h ++ calls))
      as (c & Ec & Qc & _).
    rewrite Ec. exists (Ok tt), (calls ++ c ++ [ConsoleErrorFull e; ProcessExit 1]).
    rewrite <- !app_assoc. split; [reflexivity|].
    rewrite !forallb_app, Q. simpl.
    rewrite !Hending by reflexivity.
    replace (forallb P c) with true; [reflexivity|].
    symmetry. rewrite forallb_forall in Qc |- *. intros ev Hev.
    apply Hrep, Qc, Hev.
Qed.

(** X16. The two switches. With [--no-truncate] a run makes no backup and
    does not truncate the source file. With [--no-insert] a run makes no
    call to the pool: none is created, queried or closed. *)
Theorem main_switches (argv : list jsstring) (cfg : config)
    (h : list event) :
  exists calls,
    snd (main argv cfg h) = h ++ calls
    /\ (includes argv (js "--no-truncate") = true ->
        forall ev, In ev calls -> backupEvent ev = false)
    /\ (includes argv (js "--no-insert") = true ->
        forall ev, In ev calls -> poolEvent ev = false).
Proof.
  destruct (main_shape argv cfg h) as (A & C & _ & _ & E).
  eexists. split; [rewrite E; simpl; rewrite <- app_assoc; reflexivity|].
  assert (Hsame : forall calls,
             snd (main argv cfg h) = h ++ calls ->
             calls = A ++ fileCalls argv cfg (h ++ A) ++ C).
  { intros calls Hc. rewrite E in Hc. simpl in Hc.
    rewrite <- app_assoc in Hc. apply app_inv_head in Hc. auto. }
  split; intros Hflag ev Hin.
  - destruct (only_main (fun ev => negb (backupEvent ev)) argv cfg)
      with (h := h) as (r & calls & E' & Q);
      try (intros; match goal with
                   | H : _ ?ev = true |- _ => destruct ev; try discriminate H
                   end; reflexivity);
      try reflexivity; try (intros Hf; congruence).
    rewrite (Hsame calls) in Q by (rewrite E'; reflexivity).
    rewrite forallb_forall in Q. apply Q in Hin.
    apply negb_true_iff in Hin. exact Hin.
  - destruct (only_main (fun ev => negb (poolEvent ev)) argv cfg)
      with (h := h) as (r & calls & E' & Q);
      try (intros; match goal with
                   | H : _ ?ev = true |- _ => destruct ev; try discriminate H
                   end; reflexivity);
      try reflexivity; try (intros Hf; congruence).
    rewrite (Hsame calls) in Q by (rewrite E'; reflexivity).
    rewrite forallb_forall in Q. apply Q in Hin.
    apply negb_true_iff in Hin. exact Hin.
Qed.

(** *** A run in which nothing fails *)

Section CleanRun.

Hypothesis no_failure : forall h ev, fails h ev = None.

Lemma call_clean (ev : event) (h : list event) :
  call ev h = (Ok tt, h ++ [ev]).
Proof. unfold call. rewrite no_failure. reflexivity. Qed.

Lemma when_call_clean (c : bool) (ev : event) (h : list event) :
  when c (call ev) h = (Ok tt, h ++ if c then [ev] else []).
Proof.
  destruct c; simpl; [apply call_clean|].
  unfold ret. rewrite app_nil_r. reflexivity.
Qed.

Lemma report_clean (webhook : json) (message : jsstring) (h : list event) :
  report webhook message h = (Ok tt, h ++ said webhook message).
Proof. rewrite report_calls, no_failure, app_nil_r. reflexivity. Qed.

Lemma reportFailedEntries_clean (webhook : json)
    (failed : list failedEntry) (h : list event) :
  reportFailedEntries webhook failed h
  = (Ok tt, h ++ failureReport webhook failed).
Proof.
  unfold reportFailedEntries, failureReport.
  destruct (List.length failed =? 0)%nat.
  - unfold ret. rewrite app_nil_r. reflexivity.
  - rewrite (bind_Ok _ _ _ _ _ (report_clean webhook _ h)).
    unfold when, ret, emit, said.
    destruct (5 <? List.length failed)%nat; rewrite <- ?app_assoc;
      [reflexivity|]. rewrite app_nil_r. reflexivity.
Qed.

Lemma insertEntries_clean (db : json) (entries : list jsobject)
    (h : list event) :
  insertEntries db entries h
  = (Ok tt, h ++ CreatePool db :: map queryOf (chunks entries) ++ [PoolEnd]).
Proof.
  rewrite insertEntries_ok by (intros n _; apply no_failure).
  rewrite call_clean, <- !app_assoc. reflexivity.
Qed.

Lemma transfer_clean (argv : list jsstring) (cfg : config)
    (lines : list jsstring) (h : list event) :
  (forall h', stream h' (path cfg) = (lines, None)) ->
  transfer argv cfg h
  = (Ok tt,
     h ++ said (discord cfg) (js "Log transfer started.")
       ++ (if includes argv (js "--no-truncate") then []
           else [CopyFile (path cfg) (backup cfg)])
       ++ [OpenStream (path cfg); EndOfStream (path cfg)]
       ++ (if includes argv (js "--no-truncate") then []
           else [Truncate (path cfg)])
       ++ failureReport (discord cfg) (snd (loadLoop lines))
       ++ (if includes argv (js "--no-insert") then []
           else CreatePool (db cfg)
                :: map queryOf (chunks (fst (loadLoop lines))) ++ [PoolEnd])
       ++ said (discord cfg)
            (natToString (List.length (fst (loadLoop lines)))
             ++ js " entries successfully transferred.")).
Proof.
  intros Hstream. unfold transfer.
  rewrite (bind_Ok _ _ _ _ _ (report_clean _ _ h)).
  rewrite (bind_Ok _ _ _ _ _ (when_call_clean _ _ _)).
  assert (Hload : forall h0,
             loadEntries (path cfg) h0
             = (Ok (loadLoop lines),
                h0 ++ [OpenStream (path cfg); EndOfStream (path cfg)])).
  { intros h0. unfold loadEntries. rewrite Hstream, <- app_assoc.
    reflexivity. }
  rewrite (bind_Ok _ _ _ _ _ (Hload _)).
  destruct (loadLoop lines) as [entries failed]. cbn [fst snd].
  rewrite (bind_Ok _ _ _ _ _ (when_call_clean _ _ _)).
  rewrite (bind_Ok _ _ _ _ _ (reportFailedEntries_clean _ _ _)).
  assert (Hins : forall c h0,
             when c (insertEntries (db cfg) entries) h0
             = (Ok tt,
                h0 ++ if c then CreatePool (db cfg)
                                :: map queryOf (chunks entries) ++ [PoolEnd]
                      else [])).
  { intros c h0. destruct c; simpl; [apply insertEntries_clean|].
    unfold ret. rewrite app_nil_r. reflexivity. }
  rewrite (bind_Ok _ _ _ _ _ (Hins _ _)).
  rewrite report_clean.
  destruct (includes argv (js "--no-truncate")),
    (includes argv (js "--no-insert")); cbn [negb];
    rewrite <- !app_assoc; reflexivity.
Qed.

Lemma chunks_nil : chunks [] = [].
Proof.
  apply length_zero_iff_nil. rewrite chunks_length.
  pose proof (divUp_gt (@List.length jsobject []) CHUNK_SIZE 0
                CHUNK_SIZE_pos) as H.
  cbn [List.length] in *. lia.
Qed.

Lemma loadLoop_blank (lines : list jsstring) :
  forallb (forallb isWhiteSpace) lines = true -> loadLoop lines = ([], []).
Proof.
  intros H. unfold loadLoop. rewrite loadLoop_from.
  replace (nonBlank lines) with (@nil jsstring); [reflexivity|].
  symmetry. unfold nonBlank. induction lines as [|l lines IH];
    [reflexivity|].
  simpl in H |- *. apply andb_true_iff in H as [Hl H].
  rewrite Hl. simpl. apply IH, H.
Qed.

(** X17. The calls of a run in which nothing fails, in order: the start is
    announced; the source is copied to the backup (unless truncation is
    off); the stream is opened and read to its end; the source is truncated
    (unless truncation is off); the failed entries are reported, if any;
    the pool is created, one bulk insert is issued per chunk of accepted
    entries and the pool is closed (unless insertion is off); the number of
    accepted entries is announced; the webhook is destroyed. On a source
    with blank lines only, nothing is reported as failed, the pool is opened
    and closed without an insert, and the count announced is 0. *)
Theorem main_clean_run (argv : list jsstring) (cfg : config)
    (lines : list jsstring) (h : list event) :
  (forall h', stream h' (path cfg) = (lines, None)) ->
  main argv cfg h
  = (Ok tt,
     h ++ said (discord cfg) (js "Log transfer started.")
       ++ (if includes argv (js "--no-truncate") then []
           else [CopyFile (path cfg) (backup cfg)])
       ++ [OpenStream (path cfg); EndOfStream (path cfg)]
       ++ (if includes argv (js "--no-truncate") then []
           else [Truncate (path cfg)])
       ++ failureReport (discord cfg) (snd (loadLoop lines))
       ++ (if includes argv (js "--no-insert") then []
           else CreatePool (db cfg)
                :: map queryOf (chunks (fst (loadLoop lines))) ++ [PoolEnd])
       ++ said (discord cfg)
            (natToString (List.length (fst (loadLoop lines)))
             ++ js " entries successfully transferred.")
       ++ [WebhookDestroy (discord cfg)])
  /\ (forallb (forallb isWhiteSpace) lines = true ->
      main argv cfg h
      = (Ok tt,
         h ++ said (discord cfg) (js "Log transfer started.")
           ++ (if includes argv (js "--no-truncate") then []
               else [CopyFile (path cfg) (backup cfg)])
           ++ [OpenStream (path cfg); EndOfStream (path cfg)]
           ++ (if includes argv (js "--no-truncate") then []
               else [Truncate (path cfg)])
           ++ (if includes argv (js "--no-insert") then []
               else [CreatePool (db cfg); PoolEnd])
           ++ said (discord cfg) (js "0 entries successfully transferred.")
           ++ [WebhookDestroy (discord cfg)])).
Proof.
  intros Hstream.
  assert (Hmain : forall calls,
             transfer argv cfg h = (Ok tt, h ++ calls) ->
             main argv cfg h
             = (Ok tt, h ++ calls ++ [WebhookDestroy (discord cfg)])).
  { intros calls E. unfold main. rewrite E. unfold emit.
    rewrite <- app_assoc. reflexivity. }
  pose proof (transfer_clean argv cfg lines h Hstream) as E.
  split.
  - rewrite (Hmain _ E). rewrite <- !app_assoc. reflexivity.
  - intros Hblank. rewrite (loadLoop_blank lines Hblank) in E.
    cbn [fst snd List.length] in E. rewrite chunks_nil in E.
    rewrite (Hmain _ E). unfold failureReport.
    cbn [List.length Nat.eqb map]. rewrite <- !app_assoc. reflexivity.
Qed.

End CleanRun.

(** *** The pool comes after the files *)

Lemma transfer_phases (argv : list jsstring) (cfg : config)
    (h : list event) :
  exists r before after,
    forallb reportEvent before = true /\ quiet after
    /\ transfer argv cfg h
       = (r, (h ++ before) ++ fileCalls argv cfg (h ++ before) ++ after)
    /\ (after = []
        \/ (fileCalls argv cfg (h ++ before) = wholeFileCalls argv cfg
            /\ filesDone argv cfg (h ++ before))).
Proof.
  unfold transfer.
  pose proof (report_calls (discord cfg) (js "Log transfer started.") h)
    as EA.
  set (A := [ConsoleInfo (js "Log transfer started.");
             WebhookSend (discord cfg)
               (firstn 2000 (js "Log transfer started."))]
            ++ match fails (h ++ [ConsoleInfo (js "Log transfer started.")])
                           (WebhookSend (discord cfg)
                              (firstn 2000 (js "Log transfer started."))) with
               | Some e => [ConsoleErrorWebhook e]
               | None => []
               end) in EA.
  assert (QA : forallb reportEvent A = true)
    by (unfold A; destruct (fails _ _); reflexivity).
  clearbody A.
  rewrite (bind_Ok _ _ _ _ _ EA).
  unfold fileCalls, wholeFileCalls, filesDone.
  destruct (includes argv (js "--no-truncate")); cbn [negb when].
  - (* no truncation *)
    unfold bind at 1, ret at 1. unfold bind at 1, loadEntries.
    destruct (stream (h ++ A) (path cfg)) as [lines [e|]] eqn:Es.
    + exists (Throw e), A, []. rewrite Es, app_nil_r.
      split; [exact QA|]. split; [constructor|].
      split; [reflexivity | left; reflexivity].
    + destruct (loadLoop lines) as [entries failedEntries].
      unfold bind at 1, ret at 1.
      match goal with
      | |- context [bind (reportFailedEntries ?w ?f) _ ?h0] =>
          destruct (after_files_quiet w f
                      (negb (includes argv (js "--no-insert"))) (db cfg)
                      entries
                      (natToString (List.length entries)
                       ++ js " entries successfully transferred.") h0)
            as (r & calls & E & Q)
      end.
      exists r, A, calls. rewrite E, Es. simpl. rewrite <- !app_assoc.
      split; [exact QA|]. split; [exact Q|].
      split; [reflexivity | right; split; reflexivity].
  - (* truncation *)
    unfold bind at 1, call at 1.
    destruct (fails (h ++ A) (CopyFile (path cfg) (backup cfg))) as [e|]
      eqn:Ec.
    + exists (Throw e), A, []. rewrite Ec, app_nil_r.
      split; [exact QA|]. split; [constructor|].
      split; [reflexivity | left; reflexivity].
    + unfold bind at 1, loadEntries.
      destruct (stream ((h ++ A) ++ [CopyFile (path cfg) (backup cfg)])
                       (path cfg)) as [lines [e|]] eqn:Es.
      * exists (Throw e), A, []. rewrite Ec, Es, app_nil_r. simpl.
        split; [exact QA|]. split; [constructor|].
        split; [rewrite <- !app_assoc; reflexivity | left; reflexivity].
      * destruct (loadLoop lines) as [entries failedEntries].
        unfold bind at 1, call at 1.
        destruct (fails _ (Truncate (path cfg))) as [e|] eqn:Et.
        -- exists (Throw e), A, []. rewrite Ec, Es, app_nil_r. simpl.
           split; [exact QA|]. split; [constructor|].
           split; [rewrite <- !app_assoc; reflexivity | left; reflexivity].
        -- match goal with
           | |- context [bind (reportFailedEntries ?w ?f) _ ?h0] =>
               destruct (after_files_quiet w f
                           (negb (includes argv (js "--no-insert")))
                           (db cfg) entries
                           (natToString (List.length entries)
                            ++ js " entries successfully transferred.") h0)
                 as (r & calls & E & Q)
           end.
           exists r, A, calls. rewrite E, Ec, Es. simpl.
           split; [exact QA|]. split; [exact Q|].
           split; [rewrite <- !app_assoc; reflexivity|].
           right. split; [reflexivity|]. split; [reflexivity|].
           split; [reflexivity|].
           rewrite <- !app_assoc in Et. rewrite <- !app_assoc.
           exact Et.
Qed.

Lemma main_phases (argv : list jsstring) (cfg : config) (h : list event) :
  exists before after,
    forallb reportEvent before = true /\ quiet after
    /\ snd (main argv cfg h)
       = h ++ before ++ fileCalls argv cfg (h ++ before) ++ after
    /\ (forallb (fun ev => negb (poolEvent ev)) after = true
        \/ (fileCalls argv cfg (h ++ before) = wholeFileCalls argv cfg
            /\ filesDone argv cfg (h ++ before))).
Proof.
  destruct (transfer_phases argv cfg h)
    as (r & A & C & QA & QC & E & Hwhole).
  unfold main. rewrite E. destruct r as [[]|e].
  - exists A, (C ++ [WebhookDestroy (discord cfg)]). unfold emit.
    split; [exact QA|]. split.
    { apply quiet_app; [exact QC | repeat constructor]. }
    split; [simpl; rewrite <- !app_assoc; reflexivity|].
    destruct Hwhole as [-> | Hw]; [left; reflexivity | right; exact Hw].
  - destruct (catch_calls (discord cfg) e
                ((h ++ A) ++ fileCalls argv cfg (h ++ A) ++ C))
      as (c & Ec & Qc & _).
    rewrite Ec. exists A, (C ++ c ++ [ConsoleErrorFull e; ProcessExit 1]).
    split; [exact QA|].
    assert (Hc : forall P : event -> bool,
               (forall ev, reportEvent ev = true -> P ev = true) ->
               forallb P c = true).
    { intros P HP. rewrite forallb_forall in Qc |- *.
      intros ev Hev. apply HP, Qc, Hev. }
    split.
    { apply quiet_app; [exact QC|]. apply quiet_app; [|repeat constructor].
      unfold quiet. rewrite Forall_forall. intros ev Hev.
      rewrite forallb_forall in Qc. apply Qc in Hev.
      destruct ev; try discriminate Hev; reflexivity. }
    split; [simpl; rewrite <- !app_assoc; reflexivity|].
    destruct Hwhole as [-> | Hw]; [left | right; exact Hw].
    simpl. rewrite forallb_app. simpl. rewrite Hc; [reflexivity|].
    intros ev Hev. destruct ev; try discriminate Hev; reflexivity.
Qed.

Lemma split_after (P : event -> bool) (L C pre post : list event)
    (x : event) :
  forallb (fun y => negb (P y)) L = true -> P x = true ->
  L ++ C = pre ++ x :: post ->
  exists c1, pre = L ++ c1 /\ C = c1 ++ x :: post.
Proof.
  intros HL Hx. revert pre. induction L as [|y L IH]; intros pre H.
  - exists pre. split; [reflexivity | exact H].
  - simpl in HL. apply andb_true_iff in HL as [Hy HL].
    destruct pre as [|p pre]; simpl in H; injection H as -> H.
    + rewrite Hx in Hy. discriminate Hy.
    + destruct (IH HL pre H) as (c1 & -> & ->). exists c1.
      split; reflexivity.
Qed.

(** X18. In a run every call to the pool comes after the work on the
    files is done. When the pool is created, queried or closed, insertion
    is on and the calls to the files have all been made and have returned
    without an error: the stream over the source was opened and read to its
    end and, unless truncation is off, the backup was made before it and
    the source was truncated after it. No call to the files follows. So an
    insert that fails finds the source file already truncated. *)
Theorem main_pool_after_files (argv : list jsstring) (cfg : config)
    (h : list event) :
  exists calls,
    snd (main argv cfg h) = h ++ calls
    /\ forall pre ev post,
         calls = pre ++ ev :: post ->
         poolEvent ev = true ->
         includes argv (js "--no-insert") = false
         /\ (includes argv (js "--no-truncate") = true ->
             exists before after,
               pre = before
                     ++ [OpenStream (path cfg); EndOfStream (path cfg)]
                     ++ after
               /\ snd (stream (h ++ before) (path cfg)) = None)
         /\ (includes argv (js "--no-truncate") = false ->
             exists before after,
               pre = before
                     ++ [CopyFile (path cfg) (backup cfg);
                         OpenStream (path cfg); EndOfStream (path cfg);
                         Truncate (path cfg)]
                     ++ after
               /\ fails (h ++ before) (CopyFile (path cfg) (backup cfg))
                  = None
               /\ snd (stream ((h ++ before)
                                 ++ [CopyFile (path cfg) (backup cfg)])
                              (path cfg)) = None
               /\ fails ((h ++ before)
                           ++ [CopyFile (path cfg) (backup cfg);
                               OpenStream (path cfg); EndOfStream (path cfg)])
                        (Truncate (path cfg)) = None)
         /\ (forall x, In x post -> fileEvent x = false).
Proof.
  destruct (main_phases argv cfg h) as (A & C & QA & QC & E & Hwhole).
  exists (A ++ fileCalls argv cfg (h ++ A) ++ C). split; [exact E|].
  intros pre ev post H Hev.
  assert (Hins : includes argv (js "--no-insert") = false).
  { destruct (includes argv (js "--no-insert")) eqn:Hflag; [|reflexivity].
    exfalso.
    destruct (only_main (fun ev => negb (poolEvent ev)) argv cfg)
      with (h := h) as (r & calls & E' & Q);
      try (intros; match goal with
                   | H : _ ?ev = true |- _ => destruct ev; try discriminate H
                   end; reflexivity);
      try reflexivity; try (intros Hf; congruence).
    rewrite E' in E. simpl in E. apply app_inv_head in E. subst calls.
    rewrite H in Q. rewrite forallb_app in Q.
    apply andb_true_iff in Q as [_ Q]. simpl in Q. rewrite Hev in Q.
    discriminate Q. }
  split; [exact Hins|].
  assert (HL : forallb (fun y => negb (poolEvent y))
                 (A ++ fileCalls argv cfg (h ++ A)) = true).
  { rewrite forallb_app. apply andb_true_iff. split.
    - rewrite forallb_forall in QA |- *. intros y Hy. apply QA in Hy.
      destruct y; try discriminate Hy; reflexivity.
    - unfold fileCalls.
      destruct (includes argv (js "--no-truncate")).
      + destruct (snd (stream _ _)); reflexivity.
      + destruct (fails _ _); [reflexivity|].
        destruct (snd (stream _ _)); reflexivity. }
  rewrite app_assoc in H.
  destruct (split_after poolEvent _ _ _ _ _ HL Hev H) as (c1 & -> & ->).
  assert (Hw : fileCalls argv cfg (h ++ A) = wholeFileCalls argv cfg
               /\ filesDone argv cfg (h ++ A)).
  { destruct Hwhole as [Hno | Hw]; [|exact Hw].
    rewrite forallb_app in Hno. apply andb_true_iff in Hno as [_ Hno].
    simpl in Hno. rewrite Hev in Hno. discriminate Hno. }
  destruct Hw as [Hw Hdone]. rewrite Hw.
  unfold wholeFileCalls, filesDone in *.
  split; [|split].
  - intros Ht. rewrite Ht in *. exists A, c1.
    split; [rewrite <- app_assoc; reflexivity | exact Hdone].
  - intros Ht. rewrite Ht in *. exists A, c1.
    split; [rewrite <- app_assoc; reflexivity | exact Hdone].
  - intros x Hx. unfold quiet in QC. rewrite Forall_forall in QC.
    apply QC. apply in_or_app. right. right. exact Hx.
Qed.

(** *** The verdict of the chain *)

(** X19. The verdict on a record that holds the eleven fields host, time,
    method, path, query, status, responseSize, processTime, referer, user
    and country as strings: the line is rejected with the message of the
    first check that fails, in the order host, time, method, path, query,
    status, response size, process time, and it is accepted when none
    fails. A path or a query that [decodeURI] cannot decode rejects the line
    with [URI malformed]; the referer, the user, the country and the user
    agent reject nothing. *)
Theorem validate_verdict (l : jsstring) (raw : jsobject)
    (host time method path query status responseSize processTime
       referer user country : jsstring) :
  (fixEscaping l) .then gracefulParse .then checkFieldsAreStrings = Ok raw ->
  map (Get raw)
    [js "host"; js "time"; js "method"; js "path"; js "query"; js "status";
     js "responseSize"; js "processTime"; js "referer"; js "user";
     js "country"]
  = map VStr
      [host; time; method; path; query; status; responseSize; processTime;
       referer; user; country] ->
  match find fst (failures host time method path query status responseSize
                    processTime) with
  | Some (_, message) => validate l = Throw message
  | None => exists entry, validate l = Ok entry
  end.
Proof.
  intros Hraw Hfields. cbn [map] in Hfields.
  injection Hfields
    as Hhost Htime Hmethod Hpath Hquery Hstatus Hsize Hprocess Hreferer
       Huser Hcountry.
  assert (Hua : Get raw (js "userAgent") = VUndefined
                \/ exists s, Get raw (js "userAgent") = VStr s).
  { apply andThen_Ok in Hraw as (j & _ & Hraw).
    unfold checkFieldsAreStrings in Hraw.
    apply andThen_Ok in Hraw as (entries & _ & Hraw).
    eapply fieldsAreStrings_Get; eassumption. }
  unfold validate. rewrite Hraw. clear Hraw. unfold failures.
  cbn [andThen].
  unfold checkValidIP. rewrite Hhost. cbn [ToString].
  destruct (isIP host =? 0)%N; cbn [find fst andThen]; [reflexivity|].
  unfold checkValidTime. rewrite Htime. cbn [newDate ToString].
  destruct (Date_parse time) as [t|]; cbn [find fst andThen];
    [|reflexivity].
  unfold checkValidMethod. get_set. rewrite Hmethod. cbv zeta.
  destruct (includes VALID_HTTP_METHODS (toUpperCase method));
    cbn [negb find fst andThen]; [|reflexivity].
  unfold checkPathQuery, decodeAndTrim. get_set. rewrite Hpath, Hquery.
  cbn [ToString].
  destruct (decodeURI path) as [p|]; cbn [find fst andThen]; [|reflexivity].
  destruct (decodeURI query) as [q|]; cbn [find fst andThen]; [|reflexivity].
  unfold checkStatus. get_set. rewrite Hstatus. cbv zeta.
  cbn [ToNumber ToString].
  destruct (existsb _ VALID_HTTP_STATUSES); cbn [negb find fst andThen];
    [|reflexivity].
  unfold checkResponseSize. get_set. rewrite Hsize. cbv zeta.
  cbn [ToNumber ToString].
  destruct (isNaN (StringToNumber responseSize)); cbn [find fst andThen];
    [reflexivity|].
  unfold checkProcessTime. get_set. rewrite Hprocess. cbv zeta.
  cbn [ToNumber ToString].
  destruct (isNaN (StringToNumber processTime)); cbn [find fst andThen];
    [reflexivity|].
  unfold trimReferer. get_set. rewrite Hreferer. cbv zeta. cbn [andThen].
  unfold trimUser. get_set. rewrite Huser. cbv zeta. cbn [andThen].
  unfold checkCountry. get_set. rewrite Hcountry. cbn [andThen].
  unfold decomposeUserAgent. get_set. cbv zeta.
  destruct Hua as [-> | [s ->]].
  - eexists. reflexivity.
  - cbn [strictEqStr truthy].
    destruct (_ || _); eexists; reflexivity.
Qed.

(** *** A webhook that refuses the report of the failed entries *)

(** X20. A webhook that refuses the report of the failed entries does not
    stop the run: the message has been written to the console, the error of
    the webhook is written there too, the list of all failed entries is
    still logged when there are more than five, and [reportFailedEntries]
    returns normally. *)
Theorem reportFailedEntries_webhook_error (webhook : json)
    (entries : list failedEntry) (h : list event) (e : jsstring) :
  entries <> [] ->
  let message := failureMessage entries in
  fails (h ++ [ConsoleInfo message])
        (WebhookSend webhook (firstn 2000 message)) = Some e ->
  reportFailedEntries webhook entries h
  = (Ok tt,
     h ++ [ConsoleInfo message; WebhookSend webhook (firstn 2000 message);
           ConsoleErrorWebhook e]
       ++ if (5 <? List.length entries)%nat then [ConsoleDebug entries]
          else []).
Proof.
  intros Hne message Hfails. unfold reportFailedEntries.
  destruct entries as [|entry rest]; [contradiction|].
  cbn [List.length Nat.eqb].
  rewrite (bind_Ok _ _ _ _ _ (report_calls webhook message h)).
  rewrite Hfails. unfold when, ret, emit.
  destruct (5 <? S (List.length rest))%nat; rewrite <- ?app_assoc;
    reflexivity.
Qed.

End Logs.

(* ===================================================================== *)
(** ** Runs on the sample platform                                       *)
(* ===================================================================== *)

#[local] Abbreviation sample_validate :=
  (validate Sample.JSON_parse Sample.isIP Sample.Date_parse
     Sample.unicodeUpper Sample.NumberToString Sample.DateToString
     Sample.isbot Sample.UAParser).

#[local] Abbreviation sample_loadLoop :=
  (loadLoop Sample.JSON_parse Sample.isIP Sample.Date_parse
     Sample.unicodeUpper Sample.NumberToString Sample.DateToString
     Sample.isbot Sample.UAParser).

#[local] Abbreviation sample_loadEntries :=
  (loadEntries Sample.JSON_parse Sample.isIP Sample.Date_parse
     Sample.unicodeUpper Sample.NumberToString Sample.DateToString
     Sample.isbot Sample.UAParser).

#[local] Abbreviation sample_main :=
  (main Sample.JSON_parse Sample.isIP Sample.Date_parse
     Sample.unicodeUpper Sample.NumberToString Sample.DateToString
     Sample.isbot Sample.UAParser).

#[local] Abbreviation sample_config :=
  {| backup := js "access.log.bak"; db := JNull; discord := JNull;
     path := js "access.log" |}.

(** A request from a crawler on a phone, and a line that is not JSON. *)
#[local] Abbreviation crawler :=
  (Sample.logLine "10.0.0.1" "get" "/wiki/Main" EmptyString "200" "512" "3"
     "Mozilla/5.0 (iPhone) Googlebot").

#[local] Abbreviation garbage := (js "garbage").

(** The chain on the crawler's request. *)
Example validate_crawler :
  sample_validate crawler
  = Ok [(js "host", VStr (js "10.0.0.1")); (js "user", VNull);
        (js "time", VDate 1704067200000); (js "method", VStr (js "GET"));
        (js "path", VStr (js "/wiki/Main")); (js "query", VNull);
        (js "status", VNum (Fin false 25 3));
        (js "responseSize", VNum (Fin false 1 9));
        (js "processTime", VNum (Fin false 3 0));
        (js "referer", VStr (js "-"));
        (js "userAgent", VStr (js "Mozilla/5.0 (iPhone) Googlebot"));
        (js "country", VStr (js "US")); (js "bot", VBool true);
        (js "browser", VStr (js "Mobile Safari"));
        (js "deviceType", VStr (js "unknown")); (js "os", VStr (js "iOS"))].
Proof. vm_compute. reflexivity. Qed.

(** [Number] on a few strings: 200 in four spellings, 0.1, and strings that
    are no numbers. *)
Example Number_examples :
  map StringToNumber [js "200"; js " 2e2 "; js "0xC8"; js "200.0"]
  = [Fin false 25 3; Fin false 25 3; Fin false 25 3; Fin false 25 3]
  /\ StringToNumber (js "0.1") = Fin false 3602879701896397 (-55)
  /\ map StringToNumber [js "abc"; js "-"; js "1e"; js "12px"; js "-0x10"]
     = [NaN; NaN; NaN; NaN; NaN].
Proof. vm_compute. repeat split. Qed.

(** Witness of C1: a blank line, the crawler's request, a line of spaces and
    a line that is not JSON. *)
Lemma loadEntries_partition_witness :
  let lines := [[]; crawler; js "   "; garbage] in
  fst (sample_loadEntries (Sample.fileWith lines) (js "access.log") [])
  = Ok (sample_loadLoop lines)
  /\ List.length (fst (sample_loadLoop lines))
     + List.length (snd (sample_loadLoop lines)) = 2
  /\ map line (snd (sample_loadLoop lines)) = [garbage].
Proof.
  intros lines.
  pose proof (loadEntries_partition Sample.JSON_parse Sample.isIP
                Sample.Date_parse Sample.unicodeUpper Sample.NumberToString
                Sample.DateToString Sample.isbot Sample.UAParser
                (Sample.fileWith lines) lines) as (_ & _ & Hrej & Hlen & Hload).
  split; [apply Hload; reflexivity|].
  split; [rewrite Hlen | rewrite Hrej]; vm_compute; reflexivity.
Defined.

(** 45000 entries go in three bulk inserts of 20000, 20000 and 5000 rows. *)
Example chunks_45000 :
  map (fun b => N.of_nat (List.length b))
      (chunks (repeat [] (N.to_nat 45000)))
  = [20000; 20000; 5000]%N.
Proof. vm_compute. reflexivity. Qed.

(** Witness of C10: a response size of two spaces and an empty process
    time. *)
Lemma blank_numeric_field_is_zero_witness :
  checkResponseSize Sample.NumberToString Sample.DateToString
    [(js "responseSize", VStr (js "  "))]
  = Ok [(js "responseSize", VNum (Fin false 0 0))]
  /\ checkProcessTime Sample.NumberToString Sample.DateToString
       [(js "processTime", VStr [])]
     = Ok [(js "processTime", VNum (Fin false 0 0))].
Proof.
  split.
  - apply (blank_numeric_field_is_zero Sample.NumberToString
             Sample.DateToString [(js "responseSize", VStr (js "  "))]
             (js "  ") eq_refl).
    reflexivity.
  - apply (blank_numeric_field_is_zero Sample.NumberToString
             Sample.DateToString [(js "processTime", VStr [])] [] eq_refl).
    reflexivity.
Defined.

(** Witness of C4: a process time of [abc]. *)
Lemma checkProcessTime_message_witness :
  checkProcessTime Sample.NumberToString Sample.DateToString
    [(js "processTime", VStr (js "abc"))]
  = Throw (js "Invalid response size: abc").
Proof.
  apply (checkProcessTime_message Sample.NumberToString Sample.DateToString
           [(js "processTime", VStr (js "abc"))] (js "abc"));
    reflexivity.
Defined.

(** C9 as stated fails on the method [-]: it is in the list, the record
    passes the check, and what is stored is [null], not its upper-case
    form. *)
Lemma checkValidMethod_dash_stored_null :
  includes VALID_HTTP_METHODS (toUpperCase Sample.unicodeUpper (js "-")) = true
  /\ checkValidMethod Sample.unicodeUpper [(js "method", VStr (js "-"))]
     = Ok [(js "method", VNull)]
  /\ VNull <> VStr (toUpperCase Sample.unicodeUpper (js "-")).
Proof. repeat split; discriminate. Qed.

(** Witness of C9 as the code has it: [get] and [fetch]. *)
Lemma checkValidMethod_upper_case_witness :
  checkValidMethod Sample.unicodeUpper [(js "method", VStr (js "get"))]
  = Ok [(js "method", VStr (js "GET"))]
  /\ checkValidMethod Sample.unicodeUpper [(js "method", VStr (js "fetch"))]
     = Throw (js "Invalid HTTP method: FETCH").
Proof.
  split.
  - apply (checkValidMethod_upper_case Sample.unicodeUpper
             [(js "method", VStr (js "get"))] (js "get") eq_refl).
    reflexivity.
  - apply (checkValidMethod_upper_case Sample.unicodeUpper
             [(js "method", VStr (js "fetch"))] (js "fetch") eq_refl).
    reflexivity.
Defined.

(** Witness of C8: a crawler on a phone. The parser reports a mobile
    device, the entry says [unknown]. *)
Lemma decomposeUserAgent_deviceType_witness :
  let ua := js "Mozilla/5.0 (iPhone) Googlebot" in
  device_type (Sample.UAParser ua) = Some (js "mobile")
  /\ exists entry,
       decomposeUserAgent Sample.isbot Sample.UAParser
         [(js "userAgent", VStr ua)] = Ok entry
       /\ Get entry (js "bot") = VBool true
       /\ Get entry (js "deviceType") = VStr (js "unknown").
Proof.
  intros ua. split; [reflexivity|].
  destruct (decomposeUserAgent_deviceType Sample.isbot Sample.UAParser
              [(js "userAgent", VStr ua)] ua eq_refl)
    as (entry & E & Hbot & Hdev & _); try discriminate.
  exists entry. split; [exact E|]. split; [exact Hbot|].
  apply Hdev. reflexivity.
Defined.

(** C7 as stated fails on the user agent: [-] there ends as [null] too. *)
Lemma userAgent_dash_becomes_null :
  decomposeUserAgent Sample.isbot Sample.UAParser
    [(js "userAgent", VStr (js "-"))]
  = Ok [(js "userAgent", VNull); (js "bot", VBool false);
        (js "browser", VNull); (js "deviceType", VStr (js "unknown"));
        (js "os", VNull)]
  /\ Get [(js "userAgent", VNull); (js "bot", VBool false);
          (js "browser", VNull); (js "deviceType", VStr (js "unknown"));
          (js "os", VNull)] (js "userAgent") = VNull.
Proof. split; reflexivity. Qed.

(** A line where every field that has a sentinel holds it. *)
#[local] Abbreviation sentinels :=
  (Sample.objectText
     [("host", "10.0.0.1"); ("user", "-");
      ("time", "2024-01-01T00:00:00.000Z"); ("method", "-"); ("path", "-");
      ("query", EmptyString); ("status", "200"); ("responseSize", "512");
      ("processTime", "3"); ("referer", "-"); ("userAgent", "-");
      ("country", "-")]%string).

(** Witness of C7 as the code has it. *)
Lemma sentinels_become_null_witness :
  checkValidMethod Sample.unicodeUpper [(js "method", VStr (js "-"))]
  = Ok [(js "method", VNull)]
  /\ exists entry,
       sample_validate sentinels = Ok entry
       /\ map (Get entry)
            [js "method"; js "user"; js "path"; js "country"; js "query";
             js "userAgent"]
          = [VNull; VNull; VNull; VNull; VNull; VNull]
       /\ Get entry (js "referer") <> VNull.
Proof.
  pose proof (sentinels_become_null Sample.JSON_parse Sample.isIP
                Sample.Date_parse Sample.unicodeUpper Sample.NumberToString
                Sample.DateToString Sample.isbot Sample.UAParser)
    as (Hmethod & _ & _ & _ & _ & _ & Hchain).
  split; [apply Hmethod; reflexivity|].
  destruct (sample_validate sentinels) as [entry|] eqn:E;
    [|vm_compute in E; discriminate E].
  destruct (fixEscaping sentinels .then gracefulParse Sample.JSON_parse
              .then checkFieldsAreStrings) as [raw|] eqn:Eraw;
    [|vm_compute in Eraw; discriminate Eraw].
  destruct (Hchain sentinels raw entry Eraw E)
    as (Hm & Hu & Hp & Hc & Hq & Hua & Hother).
  vm_compute in Eraw. injection Eraw as <-.
  exists entry. split; [reflexivity|]. split.
  - cbn [map]. rewrite Hm, Hu, Hp, Hc, Hq, Hua by (try left; reflexivity).
    reflexivity.
  - apply Hother. do 5 right. left. reflexivity.
Defined.

(** Three small entries. *)
#[local] Abbreviation three :=
  [[(js "host", VStr (js "10.0.0.1"))]; [(js "host", VStr (js "10.0.0.2"))];
   [(js "host", VStr (js "10.0.0.3"))]].

(** Witness of C5: three entries go in one bulk insert; when the store
    refuses it, the error reaches the caller. *)
Lemma insertEntries_chunks_witness :
  snd (insertEntries Sample.noFailure JNull three [])
  = [CreatePool JNull; queryOf three; PoolEnd]
  /\ insertEntries Sample.queryFails JNull three []
     = (Throw (js "Connection lost"), [CreatePool JNull; queryOf three]).
Proof.
  split.
  - apply (insertEntries_chunks Sample.noFailure JNull three []).
    intros n _. reflexivity.
  - apply (insertEntries_chunks Sample.queryFails JNull three []
             : _ /\ _ /\ _ /\ _ /\ _ /\ _) with (n := 0).
    + vm_compute. reflexivity.
    + intros i Hi. inversion Hi.
    + reflexivity.
Defined.

(** C2 as stated fails when the store refuses a bulk insert: the error is
    thrown and the pool created at the start is never closed. *)
Lemma insertEntries_failure_leaves_pool_open :
  insertEntries Sample.queryFails JNull three []
  = (Throw (js "Connection lost"), [CreatePool JNull; queryOf three])
  /\ ~ In PoolEnd [CreatePool JNull; queryOf three].
Proof.
  split; [vm_compute; reflexivity|].
  intros [H|[H|[]]]; discriminate H.
Qed.

(** Witness of C2 as the code has it. *)
Lemma insertEntries_pool_end_witness :
  (exists r,
     insertEntries Sample.noFailure JNull three []
     = (r, [CreatePool JNull; queryOf three; PoolEnd]))
  /\ (exists calls,
        insertEntries Sample.queryFails JNull three []
        = (Throw (js "Connection lost"), [CreatePool JNull] ++ calls)
        /\ ~ In PoolEnd calls).
Proof.
  split.
  - apply (insertEntries_pool_end Sample.noFailure JNull three []).
    intros n _. reflexivity.
  - apply (insertEntries_pool_end Sample.queryFails JNull three []
             : _ /\ _) with (n := 0).
    + vm_compute. reflexivity.
    + intros i Hi. inversion Hi.
    + reflexivity.
Defined.

#[local] Abbreviation oneFailure :=
  [{| error := js "Invalid JSON."; line := garbage |}].



(** Witness of C6: a run with truncation on a readable file, and a run on a
    file that cannot be read. *)
Lemma main_truncates_after_parsing_witness :
  (exists pre post,
     snd (sample_main Sample.noFailure (Sample.fileWith [garbage]) []
            sample_config [])
     = pre ++ Truncate (js "access.log") :: post
     /\ In (EndOfStream (js "access.log")) pre
     /\ In (CopyFile (js "access.log") (js "access.log.bak")) pre)
  /\ ~ In (Truncate (js "access.log"))
          (snd (sample_main Sample.noFailure Sample.unreadable []
                  sample_config [])).
Proof.
  split.
  - destruct (main_truncates_after_parsing Sample.JSON_parse Sample.isIP
                Sample.Date_parse Sample.unicodeUpper Sample.NumberToString
                Sample.DateToString Sample.isbot Sample.UAParser
                Sample.noFailure (Sample.fileWith [garbage]) []
                sample_config [])
      as (calls & E & Htrunc & _ & _ & _).
    simpl app in E. rewrite E.
    assert (Hcalls : calls
                     = firstn 5 calls ++ Truncate (js "access.log")
                       :: skipn 6 calls)
      by (rewrite <- E; vm_compute; reflexivity).
    exists (firstn 5 calls), (skipn 6 calls). split; [exact Hcalls|].
    destruct (Htrunc _ _ _ Hcalls)
      as (_ & _ & pre1 & pre2 & pre3 & Hpre & _ & _).
    rewrite Hpre. split.
    + apply in_or_app. right. right. apply in_or_app. right. right.
      apply in_or_app. right. left. reflexivity.
    + apply in_or_app. right. left. reflexivity.
  - destruct (main_truncates_after_parsing Sample.JSON_parse Sample.isIP
                Sample.Date_parse Sample.unicodeUpper Sample.NumberToString
                Sample.DateToString Sample.isbot Sample.UAParser
                Sample.noFailure Sample.unreadable []
                sample_config [])
      as (calls & E & _ & Hfail & _ & _).
    simpl app in E. rewrite E. apply Hfail. intros h'. discriminate.
Defined.

(** The escaping fix and [decodeURI] on the euro sign, written by the log
    writer as three escaped bytes; [decodeURI] on the two sentinels. *)
Example escapes_examples :
  fixEscaping (js "/wiki/\xE2\x82\xAC") = Ok (js "/wiki/%E2%82%AC")
  /\ decodeURI (js "/wiki/%E2%82%AC") = Some (js "/wiki/" ++ [8364%N])
  /\ decodeURI (js "a%2Fb%20c") = Some (js "a%2Fb c")
  /\ decodeURI (js "100%") = None
  /\ decodeURI (js "-") = Some (js "-")
  /\ decodeURI [] = Some [].
Proof. vm_compute. repeat split. Qed.

(** The sample [isIP]. *)
Example isIP_examples :
  map Sample.isIP
    [js "10.0.0.1"; js "255.255.255.255"; js "256.0.0.1"; js "1.2.3";
     js "01.2.3.4"; js "not-an-ip"; js "undefined"]
  = [4; 4; 0; 0; 0; 0; 0]%N.
Proof. vm_compute. reflexivity. Qed.

(** Witness of X1: a path without a backslash, and the euro sign written as
    three escaped bytes. *)
Lemma fixEscaping_idempotent_witness :
  fixEscaping (js "/wiki/Main") = Ok (js "/wiki/Main")
  /\ (fixEscaping (js "/wiki/\xE2\x82\xAC")) .then fixEscaping
     = fixEscaping (js "/wiki/\xE2\x82\xAC").
Proof.
  split.
  - apply (fixEscaping_idempotent (js "/wiki/Main")). reflexivity.
  - apply (fixEscaping_idempotent (js "/wiki/\xE2\x82\xAC")).
Defined.

(** Witness of X2: an object of one string, and one whose status is a
    number. *)
Lemma checkFieldsAreStrings_object_witness :
  checkFieldsAreStrings (JObj [(js "host", JStr (js "10.0.0.1"))])
  = Ok [(js "host", VStr (js "10.0.0.1"))]
  /\ checkFieldsAreStrings
       (JObj [(js "host", JStr (js "10.0.0.1"));
              (js "status", JNum (Fin false 25 3))])
     = Throw (js "Field 'status' is not a string.").
Proof.
  split.
  - exact (proj1 (checkFieldsAreStrings_object
                    [(js "host", JStr (js "10.0.0.1"))]) eq_refl).
  - exact (proj1 (proj2 (checkFieldsAreStrings_object
                           [(js "host", JStr (js "10.0.0.1"));
                            (js "status", JNum (Fin false 25 3))]))
             [(js "host", JStr (js "10.0.0.1"))] (js "status")
             (JNum (Fin false 25 3)) [] eq_refl eq_refl eq_refl).
Defined.

(** Witness of X3: the lines [null], [[]] and [[1]]. *)
Lemma validate_non_object_witness :
  let validate :=
    validate Sample.JSON_parse_values Sample.isIP Sample.Date_parse
      Sample.unicodeUpper Sample.NumberToString Sample.DateToString
      Sample.isbot Sample.UAParser in
  validate (js "null") = Throw TypeError_entries
  /\ validate (js "[]") = Throw (js "Invalid IP address: undefined")
  /\ exists key,
       validate (js "[1]")
       = Throw (js "Field '" ++ key ++ js "' is not a string.").
Proof.
  intros validate. split; [|split].
  - exact (validate_non_object Sample.JSON_parse_values Sample.isIP
             Sample.Date_parse Sample.unicodeUpper Sample.NumberToString
             Sample.DateToString Sample.isbot Sample.UAParser
             (js "null") JNull eq_refl eq_refl).
  - exact (validate_non_object Sample.JSON_parse_values Sample.isIP
             Sample.Date_parse Sample.unicodeUpper Sample.NumberToString
             Sample.DateToString Sample.isbot Sample.UAParser
             (js "[]") (JArr []) eq_refl eq_refl).
  - exact (validate_non_object Sample.JSON_parse_values Sample.isIP
             Sample.Date_parse Sample.unicodeUpper Sample.NumberToString
             Sample.DateToString Sample.isbot Sample.UAParser
             (js "[1]") (JArr [JNum (Fin false 1 0)]) eq_refl eq_refl).
Defined.

(** Witness of X4: the crawler's request. *)
Lemma accepted_entry_columns_witness :
  exists entry,
    sample_validate crawler = Ok entry
    /\ (exists host,
          Get entry (js "host") = VStr host /\ Sample.isIP host <> 0%N)
    /\ (exists k,
          In k VALID_HTTP_STATUSES
          /\ Get entry (js "status") = VNum (numOfZ k))
    /\ (exists b, Get entry (js "bot") = VBool b).
Proof.
  eexists. split; [apply validate_crawler|].
  destruct (accepted_entry_columns Sample.JSON_parse Sample.isIP
              Sample.Date_parse Sample.unicodeUpper Sample.NumberToString
              Sample.DateToString Sample.isbot Sample.UAParser
              crawler _ validate_crawler eq_refl)
    as (Hhost & _ & Hstatus & _ & _ & _ & Hbot).
  split; [exact Hhost|]. split; [exact Hstatus | exact Hbot].
Defined.

(** Witness of X5: the crawler's request, made with [get]. *)
Lemma accepted_entry_method_witness :
  exists entry,
    sample_validate crawler = Ok entry
    /\ (Get entry (js "method") = VNull
        \/ exists m, In m METHOD_ENUM /\ Get entry (js "method") = VStr m).
Proof.
  eexists. split; [apply validate_crawler|].
  exact (accepted_entry_method Sample.JSON_parse Sample.isIP
           Sample.Date_parse Sample.unicodeUpper Sample.NumberToString
           Sample.DateToString Sample.isbot Sample.UAParser
           crawler _ validate_crawler).
Defined.

(** Witness of X6: the path and the country of the crawler's request. *)
Lemma accepted_entry_lengths_witness :
  exists entry,
    sample_validate crawler = Ok entry
    /\ (exists s,
          Get entry (js "path") = VStr s
          /\ List.length s <= MAX_PATH_QUERY_LENGTH)
    /\ (exists c,
          List.length c <= MAX_COUNTRY_LENGTH
          /\ Get entry (js "country")
             = VStr (toUpperCase Sample.unicodeUpper c)).
Proof.
  eexists. split; [apply validate_crawler|].
  destruct (accepted_entry_lengths Sample.JSON_parse Sample.isIP
              Sample.Date_parse Sample.unicodeUpper Sample.NumberToString
              Sample.DateToString Sample.isbot Sample.UAParser
              crawler _ validate_crawler) as [Hcut Hcountry].
  split.
  - exists (js "/wiki/Main"). split; [reflexivity|].
    apply (Hcut (js "path")); [right; left; reflexivity | reflexivity].
  - destruct (Hcountry (js "US") eq_refl) as (c & Hlen & Hc & _).
    exists c. split; [exact Hlen|]. rewrite <- Hc. reflexivity.
Defined.

(** The fields of the object on a line. *)
#[local] Abbreviation parsed l :=
  (match Sample.JSON_parse (replaceHexEscapes l) with
   | Some (JObj fields) => fields
   | _ => []
   end).

(** Witness of X7: the crawler's request has the required fields. *)
Lemma accepted_entry_required_fields_witness :
  Sample.JSON_parse (replaceHexEscapes crawler) = Some (JObj (parsed crawler))
  /\ (exists s, In (js "time", JStr s) (parsed crawler))
  /\ (exists s, In (js "country", JStr s) (parsed crawler))
  /\ (exists s, In (js "host", JStr s) (parsed crawler)).
Proof.
  assert (E : Sample.JSON_parse (replaceHexEscapes crawler)
              = Some (JObj (parsed crawler)))
    by (vm_compute; reflexivity).
  split; [exact E|].
  destruct (accepted_entry_required_fields Sample.JSON_parse Sample.isIP
              Sample.Date_parse Sample.unicodeUpper Sample.NumberToString
              Sample.DateToString Sample.isbot Sample.UAParser
              crawler (parsed crawler) _ E validate_crawler)
    as [Hrequired Hhost].
  split; [|split].
  - apply Hrequired. left. reflexivity.
  - apply Hrequired. do 7 right. left. reflexivity.
  - apply Hhost. reflexivity.
Defined.

(** A request logged without path, query and user agent. *)
#[local] Abbreviation bare :=
  (Sample.objectText
     [("host", "10.0.0.1"); ("user", "-");
      ("time", "2024-01-01T00:00:00.000Z"); ("method", "get");
      ("status", "200"); ("responseSize", "512"); ("processTime", "3");
      ("referer", "-"); ("country", "us")]%string).

(** Witness of X8. *)
Lemma accepted_entry_optional_fields_witness :
  exists entry,
    sample_validate bare = Ok entry
    /\ Get entry (js "path") = VStr (js "undefined")
    /\ Get entry (js "query") = VStr (js "undefined")
    /\ Get entry (js "userAgent") = VNull
    /\ Get entry (js "deviceType") = VStr (js "unknown").
Proof.
  destruct (sample_validate bare) as [entry|] eqn:E;
    [|vm_compute in E; discriminate E].
  assert (Eparse : Sample.JSON_parse (replaceHexEscapes bare)
                   = Some (JObj (parsed bare)))
    by (vm_compute; reflexivity).
  destruct (accepted_entry_optional_fields Sample.JSON_parse Sample.isIP
              Sample.Date_parse Sample.unicodeUpper Sample.NumberToString
              Sample.DateToString Sample.isbot Sample.UAParser
              bare (parsed bare) entry Eparse E)
    as (Hpath & Hquery & Hagent).
  destruct (Hagent eq_refl) as (Hua & _ & _ & Hdevice & _).
  exists entry. split; [reflexivity|].
  split; [exact (Hpath eq_refl)|]. split; [exact (Hquery eq_refl)|].
  split; [exact Hua | exact Hdevice].
Defined.

(** Witness of X9: a crawler on a phone. *)
Lemma decomposeUserAgent_parsed_witness :
  let ua := js "Mozilla/5.0 (iPhone) Googlebot" in
  exists entry,
    decomposeUserAgent Sample.isbot Sample.UAParser
      [(js "userAgent", VStr ua)] = Ok entry
    /\ Get entry (js "userAgent") = VStr ua
    /\ Get entry (js "browser") = VStr (js "Mobile Safari")
    /\ Get entry (js "os") = VStr (js "iOS").
Proof.
  intros ua.
  destruct (decomposeUserAgent_parsed Sample.isbot Sample.UAParser
              [(js "userAgent", VStr ua)] ua eq_refl)
    as (entry & E & Hua & Hbrowser & Hos & _); try discriminate.
  exists entry. split; [exact E|]. split; [exact Hua|].
  split; [exact Hbrowser | exact Hos].
Defined.

(** Witness of X10: the start of a run is announced; the webhook takes the
    message, or refuses it. *)
Lemma report_never_throws_witness :
  let message := js "Log transfer started." in
  report Sample.noFailure JNull message []
  = (Ok tt, [ConsoleInfo message; WebhookSend JNull message])
  /\ report Sample.webhookFails JNull message []
     = (Ok tt, [ConsoleInfo message; WebhookSend JNull message;
                ConsoleErrorWebhook (js "Unauthorized")]).
Proof.
  intros message.
  assert (Hshort : List.length message <= 2000)
    by (apply Nat.leb_le; vm_compute; reflexivity).
  split.
  - destruct (report_never_throws Sample.noFailure JNull message [])
      as (content & _ & _ & Hcontent & E).
    rewrite E, (Hcontent Hshort). reflexivity.
  - destruct (report_never_throws Sample.webhookFails JNull message [])
      as (content & _ & _ & Hcontent & E).
    rewrite E, (Hcontent Hshort). reflexivity.
Defined.

(** Witness of X12: a blank line, the crawler's request and a line that is
    not JSON. *)
Lemma loadLoop_sound_witness :
  let lines := [[]; crawler; garbage] in
  In garbage lines
  /\ sample_validate garbage = Throw (js "Invalid JSON.")
  /\ exists l entry,
       In l lines /\ sample_validate l = Ok entry
       /\ fst (sample_loadLoop lines) = [entry].
Proof.
  intros lines.
  destruct (loadLoop_sound Sample.JSON_parse Sample.isIP Sample.Date_parse
              Sample.unicodeUpper Sample.NumberToString Sample.DateToString
              Sample.isbot Sample.UAParser lines) as [Hacc Hrej].
  destruct (Hrej {| error := js "Invalid JSON."; line := garbage |})
    as (Hline & _ & e & He & Herr);
    [vm_compute; left; reflexivity|].
  split; [exact Hline|]. split.
  - cbn [line error] in He, Herr. rewrite He.
    destruct (str_eqb e []); [discriminate Herr|].
    rewrite <- Herr. reflexivity.
  - destruct (fst (sample_loadLoop lines)) as [|entry [|? ?]] eqn:E;
      try (vm_compute in E; discriminate E).
    destruct (Hacc entry) as (l & Hl & Hv); [left; reflexivity|].
    exists l, entry. split; [exact Hl|]. split; [exact Hv | reflexivity].
Defined.


(** Witness of X14: three entries are inserted and the pool closes; when
    the pool cannot be closed, the error is thrown after the insert. *)
Lemma insertEntries_outcome_witness :
  fst (insertEntries Sample.noFailure JNull three []) = Ok tt
  /\ insertEntries Sample.poolEndFails JNull three []
     = (Throw (js "Pool is closed."),
        [CreatePool JNull; queryOf three; PoolEnd]).
Proof.
  split.
  - pose proof (insertEntries_outcome Sample.noFailure JNull three [])
      as H.
    cbv zeta in H. destruct H as [[_ H] _]. apply H.
    split; [intros n _; reflexivity | reflexivity].
  - pose proof (insertEntries_outcome Sample.poolEndFails JNull three [])
      as H.
    cbv zeta in H. destruct H as [_ H].
    rewrite (H (js "Pool is closed."));
      [reflexivity | intros n _; reflexivity | reflexivity].
Defined.

(** Witness of X16: a run with both switches makes no backup, does not
    truncate and makes no call to the pool. *)
Lemma main_switches_witness :
  forallb (fun ev => negb (backupEvent ev) && negb (poolEvent ev))
    (snd (sample_main Sample.noFailure (Sample.fileWith [crawler])
            [js "--no-truncate"; js "--no-insert"] sample_config []))
  = true.
Proof.
  destruct (main_switches Sample.JSON_parse Sample.isIP Sample.Date_parse
              Sample.unicodeUpper Sample.NumberToString Sample.DateToString
              Sample.isbot Sample.UAParser Sample.noFailure
              (Sample.fileWith [crawler])
              [js "--no-truncate"; js "--no-insert"] sample_config [])
    as (calls & E & Htruncate & Hinsert).
  rewrite E. apply forallb_forall. intros ev Hev.
  rewrite (Htruncate eq_refl ev Hev), (Hinsert eq_refl ev Hev).
  reflexivity.
Defined.

(** Witness of X17: a run on a source of two blank lines. *)
Lemma main_clean_run_witness :
  sample_main Sample.noFailure (Sample.fileWith [[]; js "  "]) []
    sample_config []
  = (Ok tt,
     [ConsoleInfo (js "Log transfer started.");
      WebhookSend JNull (js "Log transfer started.");
      CopyFile (js "access.log") (js "access.log.bak");
      OpenStream (js "access.log"); EndOfStream (js "access.log");
      Truncate (js "access.log"); CreatePool JNull; PoolEnd;
      ConsoleInfo (js "0 entries successfully transferred.");
      WebhookSend JNull (js "0 entries successfully transferred.");
      WebhookDestroy JNull]).
Proof.
  destruct (main_clean_run Sample.JSON_parse Sample.isIP Sample.Date_parse
              Sample.unicodeUpper Sample.NumberToString Sample.DateToString
              Sample.isbot Sample.UAParser Sample.noFailure
              (Sample.fileWith [[]; js "  "]) (fun _ _ => eq_refl)
              [] sample_config [[]; js "  "] [] (fun _ => eq_refl))
    as [_ Hblank].
  rewrite (Hblank eq_refl). reflexivity.
Defined.

(** Witness of X18: in a run on the crawler's request the pool is created
    after the stream has ended and the source has been truncated. *)
Lemma main_pool_after_files_witness :
  exists pre post,
    snd (sample_main Sample.noFailure (Sample.fileWith [crawler]) []
           sample_config [])
    = pre ++ CreatePool JNull :: post
    /\ In (EndOfStream (js "access.log")) pre
    /\ In (Truncate (js "access.log")) pre
    /\ forall x, In x post -> fileEvent x = false.
Proof.
  destruct (main_pool_after_files Sample.JSON_parse Sample.isIP
              Sample.Date_parse Sample.unicodeUpper Sample.NumberToString
              Sample.DateToString Sample.isbot Sample.UAParser
              Sample.noFailure (Sample.fileWith [crawler]) []
              sample_config [])
    as (calls & E & Hpool).
  simpl app in E. rewrite E.
  assert (Hcalls : calls
                   = firstn 6 calls ++ CreatePool JNull :: skipn 7 calls)
    by (rewrite <- E; vm_compute; reflexivity).
  exists (firstn 6 calls), (skipn 7 calls). split; [exact Hcalls|].
  destruct (Hpool _ _ _ Hcalls eq_refl) as (_ & _ & Hdone & Hpost).
  destruct (Hdone eq_refl) as (before & after & Hpre & _).
  split; [|split; [|exact Hpost]]; rewrite Hpre;
    apply in_or_app; right; apply in_or_app; left; simpl; auto.
Defined.

(** The record of strings on a line. *)
#[local] Abbreviation rawOf l :=
  (match (fixEscaping l) .then (gracefulParse Sample.JSON_parse)
           .then checkFieldsAreStrings with
   | Ok raw => raw
   | Throw _ => []
   end).

(** A request for a path with a stray percent sign; the same request with a
    method that is no HTTP method and a status that is no status. *)
#[local] Abbreviation stray :=
  (Sample.logLine "10.0.0.1" "get" "/100%" EmptyString "200" "512" "3"
     "curl/8.5.0").

#[local] Abbreviation fetched :=
  (Sample.logLine "10.0.0.1" "fetch" "/100%" EmptyString "999" "512" "3"
     "curl/8.5.0").

(** Witness of X19: the stray percent sign rejects the first line; on the
    second the method is checked before the path and the status. *)
Lemma validate_verdict_witness :
  sample_validate stray = Throw (js "URI malformed")
  /\ sample_validate fetched = Throw (js "Invalid HTTP method: FETCH")
  /\ exists entry, sample_validate crawler = Ok entry.
Proof.
  split; [|split].
  - assert (Eraw : (fixEscaping stray) .then (gracefulParse Sample.JSON_parse)
                     .then checkFieldsAreStrings = Ok (rawOf stray))
      by (vm_compute; reflexivity).
    exact (validate_verdict Sample.JSON_parse Sample.isIP Sample.Date_parse
             Sample.unicodeUpper Sample.NumberToString Sample.DateToString
             Sample.isbot Sample.UAParser stray (rawOf stray)
             (js "10.0.0.1") (js "2024-01-01T00:00:00.000Z") (js "get")
             (js "/100%") [] (js "200") (js "512") (js "3") (js "-")
             (js "-") (js "us") Eraw eq_refl).
  - assert (Eraw : (fixEscaping fetched)
                     .then (gracefulParse Sample.JSON_parse)
                     .then checkFieldsAreStrings = Ok (rawOf fetched))
      by (vm_compute; reflexivity).
    exact (validate_verdict Sample.JSON_parse Sample.isIP Sample.Date_parse
             Sample.unicodeUpper Sample.NumberToString Sample.DateToString
             Sample.isbot Sample.UAParser fetched (rawOf fetched)
             (js "10.0.0.1") (js "2024-01-01T00:00:00.000Z") (js "fetch")
             (js "/100%") [] (js "999") (js "512") (js "3") (js "-")
             (js "-") (js "us") Eraw eq_refl).
  - assert (Eraw : (fixEscaping crawler)
                     .then (gracefulParse Sample.JSON_parse)
                     .then checkFieldsAreStrings = Ok (rawOf crawler))
      by (vm_compute; reflexivity).
    exact (validate_verdict Sample.JSON_parse Sample.isIP Sample.Date_parse
             Sample.unicodeUpper Sample.NumberToString Sample.DateToString
             Sample.isbot Sample.UAParser crawler (rawOf crawler)
             (js "10.0.0.1") (js "2024-01-01T00:00:00.000Z") (js "get")
             (js "/wiki/Main") [] (js "200") (js "512") (js "3") (js "-")
             (js "-") (js "us") Eraw eq_refl).
Defined.

(** Witness of X20: one failed entry and a webhook that refuses every
    message. *)
Lemma reportFailedEntries_webhook_error_witness :
  reportFailedEntries Sample.webhookFails JNull oneFailure []
  = (Ok tt,
     [ConsoleInfo (failureMessage oneFailure);
      WebhookSend JNull (firstn 2000 (failureMessage oneFailure));
      ConsoleErrorWebhook (js "Unauthorized")]).
Proof.
  apply (reportFailedEntries_webhook_error Sample.webhookFails JNull
           oneFailure [] (js "Unauthorized")).
  - discriminate.
  - reflexivity.
Defined.

#[local] Abbreviation sample_main_entry :=
  (main_entry Sample.JSON_parse Sample.isIP Sample.Date_parse
     Sample.unicodeUpper Sample.NumberToString Sample.DateToString
     Sample.isbot Sample.UAParser).

(** Witness of X15: a run without a [config.json], then a run on a line that
    is not JSON. *)
Lemma main_entry_ends_witness :
  let missing := js "ENOENT: no such file or directory, open 'config.json'" in
  sample_main_entry Sample.noFailure (Sample.fileWith [garbage])
    (Throw missing) [] []
  = (Throw missing, [])
  /\ fst (sample_main_entry Sample.noFailure (Sample.fileWith [garbage])
            (Ok sample_config) [] [])
     = Ok tt.
Proof.
  intros missing. split.
  - apply (main_entry_ends Sample.JSON_parse Sample.isIP Sample.Date_parse
             Sample.unicodeUpper Sample.NumberToString Sample.DateToString
             Sample.isbot Sample.UAParser Sample.noFailure
             (Sample.fileWith [garbage]) (Throw missing) [] []).
    reflexivity.
  - apply (main_entry_ends Sample.JSON_parse Sample.isIP Sample.Date_parse
             Sample.unicodeUpper Sample.NumberToString Sample.DateToString
             Sample.isbot Sample.UAParser Sample.noFailure
             (Sample.fileWith [garbage]) (Ok sample_config) [] []).
    exists sample_config. reflexivity.
Defined.
